(** * UART-SPI retranslator (components/uart-spi/uart-spi.c)

    A shallow embedding of the retranslator module: the two FreeRTOS tasks
    [uart_task] and [spi_task], the HAL notification callbacks, the start-up
    routine [uart_spi_start] and the zero-terminated framing filter applied
    to the SPI receive buffer.

    The RTOS and HAL are collaborators of the module.  The two kernel
    objects the module relies on (stream buffer, binary semaphore) are
    modelled below; the peripherals are an environment that answers every
    HAL call with a status and supplies the received data. *)

From Stdlib Require Import List Bool Arith Lia ZArith Strings.Byte.
Import ListNotations.

Local Open Scope nat_scope.

(** ** Constants and C-level data *)

(** [#define CHUNK_BUFF_SIZE 128] *)
Definition CHUNK_BUFF_SIZE : nat := 128.

(** [c != '\0'] on a [char]. *)
Definition nonzero (c : byte) : bool := negb (Byte.eqb c x00).

Inductive HAL_StatusTypeDef := HAL_OK | HAL_ERROR | HAL_BUSY | HAL_TIMEOUT.

Definition HAL_is_ok (st : HAL_StatusTypeDef) : bool :=
  match st with HAL_OK => true | _ => false end.

Inductive osStatus_t := osOK | osErrorTimeout | osErrorResource.

Definition os_is_ok (st : osStatus_t) : bool :=
  match st with osOK => true | _ => false end.

(** [memcpy]-like store of [data] at the start of an array. *)
Definition write_prefix (data buf : list byte) : list byte :=
  data ++ skipn (length data) buf.

(** [memset(buf, c, n)]. *)
Definition memset (buf : list byte) (c : byte) (n : nat) : list byte :=
  repeat c n ++ skipn n buf.

(** ** ByteChannel: the FreeRTOS stream buffer *)

Module StreamBuffer.

(** Modelled from the spec: the FreeRTOS stream buffer (stream_buffer.c
    is not part of the module's sources).  A bounded FIFO of bytes with a
    best-effort, never-blocking produce and a consume that hands out
    whatever is ready, up to a maximum. *)
Record t := mk { capacity : nat; stored : list byte }.

Inductive ticks := NoWait | portMAX_DELAY.

(** [xStreamBufferCreate(size, trigger_level)]. *)
Definition xStreamBufferCreate (size trigger : nat) : t := mk size [].

Definition spaces (sb : t) : nat := capacity sb - length (stored sb).

Definition is_full (sb : t) : bool := spaces sb =? 0.

(** [xStreamBufferSend(sb, data, len, 0)]: stores as many bytes as fit
    and returns how many were stored. *)
Definition xStreamBufferSend (sb : t) (data : list byte) : t * nat :=
  let committed := firstn (spaces sb) data in
  (mk (capacity sb) (stored sb ++ committed), length committed).

(** [xStreamBufferReceive(sb, buf, max_len, wait)] once it returns: the
    oldest bytes, at most [max_len] of them, leave the buffer. *)
Definition xStreamBufferReceive (sb : t) (max_len : nat) : t * list byte :=
  (mk (capacity sb) (skipn max_len (stored sb)), firstn max_len (stored sb)).

(** A receive with an infinite wait does not return while the buffer is
    empty (trigger level 1). *)
Definition would_block (sb : t) (wait : ticks) : bool :=
  match stored sb, wait with
  | [], portMAX_DELAY => true
  | _, _ => false
  end.

End StreamBuffer.

(** ** CompletionSignal: the CMSIS-RTOS2 semaphore *)

Module Semaphore.

(** Modelled from the spec: the CMSIS-RTOS2 semaphore (cmsis_os2.c is not
    part of the module's sources).  A token counter bounded by
    [max_count]; the module only ever creates it with [max_count = 1]. *)
Record t := mk { max_count : nat; count : nat }.

(** [osSemaphoreNew(max_count, initial_count, NULL)]. *)
Definition osSemaphoreNew (max initial : nat) : t := mk max initial.

Definition available (s : t) : bool := 0 <? count s.

(** [osSemaphoreRelease]: one more token unless the maximum is reached,
    in which case nothing changes. *)
Definition osSemaphoreRelease (s : t) : t * osStatus_t :=
  if count s <? max_count s
  then (mk (max_count s) (S (count s)), osOK)
  else (s, osErrorResource).

(** The part of [osSemaphoreAcquire] that does not wait. *)
Definition try_acquire (s : t) : option t :=
  match count s with
  | S n => Some (mk (max_count s) n)
  | O => None
  end.

End Semaphore.

(** ** Module state *)

(** The file-scope variables of uart-spi.c after a successful start,
    together with the function-static buffers and the framing flag of the
    two tasks. *)
Record state := mkState {
  uart_rx_stream : StreamBuffer.t;      (* UART-to-SPI stream *)
  spi_rx_stream : StreamBuffer.t;       (* SPI-to-UART stream *)
  uart_tx_sema : Semaphore.t;
  spi_tx_rx_sema : Semaphore.t;
  uart_rx_byte : byte;
  chunk_buff : list byte;               (* uart_task *)
  chunk_buff_tx : list byte;            (* spi_task *)
  chunk_buff_rx : list byte;            (* spi_task *)
  message_receiving : bool              (* spi_task *)
}.

Definition set_uart_rx_stream (v : StreamBuffer.t) (s : state) : state :=
  mkState v (spi_rx_stream s) (uart_tx_sema s) (spi_tx_rx_sema s)
          (uart_rx_byte s) (chunk_buff s) (chunk_buff_tx s) (chunk_buff_rx s)
          (message_receiving s).

Definition set_spi_rx_stream (v : StreamBuffer.t) (s : state) : state :=
  mkState (uart_rx_stream s) v (uart_tx_sema s) (spi_tx_rx_sema s)
          (uart_rx_byte s) (chunk_buff s) (chunk_buff_tx s) (chunk_buff_rx s)
          (message_receiving s).

Definition set_uart_tx_sema (v : Semaphore.t) (s : state) : state :=
  mkState (uart_rx_stream s) (spi_rx_stream s) v (spi_tx_rx_sema s)
          (uart_rx_byte s) (chunk_buff s) (chunk_buff_tx s) (chunk_buff_rx s)
          (message_receiving s).

Definition set_spi_tx_rx_sema (v : Semaphore.t) (s : state) : state :=
  mkState (uart_rx_stream s) (spi_rx_stream s) (uart_tx_sema s) v
          (uart_rx_byte s) (chunk_buff s) (chunk_buff_tx s) (chunk_buff_rx s)
          (message_receiving s).

Definition set_uart_rx_byte (v : byte) (s : state) : state :=
  mkState (uart_rx_stream s) (spi_rx_stream s) (uart_tx_sema s)
          (spi_tx_rx_sema s) v (chunk_buff s) (chunk_buff_tx s)
          (chunk_buff_rx s) (message_receiving s).

Definition set_chunk_buff (v : list byte) (s : state) : state :=
  mkState (uart_rx_stream s) (spi_rx_stream s) (uart_tx_sema s)
          (spi_tx_rx_sema s) (uart_rx_byte s) v (chunk_buff_tx s)
          (chunk_buff_rx s) (message_receiving s).

Definition set_chunk_buff_tx (v : list byte) (s : state) : state :=
  mkState (uart_rx_stream s) (spi_rx_stream s) (uart_tx_sema s)
          (spi_tx_rx_sema s) (uart_rx_byte s) (chunk_buff s) v
          (chunk_buff_rx s) (message_receiving s).

Definition set_chunk_buff_rx (v : list byte) (s : state) : state :=
  mkState (uart_rx_stream s) (spi_rx_stream s) (uart_tx_sema s)
          (spi_tx_rx_sema s) (uart_rx_byte s) (chunk_buff s)
          (chunk_buff_tx s) v (message_receiving s).

Definition set_message_receiving (v : bool) (s : state) : state :=
  mkState (uart_rx_stream s) (spi_rx_stream s) (uart_tx_sema s)
          (spi_tx_rx_sema s) (uart_rx_byte s) (chunk_buff s)
          (chunk_buff_tx s) (chunk_buff_rx s) v.

(** ** Observable actions *)

(** What the module asks of its collaborators, in program order. *)
Inductive event :=
| EvSpiTransmitReceive (txd : list byte) (len : nat) (st : HAL_StatusTypeDef)
| EvSpiAcquire (st : osStatus_t)
| EvSpiAbort
| EvSpiRxSend (c : byte)           (* xStreamBufferSend(spi_rx_stream, &c, 1, 0) *)
| EvUartTransmit (data : list byte) (len : nat) (st : HAL_StatusTypeDef)
| EvUartAcquire (st : osStatus_t)
| EvUartAbortTransmit
| EvUartReceiveIT (st : HAL_StatusTypeDef)
| EvUartRxSend (c : byte).         (* xStreamBufferSend(uart_rx_stream, &c, 1, 0) *)

(** The bytes handed to the SPI-to-UART stream, in order. *)
Fixpoint forwarded (tr : list event) : list byte :=
  match tr with
  | [] => []
  | EvSpiRxSend c :: tr' => c :: forwarded tr'
  | _ :: tr' => forwarded tr'
  end.

(** ** A state-and-trace monad for the task bodies *)

Definition M (A : Type) : Type := state -> A * state * list event.

Definition ret {A} (a : A) : M A := fun s => (a, s, []).

Definition bind {A B} (m : M A) (k : A -> M B) : M B :=
  fun s =>
    let '(a, s1, t1) := m s in
    let '(b, s2, t2) := k a s1 in
    (b, s2, t1 ++ t2).

Definition gets {A} (f : state -> A) : M A := fun s => (f s, s, []).
Definition modify (f : state -> state) : M unit := fun s => (tt, f s, []).
Definition emit (e : event) : M unit := fun s => (tt, s, [e]).

Definition final {A} (r : A * state * list event) : state := snd (fst r).
Definition trace {A} (r : A * state * list event) : list event := snd r.
Definition value {A} (r : A * state * list event) : A := fst (fst r).

Declare Scope task_scope.
Delimit Scope task_scope with task.
Notation "x <- m ;; k" := (bind m (fun x => k))
  (at level 61, m at next level, right associativity) : task_scope.
Notation "m ;; k" := (bind m (fun _ => k))
  (at level 61, right associativity) : task_scope.
Local Open Scope task_scope.

(** ** Environment of one loop iteration *)

(** Which of the two peripheral notifications ends an operation. *)
Inductive notification := Completed | Failed.

(** What the SPI peripheral does during one pass of the [spi_task] loop. *)
Record spi_env := mkSpiEnv {
  spi_start_status : HAL_StatusTypeDef;  (* HAL_SPI_TransmitReceive_DMA *)
  spi_rx_data : list byte;               (* what the DMA stored in rxd *)
  spi_wake : option notification         (* notification ending a blocked
                                            wait before the timeout *)
}.

(** What the UART peripheral does during one pass of the [uart_task] loop. *)
Record uart_env := mkUartEnv {
  uart_start_status : HAL_StatusTypeDef; (* HAL_UART_Transmit_DMA *)
  uart_wake : option notification
}.

(** ** The static functions of uart-spi.c *)

Definition release_sema (get : state -> Semaphore.t)
    (set : Semaphore.t -> state -> state) : M unit :=
  sem <- gets get ;;
  modify (set (fst (Semaphore.osSemaphoreRelease sem))).

Definition uart_tx_complete_callback : M unit :=
  release_sema uart_tx_sema set_uart_tx_sema.

Definition uart_error_callback : M unit :=
  release_sema uart_tx_sema set_uart_tx_sema.

Definition spi_tx_rx_complete_callback : M unit :=
  release_sema spi_tx_rx_sema set_spi_tx_rx_sema.

Definition spi_error_callback : M unit :=
  release_sema spi_tx_rx_sema set_spi_tx_rx_sema.

Definition uart_notify (n : notification) : M unit :=
  match n with
  | Completed => uart_tx_complete_callback
  | Failed => uart_error_callback
  end.

Definition spi_notify (n : notification) : M unit :=
  match n with
  | Completed => spi_tx_rx_complete_callback
  | Failed => spi_error_callback
  end.

(** [osSemaphoreAcquire(sem, pdMS_TO_TICKS(timeout_ms))]: takes the token
    when there is one; otherwise the caller sleeps, and either a
    notification releases the semaphore in time or the wait times out. *)
Definition osSemaphoreAcquire (get : state -> Semaphore.t)
    (set : Semaphore.t -> state -> state) (notify : notification -> M unit)
    (wake : option notification) : M osStatus_t :=
  sem <- gets get ;;
  match Semaphore.try_acquire sem with
  | Some sem' => modify (set sem') ;; ret osOK
  | None =>
      match wake with
      | None => ret osErrorTimeout
      | Some n =>
          notify n ;;
          sem1 <- gets get ;;
          match Semaphore.try_acquire sem1 with
          | Some sem' => modify (set sem') ;; ret osOK
          | None => ret osErrorTimeout
          end
      end
  end.

Definition status_code (ok : bool) : Z := if ok then 0%Z else (-1)%Z.

Definition uart_rx_start (st : HAL_StatusTypeDef) : M Z :=
  emit (EvUartReceiveIT st) ;;
  ret (status_code (HAL_is_ok st)).

Definition uart_tx_async (e : uart_env) (length : nat) : M Z :=
  data <- gets chunk_buff ;;
  emit (EvUartTransmit (firstn length data) length (uart_start_status e)) ;;
  ret (status_code (HAL_is_ok (uart_start_status e))).

Definition uart_wait_tx_ready (timeout_ms : nat) (e : uart_env) : M Z :=
  status <- osSemaphoreAcquire uart_tx_sema set_uart_tx_sema uart_notify
              (uart_wake e) ;;
  emit (EvUartAcquire status) ;;
  ret (status_code (os_is_ok status)).

Definition uart_tx_abort : M unit := emit EvUartAbortTransmit.

(** The HAL stores the received byte in [uart_rx_byte] before it calls the
    receive-complete callback. *)
Definition uart_rx_complete_callback (rearm : HAL_StatusTypeDef) : M unit :=
  c <- gets uart_rx_byte ;;
  sb <- gets uart_rx_stream ;;
  modify (set_uart_rx_stream (fst (StreamBuffer.xStreamBufferSend sb [c]))) ;;
  emit (EvUartRxSend c) ;;
  _ <- uart_rx_start rearm ;;
  ret tt.

Definition spi_tx_rx (e : spi_env) (length : nat) : M Z :=
  txd <- gets chunk_buff_tx ;;
  emit (EvSpiTransmitReceive (firstn length txd) length (spi_start_status e)) ;;
  if HAL_is_ok (spi_start_status e) then
    rxd <- gets chunk_buff_rx ;;
    modify (set_chunk_buff_rx
              (write_prefix (firstn length (spi_rx_data e)) rxd)) ;;
    ret 0%Z
  else ret (-1)%Z.

Definition spi_wait_ready (timeout_ms : nat) (e : spi_env) : M Z :=
  status <- osSemaphoreAcquire spi_tx_rx_sema set_spi_tx_rx_sema spi_notify
              (spi_wake e) ;;
  emit (EvSpiAcquire status) ;;
  ret (status_code (os_is_ok status)).

Definition spi_abort : M unit := emit EvSpiAbort.

(** [xStreamBufferSend(spi_rx_stream, &chunk_buff_rx[q], 1, 0)]; the
    returned count is not looked at. *)
Definition spi_rx_send (c : byte) : M unit :=
  sb <- gets spi_rx_stream ;;
  modify (set_spi_rx_stream (fst (StreamBuffer.xStreamBufferSend sb [c]))) ;;
  emit (EvSpiRxSend c).

(** ** The framing filter of [spi_task] *)

(** The body of [for (int q = 0; q < length; q++)]. *)
Definition scan_byte (q : nat) : M unit :=
  rxd <- gets chunk_buff_rx ;;
  let c := nth q rxd x00 in
  if nonzero c then
    receiving <- gets message_receiving ;;
    (if negb receiving then modify (set_message_receiving true) else ret tt) ;;
    spi_rx_send c
  else
    receiving <- gets message_receiving ;;
    if receiving then
      modify (set_message_receiving false) ;;
      spi_rx_send c
    else ret tt.

(** The loop from index [q], with [n = length - q] passes left. *)
Fixpoint scan_from (n q : nat) : M unit :=
  match n with
  | O => ret tt
  | S n' => scan_byte q ;; scan_from n' (S q)
  end.

Definition scan_rx (length : nat) : M unit := scan_from length 0.

(** ** The task loops *)

Definition is_zero (z : Z) : bool := Z.eqb z 0.

(** One pass of [while (1)] in [spi_task]. *)
Definition spi_task_iteration (e : spi_env) : M unit :=
  sb <- gets uart_rx_stream ;;
  let r := StreamBuffer.xStreamBufferReceive sb CHUNK_BUFF_SIZE in
  modify (set_uart_rx_stream (fst r)) ;;
  buf <- gets chunk_buff_tx ;;
  modify (set_chunk_buff_tx (write_prefix (snd r) buf)) ;;
  length <- (if length (snd r) =? 0 then
               buf0 <- gets chunk_buff_tx ;;
               modify (set_chunk_buff_tx (memset buf0 x00 CHUNK_BUFF_SIZE)) ;;
               ret CHUNK_BUFF_SIZE
             else ret (length (snd r))) ;;
  rc <- spi_tx_rx e length ;;
  if negb (is_zero rc) then ret tt (* continue *)
  else
    rc' <- spi_wait_ready 100 e ;;
    (if negb (is_zero rc') then spi_abort else ret tt) ;;
    scan_rx length.

(** [spi_task] run for as many passes as the environment script has. *)
Fixpoint spi_task_loop (script : list spi_env) : M unit :=
  match script with
  | [] => ret tt
  | e :: script' => spi_task_iteration e ;; spi_task_loop script'
  end.

Definition spi_task (script : list spi_env) : M unit :=
  modify (set_message_receiving false) ;;
  spi_task_loop script.

(** The body of [while (1)] in [uart_task] once the receive returns. *)
Definition uart_task_body (e : uart_env) : M unit :=
  sb <- gets spi_rx_stream ;;
  let r := StreamBuffer.xStreamBufferReceive sb CHUNK_BUFF_SIZE in
  modify (set_spi_rx_stream (fst r)) ;;
  buf <- gets chunk_buff ;;
  modify (set_chunk_buff (write_prefix (snd r) buf)) ;;
  let length := length (snd r) in
  if 0 <? length then
    rc <- uart_tx_async e length ;;
    if negb (is_zero rc) then ret tt (* continue *)
    else
      rc' <- uart_wait_tx_ready 100 e ;;
      if negb (is_zero rc') then uart_tx_abort else ret tt
  else ret tt.

(** What [uart_task] does before its loop: it arms the reception of the
    first byte; the result of [uart_rx_start] is not looked at. *)
Definition uart_task_entry (armed : HAL_StatusTypeDef) : M unit :=
  _ <- uart_rx_start armed ;;
  ret tt.

(** One pass of [while (1)] in [uart_task]; [None] while the task sleeps
    in [xStreamBufferReceive(..., portMAX_DELAY)]. *)
Definition uart_task_iteration (e : uart_env) (s : state)
  : option (unit * state * list event) :=
  if StreamBuffer.would_block (spi_rx_stream s) StreamBuffer.portMAX_DELAY
  then None
  else Some (uart_task_body e s).

(** ** Start-up: [uart_spi_start] *)

Module Start.

Inductive callback_id :=
| HAL_UART_TX_COMPLETE_CB_ID
| HAL_UART_RX_COMPLETE_CB_ID
| HAL_UART_ERROR_CB_ID
| HAL_SPI_TX_RX_COMPLETE_CB_ID
| HAL_SPI_ERROR_CB_ID.

Inductive task_id := UartTask | SpiTask.

(** A peripheral handle; [None] is the NULL pointer. *)
Definition handle := option nat.

Record uart_spi_params_t := mkParams { p_huart : handle; p_hspi : handle }.

(** The answers of the HAL and of the kernel to the calls made by
    [uart_spi_start], in program order. *)
Record env := mkEnv {
  reg_uart_tx_complete : HAL_StatusTypeDef;
  reg_uart_rx_complete : HAL_StatusTypeDef;
  reg_uart_error : HAL_StatusTypeDef;
  uart_rx_stream_created : bool;
  uart_tx_sema_created : bool;
  reg_spi_tx_rx_complete : HAL_StatusTypeDef;
  reg_spi_error : HAL_StatusTypeDef;
  spi_rx_stream_created : bool;
  spi_tx_rx_sema_created : bool;
  uart_task_created : bool;
  spi_task_created : bool
}.

(** The file-scope variables, all NULL before the start. *)
Record vars := mkVars {
  v_huart : handle;
  v_hspi : handle;
  v_uart_task_handle : option task_id;
  v_spi_task_handle : option task_id;
  v_uart_rx_stream : option StreamBuffer.t;
  v_spi_rx_stream : option StreamBuffer.t;
  v_uart_tx_sema : option Semaphore.t;
  v_spi_tx_rx_sema : option Semaphore.t;
  v_registered : list callback_id   (* callbacks the HAL accepted *)
}.

Definition unset : vars :=
  mkVars None None None None None None None None [].

(** How a call of the function ends: it returns a value, or a failed
    [assert] stops the program, or a NULL pointer is dereferenced. *)
Inductive outcome (A : Type) :=
| Returned (a : A) (v : vars)
| AssertionFailed
| Fault.
Arguments Returned {A} a v.
Arguments AssertionFailed {A}.
Arguments Fault {A}.

Definition Cmd (A : Type) : Type := vars -> outcome A.

Definition sret {A} (a : A) : Cmd A := fun v => Returned a v.

Definition sbind {A B} (m : Cmd A) (k : A -> Cmd B) : Cmd B :=
  fun v =>
    match m v with
    | Returned a v' => k a v'
    | AssertionFailed => AssertionFailed
    | Fault => Fault
    end.

Definition update (f : vars -> vars) : Cmd unit := fun v => Returned tt (f v).

Definition fault {A} : Cmd A := fun _ => Fault.

(** [assert(cond)]: compiled out when NDEBUG is defined. *)
Definition assert (ndebug cond : bool) : Cmd unit :=
  fun v => if ndebug || cond then Returned tt v else AssertionFailed.

Declare Scope start_scope.
Delimit Scope start_scope with start.
Notation "x <- m ;; k" := (sbind m (fun x => k))
  (at level 61, m at next level, right associativity) : start_scope.
Notation "m ;; k" := (sbind m (fun _ => k))
  (at level 61, right associativity) : start_scope.

Definition is_set {A} (o : option A) : bool :=
  match o with Some _ => true | None => false end.

(** [HAL_xxx_RegisterCallback]: the callback is installed when the HAL
    answers HAL_OK. *)
Definition register (id : callback_id) (st : HAL_StatusTypeDef)
  : Cmd HAL_StatusTypeDef :=
  fun v =>
    Returned st
      (if HAL_is_ok st
       then mkVars (v_huart v) (v_hspi v) (v_uart_task_handle v)
              (v_spi_task_handle v) (v_uart_rx_stream v)
              (v_spi_rx_stream v) (v_uart_tx_sema v) (v_spi_tx_rx_sema v)
              (v_registered v ++ [id])
       else v).

Definition set_handles (hu hs : handle) (v : vars) : vars :=
  mkVars hu hs (v_uart_task_handle v) (v_spi_task_handle v)
    (v_uart_rx_stream v) (v_spi_rx_stream v) (v_uart_tx_sema v)
    (v_spi_tx_rx_sema v) (v_registered v).

Definition set_v_uart_rx_stream (o : option StreamBuffer.t) (v : vars) :=
  mkVars (v_huart v) (v_hspi v) (v_uart_task_handle v)
    (v_spi_task_handle v) o (v_spi_rx_stream v) (v_uart_tx_sema v)
    (v_spi_tx_rx_sema v) (v_registered v).

Definition set_v_spi_rx_stream (o : option StreamBuffer.t) (v : vars) :=
  mkVars (v_huart v) (v_hspi v) (v_uart_task_handle v)
    (v_spi_task_handle v) (v_uart_rx_stream v) o (v_uart_tx_sema v)
    (v_spi_tx_rx_sema v) (v_registered v).

Definition set_v_uart_tx_sema (o : option Semaphore.t) (v : vars) :=
  mkVars (v_huart v) (v_hspi v) (v_uart_task_handle v)
    (v_spi_task_handle v) (v_uart_rx_stream v) (v_spi_rx_stream v) o
    (v_spi_tx_rx_sema v) (v_registered v).

Definition set_v_spi_tx_rx_sema (o : option Semaphore.t) (v : vars) :=
  mkVars (v_huart v) (v_hspi v) (v_uart_task_handle v)
    (v_spi_task_handle v) (v_uart_rx_stream v) (v_spi_rx_stream v)
    (v_uart_tx_sema v) o (v_registered v).

Definition set_v_uart_task_handle (o : option task_id) (v : vars) :=
  mkVars (v_huart v) (v_hspi v) o (v_spi_task_handle v)
    (v_uart_rx_stream v) (v_spi_rx_stream v) (v_uart_tx_sema v)
    (v_spi_tx_rx_sema v) (v_registered v).

Definition set_v_spi_task_handle (o : option task_id) (v : vars) :=
  mkVars (v_huart v) (v_hspi v) (v_uart_task_handle v) o
    (v_uart_rx_stream v) (v_spi_rx_stream v) (v_uart_tx_sema v)
    (v_spi_tx_rx_sema v) (v_registered v).

(** A kernel object is handed out, or NULL when the kernel refuses. *)
Definition alloc {A} (granted : bool) (obj : A) : option A :=
  if granted then Some obj else None.

Local Open Scope start_scope.

(** [int uart_spi_start(uart_spi_params_t *params)]. *)
Definition uart_spi_start (ndebug : bool) (e : env)
    (params : option uart_spi_params_t) : Cmd Z :=
  assert ndebug (is_set params) ;;
  match params with
  | None => fault
  | Some p =>
      assert ndebug (is_set (p_huart p)) ;;
      assert ndebug (is_set (p_hspi p)) ;;
      update (set_handles (p_huart p) (p_hspi p)) ;;
      (* Register some HAL UART callbacks *)
      status <- register HAL_UART_TX_COMPLETE_CB_ID (reg_uart_tx_complete e) ;;
      assert ndebug (HAL_is_ok status) ;;
      status <- register HAL_UART_RX_COMPLETE_CB_ID (reg_uart_rx_complete e) ;;
      assert ndebug (HAL_is_ok status) ;;
      status <- register HAL_UART_ERROR_CB_ID (reg_uart_error e) ;;
      assert ndebug (HAL_is_ok status) ;;
      (* Create UART-to-SPI stream buffer *)
      let sb := alloc (uart_rx_stream_created e)
                  (StreamBuffer.xStreamBufferCreate 1024 1) in
      update (set_v_uart_rx_stream sb) ;;
      assert ndebug (is_set sb) ;;
      (* Semaphore is released at initial *)
      let sem := alloc (uart_tx_sema_created e)
                   (Semaphore.osSemaphoreNew 1 1) in
      update (set_v_uart_tx_sema sem) ;;
      assert ndebug (is_set sem) ;;
      (* Register some HAL SPI callbacks *)
      status <- register HAL_SPI_TX_RX_COMPLETE_CB_ID
                  (reg_spi_tx_rx_complete e) ;;
      assert ndebug (HAL_is_ok status) ;;
      status <- register HAL_SPI_ERROR_CB_ID (reg_spi_error e) ;;
      assert ndebug (HAL_is_ok status) ;;
      (* Create SPI-to-UART stream buffer *)
      let sb' := alloc (spi_rx_stream_created e)
                   (StreamBuffer.xStreamBufferCreate 1024 1) in
      update (set_v_spi_rx_stream sb') ;;
      assert ndebug (is_set sb') ;;
      (* Semaphore is released at initial *)
      let sem' := alloc (spi_tx_rx_sema_created e)
                    (Semaphore.osSemaphoreNew 1 1) in
      update (set_v_spi_tx_rx_sema sem') ;;
      assert ndebug (is_set sem') ;;
      (* Create UART and SPI tasks *)
      let th := alloc (uart_task_created e) UartTask in
      update (set_v_uart_task_handle th) ;;
      assert ndebug (is_set th) ;;
      let th' := alloc (spi_task_created e) SpiTask in
      update (set_v_spi_task_handle th') ;;
      assert ndebug (is_set th') ;;
      sret 0%Z
  end.

(** An environment in which every call succeeds. *)
Definition all_ok : env :=
  mkEnv HAL_OK HAL_OK HAL_OK true true HAL_OK HAL_OK true true true true.

Definition succeeds (e : env) : bool :=
  HAL_is_ok (reg_uart_tx_complete e) && HAL_is_ok (reg_uart_rx_complete e)
  && HAL_is_ok (reg_uart_error e) && uart_rx_stream_created e
  && uart_tx_sema_created e && HAL_is_ok (reg_spi_tx_rx_complete e)
  && HAL_is_ok (reg_spi_error e) && spi_rx_stream_created e
  && spi_tx_rx_sema_created e && uart_task_created e && spi_task_created e.

(** The call made by [app_init]: [{ .huart = &huart1, .hspi = &hspi1 }]. *)
Definition app_params : option uart_spi_params_t :=
  Some (mkParams (Some 1) (Some 1)).

Definition returned_value {A} (o : outcome A) : option A :=
  match o with Returned a _ => Some a | _ => None end.

End Start.

(** The state in which the two tasks begin to run: what a successful
    [uart_spi_start] leaves in the file-scope variables, with the static
    buffers zero-initialised. *)
Definition boot (v : Start.vars) : option state :=
  match Start.v_uart_rx_stream v, Start.v_spi_rx_stream v,
        Start.v_uart_tx_sema v, Start.v_spi_tx_rx_sema v with
  | Some urx, Some srx, Some usem, Some ssem =>
      Some (mkState urx srx usem ssem x00
              (repeat x00 CHUNK_BUFF_SIZE) (repeat x00 CHUNK_BUFF_SIZE)
              (repeat x00 CHUNK_BUFF_SIZE) false)
  | _, _, _, _ => None
  end.

Definition initial_state : state :=
  mkState (StreamBuffer.xStreamBufferCreate 1024 1)
          (StreamBuffer.xStreamBufferCreate 1024 1)
          (Semaphore.osSemaphoreNew 1 1) (Semaphore.osSemaphoreNew 1 1)
          x00 (repeat x00 CHUNK_BUFF_SIZE) (repeat x00 CHUNK_BUFF_SIZE)
          (repeat x00 CHUNK_BUFF_SIZE) false.

(** ** The whole system as interleaved atomic actions *)

(** A pass of either task loop, or one of the five notifications.  For the
    receive-complete notification the HAL first stores the received byte. *)
Inductive action :=
| SpiPass (e : spi_env)
| UartPass (e : uart_env)
| IrqUartTxComplete
| IrqUartError
| IrqUartRxComplete (c : byte) (rearm : HAL_StatusTypeDef)
| IrqSpiTxRxComplete
| IrqSpiError.

Definition perform (a : action) : M unit :=
  match a with
  | SpiPass e => spi_task_iteration e
  | UartPass e =>
      fun s => match uart_task_iteration e s with
               | Some r => r
               | None => (tt, s, [])
               end
  | IrqUartTxComplete => uart_tx_complete_callback
  | IrqUartError => uart_error_callback
  | IrqUartRxComplete c rearm =>
      modify (set_uart_rx_byte c) ;; uart_rx_complete_callback rearm
  | IrqSpiTxRxComplete => spi_tx_rx_complete_callback
  | IrqSpiError => spi_error_callback
  end.

Fixpoint run (acts : list action) : M unit :=
  match acts with
  | [] => ret tt
  | a :: acts' => perform a ;; run acts'
  end.

(** ** The framing filter as the specification words it *)

Module FramingSpec.

(** One received byte: a non-zero byte is forwarded and the filter is
    inside a message afterwards; a zero byte inside a message is forwarded
    as the terminator and ends the message; a zero byte outside a message
    is idle filler and is discarded. *)
Definition filter_step (inside_message : bool) (c : byte)
  : bool * list byte :=
  if nonzero c then (true, [c])
  else if inside_message then (false, [c])
       else (false, []).

(** The buffer is scanned left to right. *)
Fixpoint framing_filter (inside_message : bool) (rx : list byte)
  : bool * list byte :=
  match rx with
  | [] => (inside_message, [])
  | c :: rx' =>
      let r := filter_step inside_message c in
      let r' := framing_filter (fst r) rx' in
      (fst r', snd r ++ snd r')
  end.

Definition inside_after (inside_message : bool) (rx : list byte) : bool :=
  fst (framing_filter inside_message rx).

Definition output (inside_message : bool) (rx : list byte) : list byte :=
  snd (framing_filter inside_message rx).

End FramingSpec.

(** The bytes read by [for (q = 0; q < length; q++) chunk_buff_rx[q]]. *)
Definition rx_bytes_from (s : state) (q n : nat) : list byte :=
  map (fun i => nth i (chunk_buff_rx s) x00) (seq q n).

Definition rx_bytes (s : state) (length : nat) : list byte :=
  rx_bytes_from s 0 length.

(** Single-byte sends, one after the other. *)
Definition send_each (sb : StreamBuffer.t) (out : list byte)
  : StreamBuffer.t :=
  fold_left (fun b c => fst (StreamBuffer.xStreamBufferSend b [c])) out sb.

(** A state after the filter has handled the bytes [rx]. *)
Definition filtered (s : state) (rx : list byte) : state :=
  set_message_receiving
    (FramingSpec.inside_after (message_receiving s) rx)
    (set_spi_rx_stream
       (send_each (spi_rx_stream s)
          (FramingSpec.output (message_receiving s) rx)) s).

(** ** Derived notions used in the statements *)

(** What the non-blocking receive takes out of the UART-to-SPI stream. *)
Definition spi_consumed (s : state) : list byte :=
  snd (StreamBuffer.xStreamBufferReceive (uart_rx_stream s) CHUNK_BUFF_SIZE).

(** The value of the local variable [length] when [spi_tx_rx] is called. *)
Definition spi_length (s : state) : nat :=
  if length (spi_consumed s) =? 0 then CHUNK_BUFF_SIZE
  else length (spi_consumed s).

(** The state when [spi_tx_rx] is called. *)
Definition spi_loaded (s : state) : state :=
  let buf := write_prefix (spi_consumed s) (chunk_buff_tx s) in
  set_chunk_buff_tx
    (if length (spi_consumed s) =? 0 then memset buf x00 CHUNK_BUFF_SIZE
     else buf)
    (set_uart_rx_stream
       (fst (StreamBuffer.xStreamBufferReceive (uart_rx_stream s)
               CHUNK_BUFF_SIZE)) s).

(** The state after an accepted transaction has stored its data. *)
Definition spi_received (e : spi_env) (s : state) : state :=
  set_chunk_buff_rx
    (write_prefix (firstn (spi_length s) (spi_rx_data e)) (chunk_buff_rx s))
    (spi_loaded s).

(** The wait for the completion signal on that state. *)
Definition spi_waited (e : spi_env) (s : state)
  : osStatus_t * state * list event :=
  osSemaphoreAcquire spi_tx_rx_sema set_spi_tx_rx_sema spi_notify
    (spi_wake e) (spi_received e s).

Definition spi_start_event (e : spi_env) (s : state) : event :=
  EvSpiTransmitReceive (firstn (spi_length s) (chunk_buff_tx (spi_loaded s)))
    (spi_length s) (spi_start_status e).

(** The bytes the filter reads in one pass: none when the transaction was
    refused, otherwise the first [length] bytes of the receive buffer. *)
Definition spi_pass_scanned (e : spi_env) (s : state) : list byte :=
  if HAL_is_ok (spi_start_status e)
  then rx_bytes (final (spi_waited e s)) (spi_length s)
  else [].

Fixpoint spi_scanned (script : list spi_env) (s : state) : list byte :=
  match script with
  | [] => []
  | e :: script' =>
      spi_pass_scanned e s
      ++ spi_scanned script' (final (spi_task_iteration e s))
  end.

(** What the receive takes out of the SPI-to-UART stream. *)
Definition uart_consumed (s : state) : list byte :=
  snd (StreamBuffer.xStreamBufferReceive (spi_rx_stream s) CHUNK_BUFF_SIZE).

(** The state when [uart_tx_async] is called. *)
Definition uart_loaded (s : state) : state :=
  set_chunk_buff (write_prefix (uart_consumed s) (chunk_buff s))
    (set_spi_rx_stream
       (fst (StreamBuffer.xStreamBufferReceive (spi_rx_stream s)
               CHUNK_BUFF_SIZE)) s).

Definition uart_start_event (e : uart_env) (s : state) : event :=
  EvUartTransmit (uart_consumed s) (length (uart_consumed s))
    (uart_start_status e).

(** The wait for the transmit-complete signal. *)
Definition uart_waited (e : uart_env) (s : state)
  : osStatus_t * state * list event :=
  osSemaphoreAcquire uart_tx_sema set_uart_tx_sema uart_notify
    (uart_wake e) (uart_loaded s).

Definition pass_scanned (a : action) (s : state) : list byte :=
  match a with
  | SpiPass e => spi_pass_scanned e s
  | _ => []
  end.

Fixpoint scanned (acts : list action) (s : state) : list byte :=
  match acts with
  | [] => []
  | a :: acts' => pass_scanned a s ++ scanned acts' (final (perform a s))
  end.

(** Every zero byte of [out] comes right after a non-zero byte;
    [after_nonzero] tells whether the byte before [out] was non-zero. *)
Fixpoint zeros_follow_nonzero (after_nonzero : bool) (out : list byte)
  : bool :=
  match out with
  | [] => true
  | c :: out' =>
      if nonzero c then zeros_follow_nonzero true out'
      else after_nonzero && zeros_follow_nonzero false out'
  end.

(** The sequence does not begin with a zero byte, and each zero byte in it
    has a non-zero byte immediately before it. *)
Definition well_framed (out : list byte) : Prop :=
  hd_error out <> Some x00
  /\ forall i : nat,
       nth_error out (S i) = Some x00 ->
       exists c : byte, nth_error out i = Some c /\ c <> x00.

(** The bytes of ["HELLO\0"]. *)
Definition HELLO : list byte := [x48; x45; x4c; x4c; x4f; x00].

(** Every pass is an accepted 128-byte transaction: the local [length] is
    [CHUNK_BUFF_SIZE] when [spi_tx_rx] is called (no UART data is pending,
    or a full chunk of it is), the HAL accepts the transaction, and the
    peripheral stores a full chunk of received bytes. *)
Fixpoint full_transfers (script : list spi_env) (s : state) : Prop :=
  match script with
  | [] => True
  | e :: script' =>
      spi_length s = CHUNK_BUFF_SIZE
      /\ HAL_is_ok (spi_start_status e) = true
      /\ length (spi_rx_data e) = CHUNK_BUFF_SIZE
      /\ full_transfers script' (final (spi_task_iteration e s))
  end.

(** The state in which the loop of [spi_task] is entered. *)
Definition spi_task_entered (s : state) : state :=
  set_message_receiving false s.

(** The receive stream: the chunks of the passes, one after the other. *)
Definition received (script : list spi_env) : list byte :=
  concat (map spi_rx_data script).

(** A semaphore used as a latch: at most one token. *)
Definition binary (sem : Semaphore.t) : Prop :=
  Semaphore.max_count sem = 1 /\ Semaphore.count sem <= 1.

(** A stream of the size the module creates, not over-filled. *)
Definition channel_ok (sb : StreamBuffer.t) : Prop :=
  StreamBuffer.capacity sb = 1024 /\ length (StreamBuffer.stored sb) <= 1024.

Definition wf_state (s : state) : Prop :=
  channel_ok (uart_rx_stream s) /\ channel_ok (spi_rx_stream s)
  /\ binary (uart_tx_sema s) /\ binary (spi_tx_rx_sema s).

(** What a producer and a consumer do to one channel. *)
Inductive channel_op :=
| Produce (data : list byte)
| Consume (max_len : nat).

(** The channel after the operations, with everything stored and
    everything handed out on the way, each in order. *)
Fixpoint channel_run (ops : list channel_op) (sb : StreamBuffer.t)
  : StreamBuffer.t * list byte * list byte :=
  match ops with
  | [] => (sb, [], [])
  | Produce data :: ops' =>
      let r := StreamBuffer.xStreamBufferSend sb data in
      let '(sb', committed, consumed) := channel_run ops' (fst r) in
      (sb', firstn (snd r) data ++ committed, consumed)
  | Consume n :: ops' =>
      let r := StreamBuffer.xStreamBufferReceive sb n in
      let '(sb', committed, consumed) := channel_run ops' (fst r) in
      (sb', committed, snd r ++ consumed)
  end.

(** The file-scope variables after a start in which every call succeeds. *)
Definition started_vars : Start.vars :=
  Start.mkVars (Some 1) (Some 1) (Some Start.UartTask) (Some Start.SpiTask)
    (Some (StreamBuffer.xStreamBufferCreate 1024 1))
    (Some (StreamBuffer.xStreamBufferCreate 1024 1))
    (Some (Semaphore.osSemaphoreNew 1 1))
    (Some (Semaphore.osSemaphoreNew 1 1))
    [Start.HAL_UART_TX_COMPLETE_CB_ID; Start.HAL_UART_RX_COMPLETE_CB_ID;
     Start.HAL_UART_ERROR_CB_ID; Start.HAL_SPI_TX_RX_COMPLETE_CB_ID;
     Start.HAL_SPI_ERROR_CB_ID].

(** The HAL refuses the first callback registration. *)
Definition registration_refused : Start.env :=
  Start.mkEnv HAL_ERROR HAL_OK HAL_OK true true HAL_OK HAL_OK true true
    true true.

(** The kernel has no memory left for the SPI-to-UART stream buffer. *)
Definition stream_not_allocated : Start.env :=
  Start.mkEnv HAL_OK HAL_OK HAL_OK true true HAL_OK HAL_OK false true
    true true.

(** The SPI task cannot be created. *)
Definition task_not_started : Start.env :=
  Start.mkEnv HAL_OK HAL_OK HAL_OK true true HAL_OK HAL_OK true true
    true false.

(** A command that never hands back -1. *)
Definition never_minus_one (m : Start.Cmd Z) : Prop :=
  forall v : Start.vars, Start.returned_value (m v) <> Some (-1)%Z.

(** ["HELLO\0"] cut by a chunk boundary: 125 filler bytes and "HEL" in the
    first transaction, "LO\0" and 125 filler bytes in the second. *)
Definition hello_script : list spi_env :=
  [mkSpiEnv HAL_OK (repeat x00 125 ++ [x48; x45; x4c]) None;
   mkSpiEnv HAL_OK ([x4c; x4f; x00] ++ repeat x00 125) (Some Completed)].

(** A message of 130 bytes ['A'] after five filler bytes. *)
Definition long_message : list byte := repeat x41 130.

Definition long_first : spi_env :=
  mkSpiEnv HAL_OK (repeat x00 5 ++ repeat x41 123) None.

Definition long_second : spi_env :=
  mkSpiEnv HAL_OK (repeat x41 7 ++ [x00] ++ repeat x00 120) (Some Completed).

(** A run after which both latches are taken, no notification is pending
    and the SPI-to-UART stream holds data: a pass of [spi_task] that
    receives "A\0", a pass of [uart_task] that transmits it, and a pass of
    [spi_task] that receives "B\0". *)
Definition stalled_state : state :=
  final (run [SpiPass (mkSpiEnv HAL_OK ([x41; x00] ++ repeat x00 126) None);
              UartPass (mkUartEnv HAL_OK None);
              SpiPass (mkSpiEnv HAL_OK ([x42; x00] ++ repeat x00 126)
                         (Some Completed))]
           initial_state).

(** A transaction that starts and never signals its end; one byte ['C']
    reached the receive buffer. *)
Definition silent_spi : spi_env := mkSpiEnv HAL_OK [x43] None.

Definition silent_uart : uart_env := mkUartEnv HAL_OK None.

Definition busy_spi : spi_env := mkSpiEnv HAL_BUSY [] None.

Definition busy_uart : uart_env := mkUartEnv HAL_BUSY None.

(** Passes of both tasks and notifications interleaved; the second SPI
    transaction is one byte long because one UART byte is pending. *)
Definition mixed_run : list action :=
  [SpiPass (mkSpiEnv HAL_OK ([x00; x41; x00; x00; x42; x43] ++ repeat x00 122)
              None);
   IrqSpiTxRxComplete;
   IrqUartRxComplete x61 HAL_OK;
   UartPass (mkUartEnv HAL_OK (Some Completed));
   SpiPass (mkSpiEnv HAL_OK ([x44; x00; x00; x45] ++ repeat x00 124) None);
   SpiPass (mkSpiEnv HAL_OK (repeat x00 128) None)].

(** ** Notions used by the further properties *)

(** The bytes handed to [HAL_UART_Transmit_DMA], in order. *)
Fixpoint uart_offered (tr : list event) : list byte :=
  match tr with
  | [] => []
  | EvUartTransmit data _ _ :: tr' => data ++ uart_offered tr'
  | _ :: tr' => uart_offered tr'
  end.

(** The bytes the receive-complete callback hands to the UART-to-SPI
    stream, in order. *)
Fixpoint uart_received (tr : list event) : list byte :=
  match tr with
  | [] => []
  | EvUartRxSend c :: tr' => c :: uart_received tr'
  | _ :: tr' => uart_received tr'
  end.

(** Requests made of the SPI peripheral and of the SPI-to-UART stream by
    [spi_task]. *)
Definition is_spi_event (ev : event) : bool :=
  match ev with
  | EvSpiTransmitReceive _ _ _ | EvSpiAcquire _ | EvSpiAbort
  | EvSpiRxSend _ => true
  | _ => false
  end.

(** Requests made of the UART peripheral by [uart_task]. *)
Definition is_uart_tx_event (ev : event) : bool :=
  match ev with
  | EvUartTransmit _ _ _ | EvUartAcquire _ | EvUartAbortTransmit => true
  | _ => false
  end.

(** Requests made by the UART receive-complete callback. *)
Definition is_uart_rx_event (ev : event) : bool :=
  match ev with
  | EvUartRxSend _ | EvUartReceiveIT _ => true
  | _ => false
  end.

(** Every pass of [spi_task] in the run receives nothing but zero bytes. *)
Definition only_filler_received (acts : list action) : Prop :=
  Forall (fun a => match a with
                   | SpiPass e => Forall (fun c => c = x00) (spi_rx_data e)
                   | _ => True
                   end) acts.

(** A stream of messages: before each message a number of filler bytes,
    after each message its terminator. *)
Fixpoint framed_stream (msgs : list (nat * list byte)) : list byte :=
  match msgs with
  | [] => []
  | (gap, msg) :: msgs' =>
      repeat x00 gap ++ (msg ++ [x00]) ++ framed_stream msgs'
  end.

(** The messages of that stream, each with its terminator and nothing in
    between. *)
Fixpoint framed_messages (msgs : list (nat * list byte)) : list byte :=
  match msgs with
  | [] => []
  | (_, msg) :: msgs' => (msg ++ [x00]) ++ framed_messages msgs'
  end.

(** Messages are non-empty and made of non-zero bytes. *)
Definition proper_messages (msgs : list (nat * list byte)) : Prop :=
  Forall (fun gm => snd gm <> [] /\ Forall (fun c => c <> x00) (snd gm)) msgs.

(** The three static buffers have the size they are declared with. *)
Definition buffers_sized (s : state) : Prop :=
  length (chunk_buff s) = 128
  /\ length (chunk_buff_tx s) = 128
  /\ length (chunk_buff_rx s) = 128.

(** A transfer request stays inside a 128-byte buffer: its length is
    between 1 and 128 and is the number of bytes handed over. *)
Definition within_chunk (ev : event) : Prop :=
  match ev with
  | EvSpiTransmitReceive data len _ | EvUartTransmit data len _ =>
      1 <= len <= 128 /\ length data = len
  | _ => True
  end.

(** A burst of UART receive interrupts: the bytes received, each with
    the answer of the HAL to the re-arming of the reception. *)
Definition uart_rx_burst (rxs : list (byte * HAL_StatusTypeDef))
  : list action :=
  map (fun p => IrqUartRxComplete (fst p) (snd p)) rxs.

(** The bytes the passes of [spi_task] take out of the UART-to-SPI stream
    in a run, in order: the payload of the SPI transactions, without the
    filler sent when nothing is pending. *)
Fixpoint spi_taken (acts : list action) (s : state) : list byte :=
  match acts with
  | [] => []
  | a :: acts' =>
      match a with
      | SpiPass _ => spi_consumed s
      | _ => []
      end ++ spi_taken acts' (final (perform a s))
  end.

(** The callbacks the HAL accepted, in the order of the calls. *)
Definition accepted_callbacks (e : Start.env) : list Start.callback_id :=
  (if HAL_is_ok (Start.reg_uart_tx_complete e)
   then [Start.HAL_UART_TX_COMPLETE_CB_ID] else [])
  ++ (if HAL_is_ok (Start.reg_uart_rx_complete e)
      then [Start.HAL_UART_RX_COMPLETE_CB_ID] else [])
  ++ (if HAL_is_ok (Start.reg_uart_error e)
      then [Start.HAL_UART_ERROR_CB_ID] else [])
  ++ (if HAL_is_ok (Start.reg_spi_tx_rx_complete e)
      then [Start.HAL_SPI_TX_RX_COMPLETE_CB_ID] else [])
  ++ (if HAL_is_ok (Start.reg_spi_error e)
      then [Start.HAL_SPI_ERROR_CB_ID] else []).

(** The file-scope variables when [uart_spi_start] has run to its last
    statement: every object the kernel granted, NULL for the others. *)
Definition vars_after (e : Start.env) (hu hs : Start.handle) : Start.vars :=
  Start.mkVars hu hs
    (Start.alloc (Start.uart_task_created e) Start.UartTask)
    (Start.alloc (Start.spi_task_created e) Start.SpiTask)
    (Start.alloc (Start.uart_rx_stream_created e)
       (StreamBuffer.xStreamBufferCreate 1024 1))
    (Start.alloc (Start.spi_rx_stream_created e)
       (StreamBuffer.xStreamBufferCreate 1024 1))
    (Start.alloc (Start.uart_tx_sema_created e)
       (Semaphore.osSemaphoreNew 1 1))
    (Start.alloc (Start.spi_tx_rx_sema_created e)
       (Semaphore.osSemaphoreNew 1 1))
    (accepted_callbacks e).

(** app.c, [static int app_init(void)]: the start of the module on
    [huart1] and [hspi1]; the result is handed back. *)
Definition app_init (ndebug : bool) (e : Start.env) : Start.Cmd Z :=
  Start.sbind (Start.uart_spi_start ndebug e Start.app_params)
    (fun result => Start.sret result).

(** app.c, [void app_task(void *argument)]: [app_init()], its result
    dropped, then [for (;;) osDelay(1000)], here for [cycles] turns; the
    value is the list of delays asked of the kernel. *)
Definition app_task (ndebug : bool) (e : Start.env) (cycles : nat)
  : Start.Cmd (list nat) :=
  Start.sbind (app_init ndebug e)
    (fun _ => Start.sret (repeat 1000 cycles)).

(** Concrete inputs for the further properties. *)

(** A full chunk carrying filler, "A", filler, "BC" and filler. *)
Definition two_messages_spi : spi_env :=
  mkSpiEnv HAL_OK ([x00; x41; x00; x00; x42; x43] ++ repeat x00 122) None.

(** A state whose receive buffer holds that chunk. *)
Definition upstream : state :=
  set_chunk_buff_rx ([x00; x41; x00; x00; x42; x43] ++ repeat x00 122)
    initial_state.

(** A state whose receive buffer holds what the filter makes of it. *)
Definition downstream : state :=
  set_chunk_buff_rx ([x41; x00; x42; x43; x00] ++ repeat x00 123)
    initial_state.

(** A state whose receive buffer starts like [upstream] and then holds
    old data. *)
Definition upstream_stale : state :=
  set_chunk_buff_rx ([x00; x41; x00] ++ repeat x44 125) initial_state.

(** An idle link: transactions that receive filler only, a UART byte in
    between. *)
Definition idle_run : list action :=
  [SpiPass (mkSpiEnv HAL_OK (repeat x00 128) None);
   IrqUartRxComplete x61 HAL_OK;
   SpiPass (mkSpiEnv HAL_OK [x00] (Some Completed));
   IrqSpiError;
   SpiPass (mkSpiEnv HAL_BUSY [] None)].

(** Two messages, "AB" after three filler bytes and "C" after two. *)
Definition two_messages : list (nat * list byte) :=
  [(3, [x41; x42]); (2, [x43])].

Definition two_messages_script : list spi_env :=
  [mkSpiEnv HAL_OK
     ([x00; x00; x00; x41; x42; x00; x00; x00; x43; x00] ++ repeat x00 118)
     None].

(** * Properties *)

(** ** Basic facts about bytes and buffers *)

Lemma nonzero_false_iff (c : byte) : nonzero c = false <-> c = x00.
Proof.
  unfold nonzero. split; intro H.
  - apply Byte.byte_dec_bl. now destruct (Byte.eqb c x00).
  - subst c. reflexivity.
Qed.

Lemma nonzero_true_iff (c : byte) : nonzero c = true <-> c <> x00.
Proof.
  split; intro H.
  - intro E. apply nonzero_false_iff in E. congruence.
  - destruct (nonzero c) eqn:E; [reflexivity|].
    apply nonzero_false_iff in E. contradiction.
Qed.

Lemma firstn_write_prefix (data buf : list byte) :
  firstn (length data) (write_prefix data buf) = data.
Proof.
  unfold write_prefix.
  rewrite firstn_app, Nat.sub_diag, firstn_all. simpl. apply app_nil_r.
Qed.

Lemma firstn_memset (buf : list byte) (c : byte) (n : nat) :
  firstn n (memset buf c n) = repeat c n.
Proof.
  unfold memset.
  rewrite firstn_app, repeat_length, Nat.sub_diag.
  rewrite <- (repeat_length c n) at 1. rewrite firstn_all.
  simpl. apply app_nil_r.
Qed.

Lemma length_write_prefix (data buf : list byte) :
  length data <= length buf ->
  length (write_prefix data buf) = length buf.
Proof.
  intro H. unfold write_prefix. rewrite length_app, length_skipn. lia.
Qed.

Lemma length_memset (buf : list byte) (c : byte) (n : nat) :
  n <= length buf -> length (memset buf c n) = length buf.
Proof.
  intro H. unfold memset. rewrite length_app, repeat_length, length_skipn. lia.
Qed.

Lemma map_nth_seq (l : list byte) (n : nat) :
  n <= length l ->
  map (fun i => nth i l x00) (seq 0 n) = firstn n l.
Proof.
  revert l. induction n as [|n IH]; intros l H; [reflexivity|].
  destruct l as [|a l]; [simpl in H; lia|].
  simpl in *. f_equal. rewrite <- seq_shift, map_map.
  apply IH. lia.
Qed.

Lemma rx_bytes_firstn (s : state) (n : nat) :
  n <= length (chunk_buff_rx s) ->
  rx_bytes s n = firstn n (chunk_buff_rx s).
Proof. apply map_nth_seq. Qed.

(** ** The stream buffer *)

Lemma send_each_bulk (out : list byte) : forall sb,
  send_each sb out = fst (StreamBuffer.xStreamBufferSend sb out).
Proof.
  induction out as [|c out IH]; intro sb.
  - destruct sb as [cap st]. unfold StreamBuffer.xStreamBufferSend. simpl.
    now rewrite firstn_nil, app_nil_r.
  - unfold send_each in *. simpl fold_left. rewrite IH.
    destruct sb as [cap st].
    unfold StreamBuffer.xStreamBufferSend, StreamBuffer.spaces. simpl.
    f_equal.
    destruct (cap - length st) as [|k] eqn:E.
    + simpl. rewrite app_nil_r.
      replace (cap - length st) with 0 by lia. simpl. now rewrite app_nil_r.
    + cbn [firstn]. rewrite firstn_nil, <- app_assoc, length_app.
      cbn [length app].
      replace (cap - (length st + 1)) with k by lia. reflexivity.
Qed.

Lemma send_each_app (a b : list byte) (sb : StreamBuffer.t) :
  send_each sb (a ++ b) = send_each (send_each sb a) b.
Proof. unfold send_each. apply fold_left_app. Qed.

Lemma send_each_fits (sb : StreamBuffer.t) (out : list byte) :
  length out <= StreamBuffer.spaces sb ->
  send_each sb out
  = StreamBuffer.mk (StreamBuffer.capacity sb) (StreamBuffer.stored sb ++ out).
Proof.
  intro H. rewrite send_each_bulk. unfold StreamBuffer.xStreamBufferSend.
  simpl. now rewrite firstn_all2.
Qed.

(** ** The framing filter *)

Lemma framing_filter_app (a b : list byte) : forall inside,
  FramingSpec.framing_filter inside (a ++ b)
  = (FramingSpec.inside_after (FramingSpec.inside_after inside a) b,
     FramingSpec.output inside a
     ++ FramingSpec.output (FramingSpec.inside_after inside a) b).
Proof.
  unfold FramingSpec.inside_after, FramingSpec.output.
  induction a as [|c a IH]; intro inside; simpl.
  - now destruct (FramingSpec.framing_filter inside b).
  - rewrite IH. simpl. now rewrite app_assoc.
Qed.

Lemma inside_after_app (a b : list byte) (inside : bool) :
  FramingSpec.inside_after inside (a ++ b)
  = FramingSpec.inside_after (FramingSpec.inside_after inside a) b.
Proof.
  unfold FramingSpec.inside_after at 1. now rewrite framing_filter_app.
Qed.

Lemma output_app (a b : list byte) (inside : bool) :
  FramingSpec.output inside (a ++ b)
  = FramingSpec.output inside a
    ++ FramingSpec.output (FramingSpec.inside_after inside a) b.
Proof.
  unfold FramingSpec.output at 1. now rewrite framing_filter_app.
Qed.

Lemma filtered_nil (s : state) : filtered s [] = s.
Proof. now destruct s. Qed.

Lemma filtered_app (s : state) (a b : list byte) :
  filtered s (a ++ b) = filtered (filtered s a) b.
Proof.
  unfold filtered. destruct s; simpl.
  rewrite inside_after_app, output_app, send_each_app. reflexivity.
Qed.

(** One pass of the loop body does what [filter_step] says. *)
Lemma scan_byte_filtered (q : nat) (s : state) :
  let c := nth q (chunk_buff_rx s) x00 in
  scan_byte q s
  = (tt, filtered s [c],
     map EvSpiRxSend (FramingSpec.output (message_receiving s) [c])).
Proof.
  destruct s as [urx srx usem ssem b cb cbt cbr mr].
  unfold scan_byte, filtered, FramingSpec.inside_after, FramingSpec.output,
    bind, gets, modify, emit, ret, spi_rx_send.
  simpl. unfold FramingSpec.filter_step.
  destruct (nonzero (nth q cbr x00)); destruct mr; reflexivity.
Qed.

Lemma rx_bytes_from_filtered (s : state) (rx : list byte) (q n : nat) :
  rx_bytes_from (filtered s rx) q n = rx_bytes_from s q n.
Proof. reflexivity. Qed.

Lemma message_receiving_filtered (s : state) (rx : list byte) :
  message_receiving (filtered s rx)
  = FramingSpec.inside_after (message_receiving s) rx.
Proof. reflexivity. Qed.

Lemma scan_from_filtered (n : nat) : forall (q : nat) (s : state),
  scan_from n q s
  = (tt, filtered s (rx_bytes_from s q n),
     map EvSpiRxSend
       (FramingSpec.output (message_receiving s) (rx_bytes_from s q n))).
Proof.
  induction n as [|n IH]; intros q s.
  - simpl. unfold ret. now rewrite filtered_nil.
  - cbn [scan_from]. unfold bind at 1.
    rewrite scan_byte_filtered. cbn [fst snd].
    rewrite IH.
    rewrite rx_bytes_from_filtered, message_receiving_filtered.
    change (rx_bytes_from s q (S n))
      with ([nth q (chunk_buff_rx s) x00] ++ rx_bytes_from s (S q) n).
    rewrite filtered_app, output_app, map_app. reflexivity.
Qed.

(** ** Stepping through a task body *)

Lemma bind_gets {A B} (f : state -> A) (k : A -> M B) (s : state) :
  bind (gets f) k s = k (f s) s.
Proof.
  unfold bind, gets. destruct (k (f s) s) as [[b s2] t2]. reflexivity.
Qed.

Lemma bind_modify {B} (f : state -> state) (k : unit -> M B) (s : state) :
  bind (modify f) k s = k tt (f s).
Proof.
  unfold bind, modify. destruct (k tt (f s)) as [[b s2] t2]. reflexivity.
Qed.

Lemma bind_ret {A B} (a : A) (k : A -> M B) (s : state) :
  bind (ret a) k s = k a s.
Proof.
  unfold bind, ret. destruct (k a s) as [[b s2] t2]. reflexivity.
Qed.

Lemma bind_emit {B} (e : event) (k : unit -> M B) (s : state) :
  bind (emit e) k s
  = (value (k tt s), final (k tt s), e :: trace (k tt s)).
Proof.
  unfold bind, emit, value, final, trace.
  destruct (k tt s) as [[b s2] t2]. reflexivity.
Qed.

Lemma bind_run {A B} (m : M A) (k : A -> M B) (s : state) :
  bind m k s
  = (value (k (value (m s)) (final (m s))),
     final (k (value (m s)) (final (m s))),
     trace (m s) ++ trace (k (value (m s)) (final (m s)))).
Proof.
  unfold bind, value, final, trace.
  destruct (m s) as [[a s1] t1]. cbn [fst snd].
  destruct (k a s1) as [[b s2] t2]. reflexivity.
Qed.

Lemma final_triple {A} (a : A) (s : state) (t : list event) :
  final (a, s, t) = s.
Proof. reflexivity. Qed.

Lemma trace_triple {A} (a : A) (s : state) (t : list event) :
  trace (a, s, t) = t.
Proof. reflexivity. Qed.

Lemma value_triple {A} (a : A) (s : state) (t : list event) :
  value (a, s, t) = a.
Proof. reflexivity. Qed.

Ltac project := rewrite ?final_triple, ?trace_triple, ?value_triple.

Lemma bind_assoc {A B C} (m : M A) (k : A -> M B) (k' : B -> M C)
    (s : state) :
  bind (bind m k) k' s = bind m (fun a => bind (k a) k') s.
Proof.
  unfold bind. destruct (m s) as [[a s1] t1].
  destruct (k a s1) as [[b s2] t2]. destruct (k' b s2) as [[c s3] t3].
  now rewrite app_assoc.
Qed.

Ltac step :=
  repeat (first [ rewrite bind_gets | rewrite bind_modify
                | rewrite bind_ret | rewrite bind_emit
                | rewrite bind_assoc ];
          cbv beta).
Lemma forwarded_sends (out : list byte) :
  forwarded (map EvSpiRxSend out) = out.
Proof. induction out as [|c out IH]; simpl; congruence. Qed.

Lemma forwarded_app (a b : list event) :
  forwarded (a ++ b) = forwarded a ++ forwarded b.
Proof.
  induction a as [|e a IH]; [reflexivity|].
  destruct e; simpl; rewrite ?IH; reflexivity.
Qed.

(** ** Closed form of one pass of [spi_task] *)

Lemma status_code_zero (ok : bool) : is_zero (status_code ok) = ok.
Proof. now destruct ok. Qed.

Lemma spi_tx_rx_run (e : spi_env) (length : nat) (s : state) :
  spi_tx_rx e length s
  = (status_code (HAL_is_ok (spi_start_status e)),
     (if HAL_is_ok (spi_start_status e)
      then set_chunk_buff_rx
             (write_prefix (firstn length (spi_rx_data e)) (chunk_buff_rx s))
             s
      else s),
     [EvSpiTransmitReceive (firstn length (chunk_buff_tx s)) length
        (spi_start_status e)]).
Proof.
  unfold spi_tx_rx. step.
  destruct (HAL_is_ok (spi_start_status e)); step; reflexivity.
Qed.

Lemma spi_wait_ready_run (timeout_ms : nat) (e : spi_env) (s : state) :
  let w := osSemaphoreAcquire spi_tx_rx_sema set_spi_tx_rx_sema spi_notify
             (spi_wake e) s in
  spi_wait_ready timeout_ms e s
  = (status_code (os_is_ok (value w)), final w,
     trace w ++ [EvSpiAcquire (value w)]).
Proof.
  cbv zeta. unfold spi_wait_ready. rewrite bind_run. step. reflexivity.
Qed.

Lemma spi_iteration_loaded (e : spi_env) (s : state) :
  spi_task_iteration e s
  = bind (spi_tx_rx e (spi_length s))
      (fun rc =>
         if negb (is_zero rc) then ret tt
         else
           bind (spi_wait_ready 100 e)
             (fun rc' =>
                bind (if negb (is_zero rc') then spi_abort else ret tt)
                  (fun _ => scan_rx (spi_length s))))
      (spi_loaded s).
Proof.
  unfold spi_task_iteration. step.
  unfold spi_length, spi_loaded, spi_consumed.
  destruct (length (snd (StreamBuffer.xStreamBufferReceive
                           (uart_rx_stream s) CHUNK_BUFF_SIZE)) =? 0).
  - step. destruct s; reflexivity.
  - step. destruct s; reflexivity.
Qed.

Lemma spi_iteration_rejected (e : spi_env) (s : state) :
  HAL_is_ok (spi_start_status e) = false ->
  spi_task_iteration e s = (tt, spi_loaded s, [spi_start_event e s]).
Proof.
  intro H. rewrite spi_iteration_loaded, bind_run, spi_tx_rx_run, H.
  unfold value, final, trace, ret, spi_start_event. cbn [fst snd].
  reflexivity.
Qed.

Lemma spi_iteration_started (e : spi_env) (s : state) :
  HAL_is_ok (spi_start_status e) = true ->
  let w := spi_waited e s in
  let rx := rx_bytes (final w) (spi_length s) in
  spi_task_iteration e s
  = (tt, filtered (final w) rx,
     spi_start_event e s :: trace w ++ EvSpiAcquire (value w)
     :: (if os_is_ok (value w) then [] else [EvSpiAbort])
     ++ map EvSpiRxSend
          (FramingSpec.output (message_receiving (final w)) rx)).
Proof.
  intro H. cbv zeta.
  rewrite spi_iteration_loaded. unfold bind at 1.
  rewrite spi_tx_rx_run, H. cbv beta iota.
  change (status_code true) with 0%Z. cbn [is_zero Z.eqb negb].
  unfold bind at 1. rewrite spi_wait_ready_run.
  change (osSemaphoreAcquire spi_tx_rx_sema set_spi_tx_rx_sema spi_notify
            (spi_wake e) _) with (spi_waited e s).
  unfold spi_start_event, scan_rx, rx_bytes.
  destruct (spi_waited e s) as [[v s'] t].
  unfold value, final, trace. cbn [fst snd]. rewrite status_code_zero.
  unfold bind.
  destruct (os_is_ok v); cbn [negb spi_abort emit ret];
    rewrite scan_from_filtered; cbn [app];
    rewrite <- app_assoc; reflexivity.
Qed.
(** ** The completion signals *)

(** The wait touches nothing but the SPI semaphore and asks nothing of the
    peripherals. *)
Lemma spi_acquire_frame (wake : option notification) (s : state) :
  let w := osSemaphoreAcquire spi_tx_rx_sema set_spi_tx_rx_sema spi_notify
             wake s in
  trace w = [] /\ final w = set_spi_tx_rx_sema (spi_tx_rx_sema (final w)) s.
Proof.
  destruct s as [urx srx usem ssem b cb cbt cbr mr].
  unfold osSemaphoreAcquire, bind, gets, modify, ret, final, trace.
  cbn [fst snd spi_tx_rx_sema].
  destruct (Semaphore.try_acquire ssem) as [sem'|]; [split; reflexivity|].
  destruct wake as [n|]; [|split; reflexivity].
  destruct n; unfold spi_notify, spi_tx_rx_complete_callback,
    spi_error_callback, release_sema, bind, gets, modify;
    cbn [fst snd spi_tx_rx_sema set_spi_tx_rx_sema];
    destruct (Semaphore.try_acquire _); split; reflexivity.
Qed.

Lemma uart_acquire_frame (wake : option notification) (s : state) :
  let w := osSemaphoreAcquire uart_tx_sema set_uart_tx_sema uart_notify
             wake s in
  trace w = [] /\ final w = set_uart_tx_sema (uart_tx_sema (final w)) s.
Proof.
  destruct s as [urx srx usem ssem b cb cbt cbr mr].
  unfold osSemaphoreAcquire, bind, gets, modify, ret, final, trace.
  cbn [fst snd uart_tx_sema].
  destruct (Semaphore.try_acquire usem) as [sem'|]; [split; reflexivity|].
  destruct wake as [n|]; [|split; reflexivity].
  destruct n; unfold uart_notify, uart_tx_complete_callback,
    uart_error_callback, release_sema, bind, gets, modify;
    cbn [fst snd uart_tx_sema set_uart_tx_sema];
    destruct (Semaphore.try_acquire _); split; reflexivity.
Qed.

(** No token and no notification in time: the wait times out and changes
    nothing. *)
Lemma acquire_timeout (get : state -> Semaphore.t)
    (set : Semaphore.t -> state -> state) (notify : notification -> M unit)
    (s : state) :
  Semaphore.count (get s) = 0 ->
  osSemaphoreAcquire get set notify None s = (osErrorTimeout, s, []).
Proof.
  intro H. unfold osSemaphoreAcquire, bind, gets, ret. cbn [fst snd].
  unfold Semaphore.try_acquire. now rewrite H.
Qed.

(** A token is there: the wait returns at once with it. *)
Lemma acquire_available (get : state -> Semaphore.t)
    (set : Semaphore.t -> state -> state) (notify : notification -> M unit)
    (wake : option notification) (s : state) (n : nat) :
  Semaphore.count (get s) = S n ->
  osSemaphoreAcquire get set notify wake s
  = (osOK, set (Semaphore.mk (Semaphore.max_count (get s)) n) s, []).
Proof.
  intro H. unfold osSemaphoreAcquire, bind, gets, modify, ret.
  cbn [fst snd]. unfold Semaphore.try_acquire. now rewrite H.
Qed.

Lemma spi_waited_frame (e : spi_env) (s : state) :
  trace (spi_waited e s) = []
  /\ final (spi_waited e s)
     = set_spi_tx_rx_sema (spi_tx_rx_sema (final (spi_waited e s)))
         (spi_received e s).
Proof. apply spi_acquire_frame. Qed.

Lemma spi_waited_message_receiving (e : spi_env) (s : state) :
  message_receiving (final (spi_waited e s)) = message_receiving s.
Proof.
  destruct (spi_waited_frame e s) as [_ ->]. now destruct s.
Qed.

Lemma spi_waited_chunk_buff_rx (e : spi_env) (s : state) :
  chunk_buff_rx (final (spi_waited e s))
  = write_prefix (firstn (spi_length s) (spi_rx_data e)) (chunk_buff_rx s).
Proof.
  destruct (spi_waited_frame e s) as [_ ->]. now destruct s.
Qed.

Lemma spi_waited_spi_rx_stream (e : spi_env) (s : state) :
  spi_rx_stream (final (spi_waited e s)) = spi_rx_stream s.
Proof.
  destruct (spi_waited_frame e s) as [_ ->]. now destruct s.
Qed.

Lemma spi_waited_uart_rx_stream (e : spi_env) (s : state) :
  uart_rx_stream (final (spi_waited e s))
  = fst (StreamBuffer.xStreamBufferReceive (uart_rx_stream s)
           CHUNK_BUFF_SIZE).
Proof.
  destruct (spi_waited_frame e s) as [_ ->]. now destruct s.
Qed.

(** ** What a run of [spi_task] scans and forwards *)

Lemma spi_iteration_forwarded (e : spi_env) (s : state) :
  forwarded (trace (spi_task_iteration e s))
  = FramingSpec.output (message_receiving s) (spi_pass_scanned e s)
  /\ message_receiving (final (spi_task_iteration e s))
     = FramingSpec.inside_after (message_receiving s) (spi_pass_scanned e s)
  /\ spi_rx_stream (final (spi_task_iteration e s))
     = send_each (spi_rx_stream s)
         (FramingSpec.output (message_receiving s) (spi_pass_scanned e s)).
Proof.
  unfold spi_pass_scanned.
  destruct (HAL_is_ok (spi_start_status e)) eqn:H.
  - rewrite (spi_iteration_started e s H). project.
    destruct (spi_waited_frame e s) as [-> _]. cbn [app forwarded].
    rewrite forwarded_app, forwarded_sends.
    rewrite message_receiving_filtered, spi_waited_message_receiving.
    repeat split.
    + now destruct (os_is_ok (value (spi_waited e s))).
    + unfold filtered. cbn [spi_rx_stream set_message_receiving
        set_spi_rx_stream].
      now rewrite spi_waited_spi_rx_stream, spi_waited_message_receiving.
  - rewrite (spi_iteration_rejected e s H). project.
    unfold spi_start_event. cbn [forwarded].
    unfold spi_loaded. repeat split; now destruct s.
Qed.

Lemma spi_task_loop_forwarded (script : list spi_env) : forall s : state,
  forwarded (trace (spi_task_loop script s))
  = FramingSpec.output (message_receiving s) (spi_scanned script s)
  /\ message_receiving (final (spi_task_loop script s))
     = FramingSpec.inside_after (message_receiving s) (spi_scanned script s)
  /\ spi_rx_stream (final (spi_task_loop script s))
     = send_each (spi_rx_stream s)
         (FramingSpec.output (message_receiving s) (spi_scanned script s)).
Proof.
  induction script as [|e script IH]; intro s.
  - cbn. repeat split.
  - cbn [spi_task_loop spi_scanned]. rewrite bind_run. project.
    destruct (spi_iteration_forwarded e s) as (Hf & Hm & Hs).
    destruct (IH (final (spi_task_iteration e s))) as (IHf & IHm & IHs).
    rewrite forwarded_app, Hf, IHf, IHm, IHs, Hm, Hs.
    rewrite output_app, inside_after_app, send_each_app.
    repeat split.
Qed.

(** ** The framing filter of the receive loop *)

(** The three cases of the filter on a single byte, read off the loop
    body itself. *)
Lemma scan_byte_cases (q : nat) (s : state) :
  let c := nth q (chunk_buff_rx s) x00 in
  let r := scan_byte q s in
  match nonzero c, message_receiving s with
  | true, _ =>
      forwarded (trace r) = [c] /\ message_receiving (final r) = true
  | false, true =>
      forwarded (trace r) = [c] /\ message_receiving (final r) = false
  | false, false => trace r = [] /\ final r = s
  end.
Proof.
  cbv zeta. rewrite scan_byte_filtered. unfold final, trace. cbn [fst snd].
  rewrite forwarded_sends.
  unfold filtered, FramingSpec.output, FramingSpec.inside_after.
  cbn [FramingSpec.framing_filter]. unfold FramingSpec.filter_step.
  destruct (nonzero (nth q (chunk_buff_rx s) x00));
    destruct s as [urx srx usem ssem b cb cbt cbr []];
    cbn; split; reflexivity.
Qed.

(** C1. For every receive buffer, every scanned length and every value of
    the [message_receiving] flag, the loop over [chunk_buff_rx] handles the
    bytes left to right as the framing filter prescribes: a non-zero byte
    is sent to the SPI-to-UART stream and the flag is set; a zero byte is
    sent and the flag cleared exactly when the flag is set; a zero byte is
    dropped when the flag is clear.  The sends, the flag and the stream
    after the loop are those of [FramingSpec.framing_filter], and nothing
    else in the state changes. *)
Theorem scan_rx_is_framing_filter :
  forall (s : state) (length : nat),
    let inside := message_receiving s in
    let rx := rx_bytes s length in
    let r := scan_rx length s in
    trace r = map EvSpiRxSend (FramingSpec.output inside rx)
    /\ forwarded (trace r) = snd (FramingSpec.framing_filter inside rx)
    /\ message_receiving (final r)
       = fst (FramingSpec.framing_filter inside rx)
    /\ spi_rx_stream (final r)
       = send_each (spi_rx_stream s) (FramingSpec.output inside rx)
    /\ final r
       = set_message_receiving (message_receiving (final r))
           (set_spi_rx_stream (spi_rx_stream (final r)) s)
    /\ (forall q : nat,
          let c := nth q (chunk_buff_rx s) x00 in
          let b := scan_byte q s in
          match nonzero c, message_receiving s with
          | true, _ =>
              forwarded (trace b) = [c] /\ message_receiving (final b) = true
          | false, true =>
              forwarded (trace b) = [c] /\ message_receiving (final b) = false
          | false, false => trace b = [] /\ final b = s
          end).
Proof.
  intros s len. cbv zeta. unfold scan_rx, rx_bytes.
  rewrite scan_from_filtered. project.
  rewrite forwarded_sends. repeat split.
  intro q. apply scan_byte_cases.
Qed.

(** ** What one pass of [spi_task] transmits *)

Lemma spi_start_event_txd (e : spi_env) (s : state) :
  spi_start_event e s
  = EvSpiTransmitReceive
      (match spi_consumed s with
       | [] => repeat x00 CHUNK_BUFF_SIZE
       | _ :: _ => spi_consumed s
       end)
      (match spi_consumed s with
       | [] => CHUNK_BUFF_SIZE
       | _ :: _ => length (spi_consumed s)
       end)
      (spi_start_status e).
Proof.
  unfold spi_start_event, spi_length, spi_loaded.
  destruct s as [urx srx usem ssem b cb cbt cbr mr].
  cbn [chunk_buff_tx set_chunk_buff_tx set_uart_rx_stream].
  destruct (spi_consumed _) as [|c l] eqn:E.
  - cbn [length Nat.eqb]. now rewrite firstn_memset.
  - cbn [length Nat.eqb]. change (S (length l)) with (length (c :: l)).
    now rewrite firstn_write_prefix.
Qed.

Lemma spi_iteration_first_event (e : spi_env) (s : state) :
  hd_error (trace (spi_task_iteration e s)) = Some (spi_start_event e s).
Proof.
  destruct (HAL_is_ok (spi_start_status e)) eqn:H.
  - now rewrite (spi_iteration_started e s H).
  - now rewrite (spi_iteration_rejected e s H).
Qed.

Lemma spi_iteration_uart_rx_stream (e : spi_env) (s : state) :
  uart_rx_stream (final (spi_task_iteration e s))
  = fst (StreamBuffer.xStreamBufferReceive (uart_rx_stream s)
           CHUNK_BUFF_SIZE).
Proof.
  destruct (HAL_is_ok (spi_start_status e)) eqn:H.
  - rewrite (spi_iteration_started e s H). project.
    unfold filtered. cbn [uart_rx_stream set_message_receiving
      set_spi_rx_stream]. apply spi_waited_uart_rx_stream.
  - rewrite (spi_iteration_rejected e s H). project.
    unfold spi_loaded. now destruct s.
Qed.

(** C4. In every pass of the [spi_task] loop the transaction that is
    started carries, when the non-blocking receive from the UART-to-SPI
    stream took nothing, a full buffer of 128 zero bytes, and otherwise
    exactly the [n] bytes taken, unmodified, with length [n]; the bytes
    taken have left the stream. *)
Theorem spi_pass_transmits_consumed_or_filler :
  forall (e : spi_env) (s : state),
    let consumed :=
      snd (StreamBuffer.xStreamBufferReceive (uart_rx_stream s)
             CHUNK_BUFF_SIZE) in
    let r := spi_task_iteration e s in
    hd_error (trace r)
    = Some (match consumed with
            | [] => EvSpiTransmitReceive (repeat x00 128) 128
                      (spi_start_status e)
            | _ :: _ => EvSpiTransmitReceive consumed (length consumed)
                          (spi_start_status e)
            end)
    /\ consumed = firstn 128 (StreamBuffer.stored (uart_rx_stream s))
    /\ StreamBuffer.stored (uart_rx_stream (final r))
       = skipn 128 (StreamBuffer.stored (uart_rx_stream s))
    /\ length (filter (fun ev => match ev with
                                 | EvSpiTransmitReceive _ _ _ => true
                                 | _ => false
                                 end) (trace r)) = 1.
Proof.
  intros e s. cbv zeta.
  rewrite spi_iteration_first_event, spi_start_event_txd,
    spi_iteration_uart_rx_stream.
  fold (spi_consumed s). split; [|split; [|split]].
  - now destruct (spi_consumed s).
  - reflexivity.
  - reflexivity.
  - destruct (HAL_is_ok (spi_start_status e)) eqn:H.
    + rewrite (spi_iteration_started e s H). project.
      cbn [snd]. rewrite spi_start_event_txd.
      destruct (spi_waited_frame e s) as [-> _]. cbn [app filter length].
      f_equal.
      destruct (os_is_ok (value (spi_waited e s))); cbn [app filter length];
        induction (FramingSpec.output _ _) as [|c l IH]; cbn; auto.
    + rewrite (spi_iteration_rejected e s H). project.
      now rewrite spi_start_event_txd.
Qed.

(** ** Closed form of one pass of [uart_task] *)

Lemma uart_tx_async_run (e : uart_env) (length : nat) (s : state) :
  uart_tx_async e length s
  = (status_code (HAL_is_ok (uart_start_status e)), s,
     [EvUartTransmit (firstn length (chunk_buff s)) length
        (uart_start_status e)]).
Proof. unfold uart_tx_async. step. reflexivity. Qed.

Lemma uart_wait_tx_ready_run (timeout_ms : nat) (e : uart_env) (s : state) :
  let w := osSemaphoreAcquire uart_tx_sema set_uart_tx_sema uart_notify
             (uart_wake e) s in
  uart_wait_tx_ready timeout_ms e s
  = (status_code (os_is_ok (value w)), final w,
     trace w ++ [EvUartAcquire (value w)]).
Proof.
  cbv zeta. unfold uart_wait_tx_ready. rewrite bind_run. step. reflexivity.
Qed.

Lemma uart_body_loaded (e : uart_env) (s : state) :
  uart_task_body e s
  = (if 0 <? length (uart_consumed s) then
       bind (uart_tx_async e (length (uart_consumed s)))
         (fun rc =>
            if negb (is_zero rc) then ret tt
            else
              bind (uart_wait_tx_ready 100 e)
                (fun rc' =>
                   if negb (is_zero rc') then uart_tx_abort else ret tt))
     else ret tt) (uart_loaded s).
Proof.
  unfold uart_task_body. step. unfold uart_loaded, uart_consumed.
  destruct s; reflexivity.
Qed.

Lemma chunk_buff_uart_loaded (s : state) :
  firstn (length (uart_consumed s)) (chunk_buff (uart_loaded s))
  = uart_consumed s.
Proof.
  unfold uart_loaded. destruct s. cbn [chunk_buff set_chunk_buff].
  apply firstn_write_prefix.
Qed.

Lemma uart_body_empty (e : uart_env) (s : state) :
  uart_consumed s = [] ->
  uart_task_body e s = (tt, uart_loaded s, []).
Proof.
  intro H. rewrite uart_body_loaded, H. reflexivity.
Qed.

Lemma uart_consumed_nonempty (s : state) :
  uart_consumed s <> [] -> (0 <? length (uart_consumed s)) = true.
Proof.
  intro H. destruct (uart_consumed s); [contradiction|reflexivity].
Qed.

Lemma uart_body_rejected (e : uart_env) (s : state) :
  uart_consumed s <> [] ->
  HAL_is_ok (uart_start_status e) = false ->
  uart_task_body e s = (tt, uart_loaded s, [uart_start_event e s]).
Proof.
  intros Hne H.
  rewrite uart_body_loaded, (uart_consumed_nonempty s Hne).
  unfold bind. rewrite uart_tx_async_run, H, chunk_buff_uart_loaded.
  reflexivity.
Qed.

Lemma uart_body_started (e : uart_env) (s : state) :
  uart_consumed s <> [] ->
  HAL_is_ok (uart_start_status e) = true ->
  let w := uart_waited e s in
  uart_task_body e s
  = (tt, final w,
     uart_start_event e s :: trace w ++ EvUartAcquire (value w)
     :: (if os_is_ok (value w) then [] else [EvUartAbortTransmit])).
Proof.
  intros Hne H. cbv zeta.
  rewrite uart_body_loaded, (uart_consumed_nonempty s Hne).
  unfold bind at 1. rewrite uart_tx_async_run, H, chunk_buff_uart_loaded.
  cbv beta iota. change (status_code true) with 0%Z.
  cbn [is_zero Z.eqb negb].
  unfold bind. rewrite uart_wait_tx_ready_run.
  change (osSemaphoreAcquire uart_tx_sema set_uart_tx_sema uart_notify
            (uart_wake e) _) with (uart_waited e s).
  unfold uart_start_event.
  destruct (uart_waited e s) as [[v s'] t].
  unfold value, final, trace. cbn [fst snd]. rewrite status_code_zero.
  destruct (os_is_ok v); cbn [negb uart_tx_abort emit ret app];
    rewrite <- app_assoc; reflexivity.
Qed.

Lemma uart_waited_frame (e : uart_env) (s : state) :
  trace (uart_waited e s) = []
  /\ final (uart_waited e s)
     = set_uart_tx_sema (uart_tx_sema (final (uart_waited e s)))
         (uart_loaded s).
Proof. apply uart_acquire_frame. Qed.

(** A pass of [uart_task] sends nothing to the SPI-to-UART stream and
    leaves the framing flag alone. *)
Lemma uart_body_no_forward (e : uart_env) (s : state) :
  forwarded (trace (uart_task_body e s)) = []
  /\ message_receiving (final (uart_task_body e s)) = message_receiving s.
Proof.
  destruct (uart_consumed s) as [|c l] eqn:E.
  - rewrite (uart_body_empty e s E). project. unfold uart_loaded.
    split; [reflexivity|now destruct s].
  - assert (Hne : uart_consumed s <> []) by (rewrite E; discriminate).
    destruct (HAL_is_ok (uart_start_status e)) eqn:H.
    + rewrite (uart_body_started e s Hne H). project.
      destruct (uart_waited_frame e s) as [-> ->].
      unfold uart_start_event, uart_loaded. cbn [app forwarded].
      split; [|now destruct s].
      now destruct (os_is_ok (value (uart_waited e s))).
    + rewrite (uart_body_rejected e s Hne H). project.
      unfold uart_start_event, uart_loaded.
      split; [reflexivity|now destruct s].
Qed.

Lemma release_sema_run (get : state -> Semaphore.t)
    (set : Semaphore.t -> state -> state) (s : state) :
  release_sema get set s
  = (tt, set (fst (Semaphore.osSemaphoreRelease (get s))) s, []).
Proof. unfold release_sema. step. reflexivity. Qed.

Lemma release_no_forward (get : state -> Semaphore.t)
    (set : Semaphore.t -> state -> state) (s : state) :
  (forall v s', message_receiving (set v s') = message_receiving s') ->
  forwarded (trace (release_sema get set s)) = []
  /\ message_receiving (final (release_sema get set s))
     = message_receiving s.
Proof.
  intro H. rewrite release_sema_run. project. now rewrite H.
Qed.

(** ** What a run of the whole system scans and forwards *)

Lemma perform_forwarded (a : action) (s : state) :
  forwarded (trace (perform a s))
  = FramingSpec.output (message_receiving s) (pass_scanned a s)
  /\ message_receiving (final (perform a s))
     = FramingSpec.inside_after (message_receiving s) (pass_scanned a s).
Proof.
  destruct a as [e|e| | |c rearm| |]; cbn [perform pass_scanned].
  - destruct (spi_iteration_forwarded e s) as (H1 & H2 & _). now split.
  - unfold uart_task_iteration.
    destruct (StreamBuffer.would_block _ _); [now split|].
    apply uart_body_no_forward.
  - apply release_no_forward. reflexivity.
  - apply release_no_forward. reflexivity.
  - step. unfold uart_rx_complete_callback, uart_rx_start. step. project.
    destruct s. split; reflexivity.
  - apply release_no_forward. reflexivity.
  - apply release_no_forward. reflexivity.
Qed.

Lemma run_forwarded (acts : list action) : forall s : state,
  forwarded (trace (run acts s))
  = FramingSpec.output (message_receiving s) (scanned acts s)
  /\ message_receiving (final (run acts s))
     = FramingSpec.inside_after (message_receiving s) (scanned acts s).
Proof.
  induction acts as [|a acts IH]; intro s.
  - cbn. split; reflexivity.
  - cbn [run scanned]. rewrite bind_run. project.
    destruct (perform_forwarded a s) as (Hf & Hm).
    destruct (IH (final (perform a s))) as (IHf & IHm).
    rewrite forwarded_app, Hf, IHf, IHm, Hm, output_app, inside_after_app.
    split; reflexivity.
Qed.

(** ** Shape of the forwarded byte sequence *)

Lemma output_zeros_follow (rx : list byte) : forall inside : bool,
  zeros_follow_nonzero inside (FramingSpec.output inside rx) = true.
Proof.
  unfold FramingSpec.output.
  induction rx as [|c rx IH]; intro inside; [reflexivity|].
  cbn [FramingSpec.framing_filter fst snd].
  unfold FramingSpec.filter_step.
  destruct (nonzero c) eqn:E.
  - cbn [fst snd app zeros_follow_nonzero]. rewrite E. apply IH.
  - destruct inside; cbn [fst snd app zeros_follow_nonzero].
    + rewrite E. cbn [andb]. apply IH.
    + apply IH.
Qed.

Lemma zeros_follow_sound (out : list byte) : forall p : bool,
  zeros_follow_nonzero p out = true ->
  (hd_error out = Some x00 -> p = true)
  /\ forall i : nat,
       nth_error out (S i) = Some x00 ->
       exists c : byte, nth_error out i = Some c /\ c <> x00.
Proof.
  induction out as [|c out IH]; intros p H.
  - split; [discriminate|]. intros i Hi. destruct i; discriminate.
  - cbn [zeros_follow_nonzero] in H.
    destruct (nonzero c) eqn:E.
    + apply IH in H. destruct H as [Hhd Hrest]. split.
      * cbn. intros [= ->]. discriminate.
      * intros [|i] Hi.
        -- exists c. split; [reflexivity|]. now apply nonzero_true_iff.
        -- cbn [nth_error] in *. now apply Hrest.
    + apply andb_prop in H. destruct H as [Hp H].
      apply IH in H. destruct H as [Hhd Hrest]. split.
      * intros _. exact Hp.
      * intros [|i] Hi.
        -- cbn [nth_error] in Hi.
           assert (Hz : hd_error out = Some x00)
             by (destruct out; [discriminate|exact Hi]).
           apply Hhd in Hz. discriminate.
        -- cbn [nth_error] in *. now apply Hrest.
Qed.

Lemma output_well_framed (rx : list byte) :
  well_framed (FramingSpec.output false rx).
Proof.
  destruct (zeros_follow_sound _ _ (output_zeros_follow rx false))
    as [Hhd Hrest].
  split; [|exact Hrest].
  intro H. apply Hhd in H. discriminate.
Qed.

(** C10. Whatever the peripherals do and however the passes of the two
    tasks and the notifications interleave, when the filter starts outside
    a message the sequence of bytes sent to the SPI-to-UART stream never
    begins with a zero byte and every zero byte in it is immediately
    preceded by a non-zero byte (so no two zero bytes are adjacent). *)
Theorem forwarded_zero_follows_nonzero :
  forall (acts : list action) (s : state),
    message_receiving s = false ->
    well_framed (forwarded (trace (run acts s)))
    /\ zeros_follow_nonzero false (forwarded (trace (run acts s))) = true.
Proof.
  intros acts s H.
  destruct (run_forwarded acts s) as [-> _]. rewrite H.
  split; [apply output_well_framed|apply output_zeros_follow].
Qed.

(** ** Messages in a stream of 128-byte transactions *)

Lemma HELLO_values : map Byte.to_N HELLO = [72; 69; 76; 76; 79; 0]%N.
Proof. reflexivity. Qed.

Lemma map_nth_seq_app (data rest : list byte) :
  map (fun i => nth i (data ++ rest) x00) (seq 0 (length data)) = data.
Proof.
  rewrite map_nth_seq by (rewrite length_app; lia).
  rewrite firstn_app, Nat.sub_diag, firstn_all. simpl. apply app_nil_r.
Qed.

Lemma spi_pass_scanned_full (e : spi_env) (s : state) :
  spi_length s = CHUNK_BUFF_SIZE ->
  HAL_is_ok (spi_start_status e) = true ->
  length (spi_rx_data e) = CHUNK_BUFF_SIZE ->
  spi_pass_scanned e s = spi_rx_data e.
Proof.
  intros L Hok Hlen. unfold spi_pass_scanned, rx_bytes, rx_bytes_from.
  rewrite Hok, spi_waited_chunk_buff_rx.
  rewrite L, <- Hlen, firstn_all. unfold write_prefix.
  apply map_nth_seq_app.
Qed.

(** With no UART data pending the transaction is a full chunk of filler. *)
Lemma spi_length_idle (s : state) :
  StreamBuffer.stored (uart_rx_stream s) = [] ->
  spi_length s = CHUNK_BUFF_SIZE.
Proof.
  intro Hempty.
  unfold spi_length, spi_consumed, StreamBuffer.xStreamBufferReceive.
  cbn [snd]. rewrite Hempty. now rewrite firstn_nil.
Qed.

Lemma spi_iteration_keeps_empty (e : spi_env) (s : state) :
  StreamBuffer.stored (uart_rx_stream s) = [] ->
  StreamBuffer.stored (uart_rx_stream (final (spi_task_iteration e s))) = [].
Proof.
  intro H. rewrite spi_iteration_uart_rx_stream.
  unfold StreamBuffer.xStreamBufferReceive. cbn [fst StreamBuffer.stored].
  rewrite H. apply skipn_nil.
Qed.

Lemma spi_scanned_full (script : list spi_env) : forall s : state,
  full_transfers script s ->
  spi_scanned script s = received script.
Proof.
  unfold received.
  induction script as [|e script IH]; intros s Hfull; [reflexivity|].
  destruct Hfull as (L & Hok & Hlen & Hrest).
  cbn [spi_scanned map concat].
  rewrite (spi_pass_scanned_full e s L Hok Hlen). f_equal.
  now apply IH.
Qed.

(** In particular when the UART side is idle and every transaction is
    accepted with a full chunk of received bytes. *)
Lemma full_transfers_idle (script : list spi_env) : forall s : state,
  StreamBuffer.stored (uart_rx_stream s) = [] ->
  Forall (fun e => HAL_is_ok (spi_start_status e) = true
                   /\ length (spi_rx_data e) = CHUNK_BUFF_SIZE) script ->
  full_transfers script s.
Proof.
  induction script as [|e script IH]; intros s Hempty Hall; [exact I|].
  inversion Hall as [|e' l' [Hok Hlen] Hrest]; subst.
  cbn [full_transfers]. repeat split; try assumption.
  - now apply spi_length_idle.
  - apply IH; [now apply spi_iteration_keeps_empty|assumption].
Qed.

(** [spi_task] clears the flag once, on entry. *)
Lemma spi_task_forwarded (script : list spi_env) (s : state) :
  forwarded (trace (spi_task script s))
  = FramingSpec.output false
      (spi_scanned script (set_message_receiving false s))
  /\ message_receiving (final (spi_task script s))
     = FramingSpec.inside_after false
         (spi_scanned script (set_message_receiving false s))
  /\ spi_rx_stream (final (spi_task script s))
     = send_each (spi_rx_stream s)
         (FramingSpec.output false
            (spi_scanned script (set_message_receiving false s))).
Proof.
  unfold spi_task. step.
  destruct (spi_task_loop_forwarded script (set_message_receiving false s))
    as (H1 & H2 & H3).
  rewrite H1, H2, H3. now destruct s.
Qed.

Lemma spi_task_full (script : list spi_env) (s : state) :
  full_transfers script (spi_task_entered s) ->
  forwarded (trace (spi_task script s))
  = FramingSpec.output false (received script)
  /\ message_receiving (final (spi_task script s))
     = FramingSpec.inside_after false (received script)
  /\ spi_rx_stream (final (spi_task script s))
     = send_each (spi_rx_stream s)
         (FramingSpec.output false (received script)).
Proof.
  intro Hfull.
  destruct (spi_task_forwarded script s) as (H1 & H2 & H3).
  rewrite H1, H2, H3.
  rewrite spi_scanned_full; [repeat split|exact Hfull].
Qed.

(** Idle filler outside a message leaves no trace. *)
Lemma filter_filler (n : nat) :
  FramingSpec.framing_filter false (repeat x00 n) = (false, []).
Proof.
  induction n as [|n IH]; [reflexivity|].
  cbn [repeat FramingSpec.framing_filter].
  change (FramingSpec.filter_step false x00) with (false, @nil byte).
  cbn [fst snd]. rewrite IH. reflexivity.
Qed.

(** A run of non-zero bytes is forwarded whole. *)
Lemma filter_payload (msg : list byte) : forall inside : bool,
  Forall (fun c => c <> x00) msg ->
  FramingSpec.framing_filter inside msg
  = (match msg with [] => inside | _ :: _ => true end, msg).
Proof.
  induction msg as [|c msg IH]; intros inside H; [reflexivity|].
  inversion H as [|c' l' Hc Hmsg]; subst.
  cbn [FramingSpec.framing_filter]. unfold FramingSpec.filter_step.
  apply nonzero_true_iff in Hc. rewrite Hc. cbn [fst snd].
  rewrite (IH true Hmsg). cbn [fst snd app]. now destruct msg.
Qed.

Lemma filter_framed_message (a b : nat) (msg : list byte) :
  Forall (fun c => c <> x00) msg ->
  msg <> [] ->
  FramingSpec.framing_filter false
    (repeat x00 a ++ (msg ++ [x00]) ++ repeat x00 b)
  = (false, msg ++ [x00]).
Proof.
  intros Hmsg Hne.
  rewrite framing_filter_app.
  unfold FramingSpec.inside_after, FramingSpec.output.
  rewrite filter_filler. cbn [fst snd app].
  rewrite framing_filter_app.
  unfold FramingSpec.inside_after, FramingSpec.output.
  rewrite framing_filter_app.
  unfold FramingSpec.inside_after, FramingSpec.output.
  rewrite (filter_payload msg false Hmsg). cbn [fst snd].
  destruct msg as [|c msg]; [contradiction|].
  cbn [FramingSpec.framing_filter FramingSpec.filter_step nonzero Byte.eqb
         fst snd app negb].
  change (FramingSpec.filter_step true x00) with (false, [x00]).
  cbn [fst snd]. rewrite filter_filler. cbn [fst snd].
  now rewrite !app_nil_r.
Qed.

(** C3. For every receive stream made of the bytes 72,69,76,76,79,0 with
    any number of zero filler bytes before and after, cut into accepted
    128-byte transactions at any offset, [spi_task] sends exactly
    72,69,76,76,79,0 to the SPI-to-UART stream, in that order and with no
    zero byte before or after; when the stream has room for six bytes they
    are appended to it, and the filter ends outside a message. *)
Theorem hello_round_trip :
  forall (script : list spi_env) (s : state) (a b : nat),
    full_transfers script (spi_task_entered s) ->
    received script = repeat x00 a ++ HELLO ++ repeat x00 b ->
    length HELLO <= StreamBuffer.spaces (spi_rx_stream s) ->
    let r := spi_task script s in
    forwarded (trace r) = HELLO
    /\ map Byte.to_N (forwarded (trace r)) = [72; 69; 76; 76; 79; 0]%N
    /\ StreamBuffer.stored (spi_rx_stream (final r))
       = StreamBuffer.stored (spi_rx_stream s) ++ HELLO
    /\ message_receiving (final r) = false.
Proof.
  intros script s a b Hfull Hrx Hroom. cbv zeta.
  destruct (spi_task_full script s Hfull) as (H1 & H2 & H3).
  rewrite H1, H2, H3, Hrx.
  unfold FramingSpec.output, FramingSpec.inside_after.
  change HELLO with ([x48; x45; x4c; x4c; x4f] ++ [x00]) in *.
  rewrite filter_framed_message;
    [|repeat constructor; discriminate|discriminate].
  cbn [fst snd]. repeat split.
  now rewrite send_each_fits.
Qed.

(** The flag is cleared only by forwarding a terminator. *)
Lemma inside_kept_without_terminator (rx : list byte) :
  ~ In x00 (FramingSpec.output true rx) ->
  FramingSpec.inside_after true rx = true.
Proof.
  unfold FramingSpec.output, FramingSpec.inside_after.
  induction rx as [|c rx IH]; intro H; [reflexivity|].
  cbn [FramingSpec.framing_filter fst snd] in *.
  unfold FramingSpec.filter_step in *.
  destruct (nonzero c) eqn:E; cbn [fst snd app] in *.
  - apply IH. intro Hin. apply H. now right.
  - apply nonzero_false_iff in E. subst c. exfalso. apply H. now left.
Qed.

Lemma Forall_firstn_kept {A} (P : A -> Prop) (n : nat) : forall l : list A,
  Forall P l -> Forall P (firstn n l).
Proof.
  induction n as [|n IH]; intros l H; [constructor|].
  destruct l as [|a l]; [constructor|].
  inversion H; subst. cbn [firstn]. constructor; auto.
Qed.

Lemma firstn_filler_payload (k n : nat) (msg rest : list byte) :
  k <= n -> n - k <= length msg ->
  firstn n (repeat x00 k ++ msg ++ rest) = repeat x00 k ++ firstn (n - k) msg.
Proof.
  intros Hk Hn.
  rewrite firstn_app, repeat_length, firstn_app.
  rewrite (firstn_all2 (repeat x00 k)) by (rewrite repeat_length; lia).
  replace (n - k - length msg) with 0 by lia.
  cbn [firstn]. now rewrite app_nil_r.
Qed.

(** C2. The framing flag lives across passes of the loop and is cleared
    only when a terminator is forwarded.  So a message of 130 non-zero
    bytes and its terminator, arriving after [k] filler bytes in two
    accepted 128-byte transactions, is sent to the SPI-to-UART stream as
    the 130 bytes followed by one zero byte: the first pass forwards the
    part of the message that lies in the first chunk and ends inside the
    message, the second pass continues with the rest and the terminator,
    and no byte is repeated or lost at the boundary. *)
Theorem message_across_chunk_boundary :
  forall (e1 e2 : spi_env) (s : state) (msg : list byte) (k : nat),
    full_transfers [e1; e2] (spi_task_entered s) ->
    length msg = 130 ->
    Forall (fun c => c <> x00) msg ->
    spi_rx_data e1 ++ spi_rx_data e2
    = repeat x00 k ++ (msg ++ [x00]) ++ repeat x00 (125 - k) ->
    forwarded (trace (spi_task [e1; e2] s)) = msg ++ [x00]
    /\ forwarded (trace (spi_task [e1] s)) = firstn (128 - k) msg
    /\ message_receiving (final (spi_task [e1] s)) = true
    /\ message_receiving (final (spi_task [e1; e2] s)) = false
    /\ (forall (e : spi_env) (s' : state),
          message_receiving s' = true ->
          ~ In x00 (forwarded (trace (spi_task_iteration e s'))) ->
          message_receiving (final (spi_task_iteration e s')) = true).
Proof.
  intros e1 e2 s msg k Hfull Hlen Hmsg Hrx.
  assert (Hne : msg <> []) by (intro E; subst msg; discriminate).
  assert (Hfull1 : full_transfers [e1] (spi_task_entered s))
    by (cbn [full_transfers] in *; tauto).
  assert (L1 : length (spi_rx_data e1) = 128) by apply Hfull.
  assert (L2 : length (spi_rx_data e2) = 128) by apply Hfull.
  assert (Hk : k <= 125).
  { apply (f_equal (@length byte)) in Hrx.
    rewrite !length_app, !repeat_length, L1, L2, Hlen in Hrx.
    cbn [length] in Hrx. lia. }
  destruct (spi_task_full [e1; e2] s Hfull) as (H1 & H2 & _).
  destruct (spi_task_full [e1] s Hfull1) as (F1 & F2 & _).
  unfold received in *. cbn [map concat] in *. rewrite app_nil_r in *.
  rewrite H1, H2, F1, F2, Hrx.
  unfold FramingSpec.output, FramingSpec.inside_after.
  rewrite (filter_framed_message k (125 - k) msg Hmsg Hne). cbn [fst snd].
  assert (E1 : spi_rx_data e1 = repeat x00 k ++ firstn (128 - k) msg).
  { assert (P : firstn 128 (spi_rx_data e1 ++ spi_rx_data e2)
                = spi_rx_data e1).
    { rewrite firstn_app, L1, Nat.sub_diag, firstn_O, app_nil_r.
      apply firstn_all2. lia. }
    rewrite <- P, Hrx, <- app_assoc.
    apply firstn_filler_payload; lia. }
  rewrite E1, framing_filter_app.
  unfold FramingSpec.inside_after, FramingSpec.output.
  rewrite filter_filler. cbn [fst snd app].
  rewrite (filter_payload (firstn (128 - k) msg) false)
    by (now apply Forall_firstn_kept).
  cbn [fst snd].
  repeat split.
  - destruct (firstn (128 - k) msg) eqn:E; [|reflexivity].
    apply (f_equal (@length byte)) in E. rewrite length_firstn in E.
    cbn [length] in E. lia.
  - intros e s' Hin Hno.
    destruct (spi_iteration_forwarded e s') as (G1 & G2 & _).
    rewrite G2, Hin. apply inside_kept_without_terminator.
    now rewrite <- Hin, <- G1.
Qed.

(** ** A transmit that does not start *)

Lemma uart_iteration_runs (e : uart_env) (s : state) :
  StreamBuffer.stored (spi_rx_stream s) <> [] ->
  uart_task_iteration e s = Some (uart_task_body e s)
  /\ uart_consumed s <> [].
Proof.
  intro H. unfold uart_task_iteration, StreamBuffer.would_block,
    uart_consumed, StreamBuffer.xStreamBufferReceive.
  destruct (StreamBuffer.stored (spi_rx_stream s)) as [|c l];
    [contradiction|].
  split; [reflexivity|]. cbn. discriminate.
Qed.

(** C6. When the asynchronous transmit does not start, that is when
    [uart_tx_async] or [spi_tx_rx] returns non-zero, the pass of the loop
    ends there: the start attempt is the only thing asked of the
    peripheral (no wait on the completion signal, no abort, no second
    attempt), the chunk taken from the stream is gone from it, and nothing
    else changes: neither semaphore, nor the other stream, nor the
    framing flag, and nothing is sent to the SPI-to-UART stream. *)
Theorem start_failure_drops_chunk :
  forall (eu : uart_env) (es : spi_env) (su ss : state),
    StreamBuffer.stored (spi_rx_stream su) <> [] ->
    value (uart_tx_async eu (length (uart_consumed su)) (uart_loaded su))
    <> 0%Z ->
    value (spi_tx_rx es (spi_length ss) (spi_loaded ss)) <> 0%Z ->
    uart_task_iteration eu su
    = Some (tt,
            set_chunk_buff (write_prefix (uart_consumed su) (chunk_buff su))
              (set_spi_rx_stream
                 (StreamBuffer.mk (StreamBuffer.capacity (spi_rx_stream su))
                    (skipn 128 (StreamBuffer.stored (spi_rx_stream su))))
                 su),
            [EvUartTransmit (uart_consumed su) (length (uart_consumed su))
               (uart_start_status eu)])
    /\ spi_task_iteration es ss
       = (tt,
          set_chunk_buff_tx (chunk_buff_tx (spi_loaded ss))
            (set_uart_rx_stream
               (StreamBuffer.mk (StreamBuffer.capacity (uart_rx_stream ss))
                  (skipn 128 (StreamBuffer.stored (uart_rx_stream ss))))
               ss),
          [EvSpiTransmitReceive
             (match spi_consumed ss with
              | [] => repeat x00 128
              | _ :: _ => spi_consumed ss
              end)
             (match spi_consumed ss with
              | [] => 128
              | _ :: _ => length (spi_consumed ss)
              end)
             (spi_start_status es)]).
Proof.
  intros eu es su ss Hdata Hu Hs.
  rewrite uart_tx_async_run in Hu. rewrite spi_tx_rx_run in Hs.
  rewrite value_triple in Hu, Hs.
  assert (Hu' : HAL_is_ok (uart_start_status eu) = false)
    by (destruct (HAL_is_ok (uart_start_status eu)); [now elim Hu|easy]).
  assert (Hs' : HAL_is_ok (spi_start_status es) = false)
    by (destruct (HAL_is_ok (spi_start_status es)); [now elim Hs|easy]).
  destruct (uart_iteration_runs eu su Hdata) as [-> Hne].
  rewrite (uart_body_rejected eu su Hne Hu').
  rewrite (spi_iteration_rejected es ss Hs'), spi_start_event_txd.
  split.
  - unfold uart_loaded, uart_start_event. now destruct su.
  - unfold spi_loaded. now destruct ss.
Qed.

(** ** A completion signal that does not come *)

Lemma set_spi_tx_rx_sema_same (s : state) :
  set_spi_tx_rx_sema (spi_tx_rx_sema s) s = s.
Proof. now destruct s. Qed.

Lemma set_uart_tx_sema_same (s : state) :
  set_uart_tx_sema (uart_tx_sema s) s = s.
Proof. now destruct s. Qed.

(** A wait that times out leaves the state as it was. *)
Lemma spi_acquire_timeout_unchanged (wake : option notification) (s : state) :
  let w := osSemaphoreAcquire spi_tx_rx_sema set_spi_tx_rx_sema spi_notify
             wake s in
  value w = osErrorTimeout -> final w = s.
Proof.
  cbv zeta. unfold osSemaphoreAcquire. step.
  destruct (Semaphore.try_acquire (spi_tx_rx_sema s)) as [sem'|] eqn:E.
  - step. discriminate.
  - destruct wake as [n|]; [|reflexivity].
    assert (N : spi_notify n = release_sema spi_tx_rx_sema set_spi_tx_rx_sema)
      by now destruct n.
    rewrite N. unfold release_sema. step.
    destruct s as [urx srx usem ssem b cb cbt cbr mr].
    cbn [spi_tx_rx_sema set_spi_tx_rx_sema] in *.
    unfold Semaphore.osSemaphoreRelease.
    destruct (Semaphore.count ssem <? Semaphore.max_count ssem).
    + cbn [fst Semaphore.try_acquire Semaphore.count]. step. discriminate.
    + cbn [fst]. rewrite E. reflexivity.
Qed.

Lemma uart_acquire_timeout_unchanged (wake : option notification)
    (s : state) :
  let w := osSemaphoreAcquire uart_tx_sema set_uart_tx_sema uart_notify
             wake s in
  value w = osErrorTimeout -> final w = s.
Proof.
  cbv zeta. unfold osSemaphoreAcquire. step.
  destruct (Semaphore.try_acquire (uart_tx_sema s)) as [sem'|] eqn:E.
  - step. discriminate.
  - destruct wake as [n|]; [|reflexivity].
    assert (N : uart_notify n = release_sema uart_tx_sema set_uart_tx_sema)
      by now destruct n.
    rewrite N. unfold release_sema. step.
    destruct s as [urx srx usem ssem b cb cbt cbr mr].
    cbn [uart_tx_sema set_uart_tx_sema] in *.
    unfold Semaphore.osSemaphoreRelease.
    destruct (Semaphore.count usem <? Semaphore.max_count usem).
    + cbn [fst Semaphore.try_acquire Semaphore.count]. step. discriminate.
    + cbn [fst]. rewrite E. reflexivity.
Qed.

(** C5, as the code has it.  When the wait for the completion signal times
    out, either task aborts the operation in flight and goes on with its
    loop: there is no second attempt and nothing is reported, the state is
    what it was when the operation started.  In [uart_task] the pass ends
    with the abort.  In [spi_task] the pass does not end there: the receive
    buffer of the timed-out transaction is scanned like any other, and the
    framing filter forwards from it. *)
Theorem completion_timeout_aborts_and_goes_on :
  forall (eu : uart_env) (es : spi_env) (su ss : state),
    StreamBuffer.stored (spi_rx_stream su) <> [] ->
    HAL_is_ok (uart_start_status eu) = true ->
    value (uart_waited eu su) = osErrorTimeout ->
    HAL_is_ok (spi_start_status es) = true ->
    value (spi_waited es ss) = osErrorTimeout ->
    let rx := rx_bytes (spi_received es ss) (spi_length ss) in
    uart_task_iteration eu su
    = Some (tt, uart_loaded su,
            [uart_start_event eu su; EvUartAcquire osErrorTimeout;
             EvUartAbortTransmit])
    /\ spi_task_iteration es ss
       = (tt, filtered (spi_received es ss) rx,
          [spi_start_event es ss; EvSpiAcquire osErrorTimeout; EvSpiAbort]
          ++ map EvSpiRxSend
               (FramingSpec.output (message_receiving ss) rx))
    /\ forwarded (trace (spi_task_iteration es ss))
       = FramingSpec.output (message_receiving ss) rx.
Proof.
  intros eu es su ss Hdata Hu Tu Hs Ts. cbv zeta.
  destruct (uart_iteration_runs eu su Hdata) as [-> Hne].
  rewrite (uart_body_started eu su Hne Hu).
  rewrite (spi_iteration_started es ss Hs).
  destruct (uart_waited_frame eu su) as [-> _].
  destruct (spi_waited_frame es ss) as [-> _].
  rewrite Tu, Ts.
  assert (Fu : final (uart_waited eu su) = uart_loaded su)
    by (apply uart_acquire_timeout_unchanged; exact Tu).
  assert (Fs : final (spi_waited es ss) = spi_received es ss)
    by (apply spi_acquire_timeout_unchanged; exact Ts).
  rewrite Fu, Fs.
  assert (M : message_receiving (spi_received es ss) = message_receiving ss)
    by now destruct ss.
  rewrite M. project. cbn [os_is_ok app forwarded].
  rewrite forwarded_sends. repeat split.
Qed.

(** ** Invariants of the kernel objects *)

Lemma send_channel_ok (sb : StreamBuffer.t) (data : list byte) :
  channel_ok sb -> channel_ok (fst (StreamBuffer.xStreamBufferSend sb data)).
Proof.
  unfold channel_ok, StreamBuffer.xStreamBufferSend, StreamBuffer.spaces.
  cbn [fst StreamBuffer.capacity StreamBuffer.stored].
  intros [Hc Hl]. split; [assumption|].
  rewrite length_app, length_firstn, Hc. lia.
Qed.

Lemma receive_channel_ok (sb : StreamBuffer.t) (n : nat) :
  channel_ok sb ->
  channel_ok (fst (StreamBuffer.xStreamBufferReceive sb n)).
Proof.
  unfold channel_ok, StreamBuffer.xStreamBufferReceive.
  cbn [fst StreamBuffer.capacity StreamBuffer.stored].
  intros [Hc Hl]. split; [assumption|]. rewrite length_skipn. lia.
Qed.

Lemma send_each_channel_ok (out : list byte) (sb : StreamBuffer.t) :
  channel_ok sb -> channel_ok (send_each sb out).
Proof. rewrite send_each_bulk. apply send_channel_ok. Qed.

Lemma release_binary (sem : Semaphore.t) :
  binary sem -> binary (fst (Semaphore.osSemaphoreRelease sem)).
Proof.
  unfold binary, Semaphore.osSemaphoreRelease. intros [Hm Hc].
  destruct (Nat.ltb_spec (Semaphore.count sem) (Semaphore.max_count sem));
    cbn [fst Semaphore.max_count Semaphore.count]; split; lia.
Qed.

Lemma try_acquire_binary (sem sem' : Semaphore.t) :
  Semaphore.try_acquire sem = Some sem' -> binary sem ->
  binary sem' /\ Semaphore.count sem' = 0.
Proof.
  unfold Semaphore.try_acquire, binary.
  destruct (Semaphore.count sem) as [|n] eqn:E; [discriminate|].
  intros [= <-] [Hm Hc]. cbn [Semaphore.max_count Semaphore.count].
  repeat split; lia.
Qed.

Lemma filtered_wf (s : state) (rx : list byte) :
  wf_state s -> wf_state (filtered s rx).
Proof.
  unfold wf_state, filtered. destruct s.
  cbn [uart_rx_stream spi_rx_stream uart_tx_sema spi_tx_rx_sema
       set_message_receiving set_spi_rx_stream message_receiving].
  intros (H1 & H2 & H3 & H4).
  split; [|split; [|split]]; try assumption.
  now apply send_each_channel_ok.
Qed.

Lemma spi_loaded_wf (s : state) : wf_state s -> wf_state (spi_loaded s).
Proof.
  unfold wf_state, spi_loaded. destruct s.
  cbn [uart_rx_stream spi_rx_stream uart_tx_sema spi_tx_rx_sema
       set_chunk_buff_tx set_uart_rx_stream].
  intros (H1 & H2 & H3 & H4).
  split; [|split; [|split]]; try assumption.
  now apply receive_channel_ok.
Qed.

Lemma spi_received_wf (e : spi_env) (s : state) :
  wf_state s -> wf_state (spi_received e s).
Proof.
  intro H. apply spi_loaded_wf in H. unfold spi_received.
  destruct (spi_loaded s). exact H.
Qed.

Lemma uart_loaded_wf (s : state) : wf_state s -> wf_state (uart_loaded s).
Proof.
  unfold wf_state, uart_loaded. destruct s.
  cbn [uart_rx_stream spi_rx_stream uart_tx_sema spi_tx_rx_sema
       set_chunk_buff set_spi_rx_stream].
  intros (H1 & H2 & H3 & H4).
  split; [|split; [|split]]; try assumption.
  now apply receive_channel_ok.
Qed.

Lemma spi_release_wf (s : state) :
  wf_state s ->
  wf_state (final (release_sema spi_tx_rx_sema set_spi_tx_rx_sema s)).
Proof.
  rewrite release_sema_run. project. unfold wf_state. destruct s.
  cbn [uart_rx_stream spi_rx_stream uart_tx_sema spi_tx_rx_sema
       set_spi_tx_rx_sema].
  intros (H1 & H2 & H3 & H4).
  split; [|split; [|split]]; try assumption.
  now apply release_binary.
Qed.

Lemma uart_release_wf (s : state) :
  wf_state s ->
  wf_state (final (release_sema uart_tx_sema set_uart_tx_sema s)).
Proof.
  rewrite release_sema_run. project. unfold wf_state. destruct s.
  cbn [uart_rx_stream spi_rx_stream uart_tx_sema spi_tx_rx_sema
       set_uart_tx_sema].
  intros (H1 & H2 & H3 & H4).
  split; [|split; [|split]]; try assumption.
  now apply release_binary.
Qed.

Lemma set_spi_tx_rx_sema_wf (sem : Semaphore.t) (s : state) :
  binary sem -> wf_state s -> wf_state (set_spi_tx_rx_sema sem s).
Proof. unfold wf_state. destruct s. cbn. tauto. Qed.

Lemma set_uart_tx_sema_wf (sem : Semaphore.t) (s : state) :
  binary sem -> wf_state s -> wf_state (set_uart_tx_sema sem s).
Proof. unfold wf_state. destruct s. cbn. tauto. Qed.

(** The wait either takes the token, leaving none, or times out and leaves
    the state as it was; the semaphore stays a latch. *)
Lemma spi_acquire_outcome (wake : option notification) (s : state) :
  wf_state s ->
  let w := osSemaphoreAcquire spi_tx_rx_sema set_spi_tx_rx_sema spi_notify
             wake s in
  wf_state (final w)
  /\ ((value w = osOK /\ Semaphore.count (spi_tx_rx_sema (final w)) = 0)
      \/ (value w = osErrorTimeout /\ final w = s)).
Proof.
  intro W. cbv zeta. unfold osSemaphoreAcquire. step.
  assert (B : binary (spi_tx_rx_sema s)) by apply W.
  destruct (Semaphore.try_acquire (spi_tx_rx_sema s)) as [sem'|] eqn:E.
  - step. project. destruct (try_acquire_binary _ _ E B) as [B' C'].
    split; [now apply set_spi_tx_rx_sema_wf|].
    left. split; [reflexivity|]. now destruct s.
  - destruct wake as [n|]; [|split; [exact W|right; split; reflexivity]].
    assert (N : spi_notify n = release_sema spi_tx_rx_sema set_spi_tx_rx_sema)
      by now destruct n.
    rewrite N, bind_run, release_sema_run. project. step.
    set (s1 := set_spi_tx_rx_sema _ s).
    assert (W1 : wf_state s1).
    { apply set_spi_tx_rx_sema_wf; [now apply release_binary|exact W]. }
    assert (B1 : binary (spi_tx_rx_sema s1)) by apply W1.
    destruct (Semaphore.try_acquire (spi_tx_rx_sema s1)) as [sem'|] eqn:E1.
    + step. project. destruct (try_acquire_binary _ _ E1 B1) as [B' C'].
      split; [now apply set_spi_tx_rx_sema_wf|].
      left. split; [reflexivity|]. subst s1. now destruct s.
    + project. cbn [app]. split; [exact W1|]. right.
      split; [reflexivity|].
      subst s1. destruct s as [urx srx usem ssem b cb cbt cbr mr].
      cbn [spi_tx_rx_sema set_spi_tx_rx_sema] in *.
      unfold Semaphore.osSemaphoreRelease in *.
      destruct (Semaphore.count ssem <? Semaphore.max_count ssem);
        [discriminate E1|reflexivity].
Qed.

Lemma uart_acquire_outcome (wake : option notification) (s : state) :
  wf_state s ->
  let w := osSemaphoreAcquire uart_tx_sema set_uart_tx_sema uart_notify
             wake s in
  wf_state (final w)
  /\ ((value w = osOK /\ Semaphore.count (uart_tx_sema (final w)) = 0)
      \/ (value w = osErrorTimeout /\ final w = s)).
Proof.
  intro W. cbv zeta. unfold osSemaphoreAcquire. step.
  assert (B : binary (uart_tx_sema s)) by apply W.
  destruct (Semaphore.try_acquire (uart_tx_sema s)) as [sem'|] eqn:E.
  - step. project. destruct (try_acquire_binary _ _ E B) as [B' C'].
    split; [now apply set_uart_tx_sema_wf|].
    left. split; [reflexivity|]. now destruct s.
  - destruct wake as [n|]; [|split; [exact W|right; split; reflexivity]].
    assert (N : uart_notify n = release_sema uart_tx_sema set_uart_tx_sema)
      by now destruct n.
    rewrite N, bind_run, release_sema_run. project. step.
    set (s1 := set_uart_tx_sema _ s).
    assert (W1 : wf_state s1).
    { apply set_uart_tx_sema_wf; [now apply release_binary|exact W]. }
    assert (B1 : binary (uart_tx_sema s1)) by apply W1.
    destruct (Semaphore.try_acquire (uart_tx_sema s1)) as [sem'|] eqn:E1.
    + step. project. destruct (try_acquire_binary _ _ E1 B1) as [B' C'].
      split; [now apply set_uart_tx_sema_wf|].
      left. split; [reflexivity|]. subst s1. now destruct s.
    + project. cbn [app]. split; [exact W1|]. right.
      split; [reflexivity|].
      subst s1. destruct s as [urx srx usem ssem b cb cbt cbr mr].
      cbn [uart_tx_sema set_uart_tx_sema] in *.
      unfold Semaphore.osSemaphoreRelease in *.
      destruct (Semaphore.count usem <? Semaphore.max_count usem);
        [discriminate E1|reflexivity].
Qed.

Lemma spi_iteration_wf (e : spi_env) (s : state) :
  wf_state s -> wf_state (final (spi_task_iteration e s)).
Proof.
  intro W. destruct (HAL_is_ok (spi_start_status e)) eqn:H.
  - rewrite (spi_iteration_started e s H). project.
    apply filtered_wf.
    apply (spi_acquire_outcome (spi_wake e) (spi_received e s)).
    now apply spi_received_wf.
  - rewrite (spi_iteration_rejected e s H). project.
    now apply spi_loaded_wf.
Qed.

Lemma uart_body_wf (e : uart_env) (s : state) :
  wf_state s -> wf_state (final (uart_task_body e s)).
Proof.
  intro W. destruct (uart_consumed s) as [|c l] eqn:E.
  - rewrite (uart_body_empty e s E). project. now apply uart_loaded_wf.
  - assert (Hne : uart_consumed s <> []) by (rewrite E; discriminate).
    destruct (HAL_is_ok (uart_start_status e)) eqn:H.
    + rewrite (uart_body_started e s Hne H). project.
      apply (uart_acquire_outcome (uart_wake e) (uart_loaded s)).
      now apply uart_loaded_wf.
    + rewrite (uart_body_rejected e s Hne H). project.
      now apply uart_loaded_wf.
Qed.

Lemma uart_rx_complete_run (c : byte) (rearm : HAL_StatusTypeDef)
    (s : state) :
  perform (IrqUartRxComplete c rearm) s
  = (tt,
     set_uart_rx_stream
       (fst (StreamBuffer.xStreamBufferSend (uart_rx_stream s) [c]))
       (set_uart_rx_byte c s),
     [EvUartRxSend c; EvUartReceiveIT rearm]).
Proof.
  cbn [perform]. step. unfold uart_rx_complete_callback, uart_rx_start.
  step. project. now destruct s.
Qed.

Lemma perform_wf (a : action) (s : state) :
  wf_state s -> wf_state (final (perform a s)).
Proof.
  intro W. destruct a as [e|e| | |c rearm| |].
  - now apply spi_iteration_wf.
  - cbn [perform]. unfold uart_task_iteration.
    destruct (StreamBuffer.would_block _ _); [exact W|].
    now apply uart_body_wf.
  - now apply uart_release_wf.
  - now apply uart_release_wf.
  - rewrite uart_rx_complete_run. project.
    unfold wf_state in *. destruct s.
    cbn [uart_rx_stream spi_rx_stream uart_tx_sema spi_tx_rx_sema
         set_uart_rx_stream set_uart_rx_byte] in *.
    destruct W as (H1 & H2 & H3 & H4).
    split; [|split; [|split]]; try assumption.
    now apply send_channel_ok.
  - now apply spi_release_wf.
  - now apply spi_release_wf.
Qed.

Lemma run_wf (acts : list action) : forall s : state,
  wf_state s -> wf_state (final (run acts s)).
Proof.
  induction acts as [|a acts IH]; intros s W; [exact W|].
  cbn [run]. rewrite bind_run. project. apply IH. now apply perform_wf.
Qed.

Lemma initial_state_wf : wf_state initial_state.
Proof.
  unfold wf_state, channel_ok, binary. cbn. repeat split; lia.
Qed.

(** ** The byte channels *)

Lemma firstn_length_firstn {A} (n : nat) : forall l : list A,
  firstn (length (firstn n l)) l = firstn n l.
Proof.
  induction n as [|n IH]; intros [|a l]; cbn; try reflexivity.
  now rewrite IH.
Qed.

Lemma channel_run_fifo (ops : list channel_op) : forall sb : StreamBuffer.t,
  channel_ok sb ->
  let '(sb', committed, consumed) := channel_run ops sb in
  channel_ok sb'
  /\ StreamBuffer.stored sb ++ committed
     = consumed ++ StreamBuffer.stored sb'.
Proof.
  induction ops as [|op ops IH]; intros sb W.
  - cbn. split; [exact W|]. now rewrite app_nil_r.
  - destruct op as [data|n]; cbn [channel_run].
    + pose proof (IH _ (send_channel_ok sb data W)) as H.
      destruct (channel_run ops _) as [[sb' committed] consumed].
      destruct H as [W' H]. split; [exact W'|].
      rewrite <- H. unfold StreamBuffer.xStreamBufferSend.
      cbn [fst snd StreamBuffer.stored].
      rewrite firstn_length_firstn. now rewrite app_assoc.
    + pose proof (IH _ (receive_channel_ok sb n W)) as H.
      destruct (channel_run ops _) as [[sb' committed] consumed].
      destruct H as [W' H]. split; [exact W'|].
      unfold StreamBuffer.xStreamBufferReceive in *.
      cbn [fst snd StreamBuffer.stored] in *.
      rewrite <- app_assoc, <- H, app_assoc, firstn_skipn. reflexivity.
Qed.

Lemma send_when_full (sb : StreamBuffer.t) (data : list byte) :
  StreamBuffer.is_full sb = true ->
  StreamBuffer.xStreamBufferSend sb data = (sb, 0).
Proof.
  unfold StreamBuffer.is_full, StreamBuffer.xStreamBufferSend.
  intro H. apply Nat.eqb_eq in H. rewrite H. cbn [firstn length].
  rewrite app_nil_r. now destruct sb.
Qed.

(** C7. Each byte channel holds at most 1024 bytes, hands bytes out in the
    order they were stored, and takes a produce on a full channel without
    blocking and without an error: the bytes that do not fit are dropped,
    the count of stored bytes is all the producer gets back, and what was
    already stored is untouched.  The same holds for the two channels of
    the running system, whatever the tasks and the notifications do, and
    for the receive-complete callback, which ignores the count and re-arms
    the reception all the same. *)
Theorem byte_channel_fifo_bounded_lossy :
  forall (ops : list channel_op) (sb : StreamBuffer.t) (data : list byte)
         (acts : list action) (s : state) (c : byte)
         (rearm : HAL_StatusTypeDef),
    channel_ok sb ->
    wf_state s ->
    (* the channels are created with room for 1024 bytes, empty *)
    (uart_rx_stream initial_state = StreamBuffer.mk 1024 []
     /\ spi_rx_stream initial_state = StreamBuffer.mk 1024 [])
    (* order and bound under any sequence of produces and consumes *)
    /\ (let '(sb', committed, consumed) := channel_run ops sb in
        length (StreamBuffer.stored sb') <= 1024
        /\ StreamBuffer.stored sb ++ committed
           = consumed ++ StreamBuffer.stored sb')
    (* a produce keeps what is stored and adds what fits, in order *)
    /\ StreamBuffer.xStreamBufferSend sb data
       = (StreamBuffer.mk (StreamBuffer.capacity sb)
            (StreamBuffer.stored sb
             ++ firstn (1024 - length (StreamBuffer.stored sb)) data),
          Nat.min (1024 - length (StreamBuffer.stored sb)) (length data))
    (* a produce on a full channel changes nothing and reports 0 *)
    /\ (length (StreamBuffer.stored sb) = 1024 ->
        StreamBuffer.xStreamBufferSend sb data = (sb, 0))
    (* the bound holds throughout a run of the system *)
    /\ (length (StreamBuffer.stored (uart_rx_stream (final (run acts s))))
        <= 1024
        /\ length (StreamBuffer.stored (spi_rx_stream (final (run acts s))))
           <= 1024)
    (* the UART receive callback on a full channel *)
    /\ (length (StreamBuffer.stored (uart_rx_stream s)) = 1024 ->
        let r := perform (IrqUartRxComplete c rearm) s in
        uart_rx_stream (final r) = uart_rx_stream s
        /\ trace r = [EvUartRxSend c; EvUartReceiveIT rearm]).
Proof.
  intros ops sb data acts s c rearm W Ws.
  split; [split; reflexivity|].
  split.
  { pose proof (channel_run_fifo ops sb W) as H.
    destruct (channel_run ops sb) as [[sb' committed] consumed].
    destruct H as [[_ Hl] Hf]. now split. }
  assert (Full : forall b d, channel_ok b ->
            length (StreamBuffer.stored b) = 1024 ->
            StreamBuffer.xStreamBufferSend b d = (b, 0)).
  { intros b d [Hc _] Hl. apply send_when_full.
    unfold StreamBuffer.is_full, StreamBuffer.spaces.
    rewrite Hc, Hl. reflexivity. }
  split.
  { unfold StreamBuffer.xStreamBufferSend, StreamBuffer.spaces.
    destruct W as [-> _]. now rewrite length_firstn. }
  split; [now apply Full|].
  split.
  { pose proof (run_wf acts s Ws) as (H1 & H2 & _).
    split; [apply H1|apply H2]. }
  intro Hl. cbv zeta. rewrite uart_rx_complete_run. project.
  split; [|reflexivity].
  assert (Wu : channel_ok (uart_rx_stream s)) by apply Ws.
  rewrite (Full _ [c] Wu Hl). now destruct s.
Qed.

(** ** The completion latches *)

Lemma release_latch (sem : Semaphore.t) :
  binary sem ->
  Semaphore.count (fst (Semaphore.osSemaphoreRelease sem)) = 1
  /\ fst (Semaphore.osSemaphoreRelease
            (fst (Semaphore.osSemaphoreRelease sem)))
     = fst (Semaphore.osSemaphoreRelease sem)
  /\ (Semaphore.available sem = true ->
      Semaphore.osSemaphoreRelease sem = (sem, osErrorResource)).
Proof.
  destruct sem as [m c]. unfold binary.
  cbn [Semaphore.max_count Semaphore.count]. intros [-> Hc].
  destruct c as [|[|c]]; [| |lia]; cbn; repeat split; discriminate.
Qed.

(** C8. Each completion signal is a latch holding at most one token and
    is created holding it.  A wait either takes the token and returns ok,
    leaving none, or times out and changes nothing.  A release puts the
    token back; releasing a latch that already holds it changes nothing,
    so the count never exceeds one, in single steps and throughout any run
    of the system.  The completion callback and the error callback of a
    peripheral are the same release of the same latch. *)
Theorem completion_signal_is_binary_latch :
  forall (sem : Semaphore.t) (wake : option notification) (s : state)
         (acts : list action),
    binary sem ->
    wf_state s ->
    (* created available *)
    (uart_tx_sema initial_state = Semaphore.osSemaphoreNew 1 1
     /\ spi_tx_rx_sema initial_state = Semaphore.osSemaphoreNew 1 1
     /\ Semaphore.available (Semaphore.osSemaphoreNew 1 1) = true)
    (* acquire: ok or timeout *)
    /\ (let w := osSemaphoreAcquire uart_tx_sema set_uart_tx_sema uart_notify
                   wake s in
        (value w = osOK /\ Semaphore.count (uart_tx_sema (final w)) = 0)
        \/ (value w = osErrorTimeout /\ final w = s))
    /\ (let w := osSemaphoreAcquire spi_tx_rx_sema set_spi_tx_rx_sema
                   spi_notify wake s in
        (value w = osOK /\ Semaphore.count (spi_tx_rx_sema (final w)) = 0)
        \/ (value w = osErrorTimeout /\ final w = s))
    (* release: idempotent, never above one *)
    /\ (Semaphore.count (fst (Semaphore.osSemaphoreRelease sem)) = 1
        /\ fst (Semaphore.osSemaphoreRelease
                  (fst (Semaphore.osSemaphoreRelease sem)))
           = fst (Semaphore.osSemaphoreRelease sem)
        /\ (Semaphore.available sem = true ->
            Semaphore.osSemaphoreRelease sem = (sem, osErrorResource)))
    (* completion and error notifications release identically *)
    /\ (uart_tx_complete_callback s = uart_error_callback s
        /\ uart_error_callback s
           = (tt,
              set_uart_tx_sema
                (fst (Semaphore.osSemaphoreRelease (uart_tx_sema s))) s, [])
        /\ spi_tx_rx_complete_callback s = spi_error_callback s
        /\ spi_error_callback s
           = (tt,
              set_spi_tx_rx_sema
                (fst (Semaphore.osSemaphoreRelease (spi_tx_rx_sema s))) s,
              []))
    (* the count stays at most one throughout a run *)
    /\ (Semaphore.count (uart_tx_sema (final (run acts s))) <= 1
        /\ Semaphore.count (spi_tx_rx_sema (final (run acts s))) <= 1).
Proof.
  intros sem wake s acts B W.
  split; [repeat split|].
  split; [apply (uart_acquire_outcome wake s W)|].
  split; [apply (spi_acquire_outcome wake s W)|].
  split; [now apply release_latch|].
  split.
  { repeat split; apply release_sema_run. }
  pose proof (run_wf acts s W) as (_ & _ & [_ H3] & [_ H4]).
  now split.
Qed.

(** ** Start-up *)

Lemma HAL_is_ok_iff (st : HAL_StatusTypeDef) :
  HAL_is_ok st = true <-> st = HAL_OK.
Proof. destruct st; split; intro H; try reflexivity; discriminate. Qed.

Lemma uart_spi_start_success (ndebug : bool) (e : Start.env) :
  Start.succeeds e = true ->
  Start.uart_spi_start ndebug e Start.app_params Start.unset
  = Start.Returned 0%Z started_vars.
Proof.
  unfold Start.succeeds. intro H.
  repeat (apply andb_prop in H; destruct H as [H ?]).
  destruct e. cbn in *.
  repeat match goal with
         | H : HAL_is_ok _ = true |- _ => apply HAL_is_ok_iff in H
         end.
  subst. destruct ndebug; reflexivity.
Qed.

Lemma sbind_never_minus_one {A} (m : Start.Cmd A) (k : A -> Start.Cmd Z) :
  (forall a, never_minus_one (k a)) ->
  never_minus_one (Start.sbind m k).
Proof.
  unfold never_minus_one, Start.sbind. intros H v.
  destruct (m v) as [a v'| |]; [apply H| |]; discriminate.
Qed.

Lemma uart_spi_start_never_minus_one (ndebug : bool) (e : Start.env)
    (params : option Start.uart_spi_params_t) :
  never_minus_one (Start.uart_spi_start ndebug e params).
Proof.
  unfold Start.uart_spi_start.
  apply sbind_never_minus_one. intros _.
  destruct params as [p|]; [|intro v; discriminate].
  repeat (apply sbind_never_minus_one; intro).
  intro v. discriminate.
Qed.

Lemma boot_started : boot started_vars = Some initial_state.
Proof. reflexivity. Qed.

(** C9. When every registration, allocation and task creation succeeds,
    [uart_spi_start] installs the three UART and the two SPI callbacks,
    creates the two streams and the two semaphores, starts the two tasks
    and returns 0.  When one of them fails the function does not return -1
    as its header promises: with assertions enabled the failed [assert]
    stops the program inside the function, and with NDEBUG the failure is
    ignored and the function returns 0.  In no case is -1 returned. *)
Theorem uart_spi_start_failure_is_not_minus_one :
  (* the failing inputs *)
  Start.uart_spi_start false registration_refused Start.app_params Start.unset
  = Start.AssertionFailed
  /\ Start.uart_spi_start false stream_not_allocated Start.app_params
       Start.unset
     = Start.AssertionFailed
  /\ Start.uart_spi_start false task_not_started Start.app_params Start.unset
     = Start.AssertionFailed
  /\ Start.returned_value
       (Start.uart_spi_start true registration_refused Start.app_params
          Start.unset)
     = Some 0%Z
  /\ Start.returned_value
       (Start.uart_spi_start true stream_not_allocated Start.app_params
          Start.unset)
     = Some 0%Z
  (* -1 is never returned *)
  /\ (forall ndebug e params v,
        Start.returned_value (Start.uart_spi_start ndebug e params v)
        <> Some (-1)%Z)
  (* the successful start *)
  /\ (forall ndebug,
        Start.uart_spi_start ndebug Start.all_ok Start.app_params Start.unset
        = Start.Returned 0%Z started_vars)
  /\ boot started_vars = Some initial_state.
Proof.
  repeat split; try reflexivity.
  - intros ndebug e params v. apply uart_spi_start_never_minus_one.
  - intro ndebug. now apply uart_spi_start_success.
Qed.

(** ** Concrete runs *)

Example mixed_run_forwards :
  forwarded (trace (run mixed_run initial_state))
  = [x41; x00; x42; x43; x00; x44; x00].
Proof. vm_compute. reflexivity. Qed.

Example stalled_state_latches :
  Semaphore.count (uart_tx_sema stalled_state) = 0
  /\ Semaphore.count (spi_tx_rx_sema stalled_state) = 0
  /\ StreamBuffer.stored (spi_rx_stream stalled_state) = [x42; x00]
  /\ message_receiving stalled_state = false.
Proof. vm_compute. repeat split. Qed.

(** ** The theorems at concrete inputs *)

Lemma message_across_chunk_boundary_witness :
  full_transfers [long_first; long_second] (spi_task_entered initial_state)
  /\ length long_message = 130
  /\ Forall (fun c => c <> x00) long_message
  /\ spi_rx_data long_first ++ spi_rx_data long_second
     = repeat x00 5 ++ (long_message ++ [x00]) ++ repeat x00 (125 - 5)
  /\ forwarded (trace (spi_task [long_first; long_second] initial_state))
     = long_message ++ [x00]
  /\ message_receiving (final (spi_task [long_first] initial_state)) = true.
Proof.
  assert (H2 : full_transfers [long_first; long_second]
                 (spi_task_entered initial_state))
    by (vm_compute; repeat split).
  assert (H3 : length long_message = 130) by reflexivity.
  assert (H4 : Forall (fun c => c <> x00) long_message)
    by (repeat (constructor; [discriminate|]); constructor).
  assert (H5 : spi_rx_data long_first ++ spi_rx_data long_second
               = repeat x00 5 ++ (long_message ++ [x00])
                 ++ repeat x00 (125 - 5))
    by reflexivity.
  pose proof (message_across_chunk_boundary long_first long_second
                initial_state long_message 5 H2 H3 H4 H5)
    as (C1 & _ & C3 & _).
  exact (conj H2 (conj H3 (conj H4 (conj H5 (conj C1 C3))))).
Defined.

Lemma hello_round_trip_witness :
  full_transfers hello_script (spi_task_entered initial_state)
  /\ received hello_script = repeat x00 125 ++ HELLO ++ repeat x00 125
  /\ length HELLO <= StreamBuffer.spaces (spi_rx_stream initial_state)
  /\ forwarded (trace (spi_task hello_script initial_state)) = HELLO
  /\ StreamBuffer.stored
       (spi_rx_stream (final (spi_task hello_script initial_state)))
     = HELLO.
Proof.
  assert (H2 : full_transfers hello_script (spi_task_entered initial_state))
    by (vm_compute; repeat split).
  assert (H3 : received hello_script
               = repeat x00 125 ++ HELLO ++ repeat x00 125)
    by reflexivity.
  assert (H4 : length HELLO
               <= StreamBuffer.spaces (spi_rx_stream initial_state))
    by (vm_compute; lia).
  pose proof (hello_round_trip hello_script initial_state 125 125
                H2 H3 H4) as (C1 & _ & C3 & _).
  exact (conj H2 (conj H3 (conj H4 (conj C1 C3)))).
Defined.

Lemma completion_timeout_witness :
  StreamBuffer.stored (spi_rx_stream stalled_state) <> []
  /\ HAL_is_ok (uart_start_status silent_uart) = true
  /\ value (uart_waited silent_uart stalled_state) = osErrorTimeout
  /\ HAL_is_ok (spi_start_status silent_spi) = true
  /\ value (spi_waited silent_spi stalled_state) = osErrorTimeout
  /\ uart_task_iteration silent_uart stalled_state
     = Some (tt, uart_loaded stalled_state,
             [uart_start_event silent_uart stalled_state;
              EvUartAcquire osErrorTimeout; EvUartAbortTransmit]).
Proof.
  assert (H1 : StreamBuffer.stored (spi_rx_stream stalled_state) <> [])
    by (vm_compute; discriminate).
  assert (H2 : HAL_is_ok (uart_start_status silent_uart) = true)
    by reflexivity.
  assert (H3 : value (uart_waited silent_uart stalled_state)
               = osErrorTimeout)
    by (vm_compute; reflexivity).
  assert (H4 : HAL_is_ok (spi_start_status silent_spi) = true)
    by reflexivity.
  assert (H5 : value (spi_waited silent_spi stalled_state) = osErrorTimeout)
    by (vm_compute; reflexivity).
  pose proof (completion_timeout_aborts_and_goes_on silent_uart silent_spi
                stalled_state stalled_state H1 H2 H3 H4 H5) as (C1 & _).
  exact (conj H1 (conj H2 (conj H3 (conj H4 (conj H5 C1))))).
Defined.

(** C5 as stated fails for [spi_task]: in the stalled state a transaction
    starts, its completion signal times out, the transaction is aborted,
    and the pass still forwards what the receive buffer holds, here the
    byte ['C'] and, after it, a terminator. *)
Lemma timed_out_spi_chunk_is_forwarded :
  HAL_is_ok (spi_start_status silent_spi) = true
  /\ value (spi_waited silent_spi stalled_state) = osErrorTimeout
  /\ trace (spi_task_iteration silent_spi stalled_state)
     = [EvSpiTransmitReceive (repeat x00 128) 128 HAL_OK;
        EvSpiAcquire osErrorTimeout; EvSpiAbort;
        EvSpiRxSend x43; EvSpiRxSend x00]
  /\ StreamBuffer.stored
       (spi_rx_stream (final (spi_task_iteration silent_spi stalled_state)))
     = StreamBuffer.stored (spi_rx_stream stalled_state) ++ [x43; x00]
  /\ ~ (forall (e : spi_env) (s : state),
          HAL_is_ok (spi_start_status e) = true ->
          value (spi_waited e s) = osErrorTimeout ->
          forwarded (trace (spi_task_iteration e s)) = []
          /\ spi_rx_stream (final (spi_task_iteration e s))
             = spi_rx_stream s).
Proof.
  split; [reflexivity|].
  split; [vm_compute; reflexivity|].
  split; [vm_compute; reflexivity|].
  split; [vm_compute; reflexivity|].
  intro H.
  assert (T : value (spi_waited silent_spi stalled_state) = osErrorTimeout)
    by (vm_compute; reflexivity).
  destruct (H silent_spi stalled_state eq_refl T) as [F _].
  vm_compute in F. discriminate F.
Qed.

Lemma start_failure_witness :
  StreamBuffer.stored (spi_rx_stream stalled_state) <> []
  /\ value (uart_tx_async busy_uart (length (uart_consumed stalled_state))
              (uart_loaded stalled_state)) <> 0%Z
  /\ value (spi_tx_rx busy_spi (spi_length initial_state)
              (spi_loaded initial_state)) <> 0%Z
  /\ trace (spi_task_iteration busy_spi initial_state)
     = [EvSpiTransmitReceive (repeat x00 128) 128 HAL_BUSY]
  /\ uart_task_iteration busy_uart stalled_state
     = Some (tt,
             set_chunk_buff
               (write_prefix (uart_consumed stalled_state)
                  (chunk_buff stalled_state))
               (set_spi_rx_stream
                  (StreamBuffer.mk
                     (StreamBuffer.capacity (spi_rx_stream stalled_state))
                     (skipn 128
                        (StreamBuffer.stored (spi_rx_stream stalled_state))))
                  stalled_state),
             [EvUartTransmit (uart_consumed stalled_state)
                (length (uart_consumed stalled_state))
                (uart_start_status busy_uart)]).
Proof.
  assert (H1 : StreamBuffer.stored (spi_rx_stream stalled_state) <> [])
    by (vm_compute; discriminate).
  assert (H2 : value (uart_tx_async busy_uart
                        (length (uart_consumed stalled_state))
                        (uart_loaded stalled_state)) <> 0%Z)
    by (vm_compute; discriminate).
  assert (H3 : value (spi_tx_rx busy_spi (spi_length initial_state)
                        (spi_loaded initial_state)) <> 0%Z)
    by (vm_compute; discriminate).
  pose proof (start_failure_drops_chunk busy_uart busy_spi stalled_state
                initial_state H1 H2 H3) as (C1 & C2).
  assert (C3 : trace (spi_task_iteration busy_spi initial_state)
               = [EvSpiTransmitReceive (repeat x00 128) 128 HAL_BUSY])
    by (rewrite C2; reflexivity).
  exact (conj H1 (conj H2 (conj H3 (conj C3 C1)))).
Defined.

Lemma byte_channel_witness :
  channel_ok (StreamBuffer.xStreamBufferCreate 1024 1)
  /\ wf_state initial_state
  /\ StreamBuffer.xStreamBufferSend (StreamBuffer.xStreamBufferCreate 1024 1)
       [x41; x42]
     = (StreamBuffer.mk 1024 [x41; x42], 2)
  /\ length (StreamBuffer.stored
               (spi_rx_stream (final (run mixed_run initial_state))))
     <= 1024.
Proof.
  assert (H1 : channel_ok (StreamBuffer.xStreamBufferCreate 1024 1))
    by (unfold channel_ok; cbn; split; [reflexivity|lia]).
  assert (H2 : wf_state initial_state)
    by (unfold wf_state, channel_ok, binary; cbn; repeat split; lia).
  pose proof (byte_channel_fifo_bounded_lossy
                [Produce [x41; x42]; Consume 1]
                (StreamBuffer.xStreamBufferCreate 1024 1) [x41; x42]
                mixed_run initial_state x61 HAL_OK H1 H2)
    as (_ & _ & C3 & _ & (_ & C5) & _).
  exact (conj H1 (conj H2 (conj C3 C5))).
Defined.

Lemma completion_signal_witness :
  binary (Semaphore.osSemaphoreNew 1 1)
  /\ wf_state initial_state
  /\ fst (Semaphore.osSemaphoreRelease (Semaphore.osSemaphoreNew 1 1))
     = Semaphore.osSemaphoreNew 1 1
  /\ Semaphore.count (spi_tx_rx_sema (final (run mixed_run initial_state)))
     <= 1.
Proof.
  assert (H1 : binary (Semaphore.osSemaphoreNew 1 1))
    by (unfold binary; cbn; split; [reflexivity|lia]).
  assert (H2 : wf_state initial_state)
    by (unfold wf_state, channel_ok, binary; cbn; repeat split; lia).
  pose proof (completion_signal_is_binary_latch
                (Semaphore.osSemaphoreNew 1 1) None initial_state mixed_run
                H1 H2)
    as (_ & _ & _ & (_ & _ & C4) & _ & (_ & C6)).
  assert (C4' : fst (Semaphore.osSemaphoreRelease
                       (Semaphore.osSemaphoreNew 1 1))
                = Semaphore.osSemaphoreNew 1 1)
    by (rewrite (C4 eq_refl); reflexivity).
  exact (conj H1 (conj H2 (conj C4' C6))).
Defined.

Lemma forwarded_zero_follows_nonzero_witness :
  message_receiving initial_state = false
  /\ well_framed (forwarded (trace (run mixed_run initial_state))).
Proof.
  assert (H1 : message_receiving initial_state = false) by reflexivity.
  split; [exact H1|].
  exact (proj1 (forwarded_zero_follows_nonzero mixed_run initial_state H1)).
Defined.

(** * Further properties of the module *)

(** ** Who touches what *)

Lemma forallb_sends (out : list byte) :
  forallb is_spi_event (map EvSpiRxSend out) = true.
Proof. induction out as [|c out IH]; [reflexivity|exact IH]. Qed.

Lemma spi_iteration_frame (e : spi_env) (s : state) :
  let r := spi_task_iteration e s in
  uart_tx_sema (final r) = uart_tx_sema s
  /\ uart_rx_byte (final r) = uart_rx_byte s
  /\ chunk_buff (final r) = chunk_buff s
  /\ forallb is_spi_event (trace r) = true.
Proof.
  cbv zeta. destruct (HAL_is_ok (spi_start_status e)) eqn:H.
  - rewrite (spi_iteration_started e s H). project.
    destruct (spi_waited_frame e s) as [-> F].
    unfold filtered. rewrite F. unfold spi_received, spi_loaded.
    repeat split; try (now destruct s).
    cbn [app forallb spi_start_event is_spi_event andb].
    destruct (os_is_ok (value (spi_waited e s)));
      cbn [app forallb is_spi_event andb]; apply forallb_sends.
  - rewrite (spi_iteration_rejected e s H). project.
    unfold spi_loaded. repeat split; now destruct s.
Qed.

Lemma uart_body_frame (e : uart_env) (s : state) :
  let r := uart_task_body e s in
  uart_rx_stream (final r) = uart_rx_stream s
  /\ spi_tx_rx_sema (final r) = spi_tx_rx_sema s
  /\ message_receiving (final r) = message_receiving s
  /\ chunk_buff_tx (final r) = chunk_buff_tx s
  /\ chunk_buff_rx (final r) = chunk_buff_rx s
  /\ uart_rx_byte (final r) = uart_rx_byte s
  /\ forallb is_uart_tx_event (trace r) = true.
Proof.
  cbv zeta. destruct (uart_consumed s) as [|c l] eqn:E.
  - rewrite (uart_body_empty e s E). project. unfold uart_loaded.
    repeat split; now destruct s.
  - assert (Hne : uart_consumed s <> []) by (rewrite E; discriminate).
    destruct (HAL_is_ok (uart_start_status e)) eqn:H.
    + rewrite (uart_body_started e s Hne H). project.
      destruct (uart_waited_frame e s) as [-> ->]. unfold uart_loaded.
      repeat split; try (now destruct s).
      now destruct (os_is_ok (value (uart_waited e s))).
    + rewrite (uart_body_rejected e s Hne H). project. unfold uart_loaded.
      repeat split; now destruct s.
Qed.

Lemma perform_frame :
  forall (a : action) (s : state),
    let r := perform a s in
    match a with
    | SpiPass _ =>
        uart_tx_sema (final r) = uart_tx_sema s
        /\ uart_rx_byte (final r) = uart_rx_byte s
        /\ chunk_buff (final r) = chunk_buff s
        /\ forallb is_spi_event (trace r) = true
    | UartPass _ =>
        uart_rx_stream (final r) = uart_rx_stream s
        /\ spi_tx_rx_sema (final r) = spi_tx_rx_sema s
        /\ message_receiving (final r) = message_receiving s
        /\ chunk_buff_tx (final r) = chunk_buff_tx s
        /\ chunk_buff_rx (final r) = chunk_buff_rx s
        /\ uart_rx_byte (final r) = uart_rx_byte s
        /\ forallb is_uart_tx_event (trace r) = true
    | IrqUartTxComplete | IrqUartError =>
        final r = set_uart_tx_sema (uart_tx_sema (final r)) s
        /\ trace r = []
    | IrqSpiTxRxComplete | IrqSpiError =>
        final r = set_spi_tx_rx_sema (spi_tx_rx_sema (final r)) s
        /\ trace r = []
    | IrqUartRxComplete c _ =>
        final r
        = set_uart_rx_stream (uart_rx_stream (final r))
            (set_uart_rx_byte c s)
        /\ forallb is_uart_rx_event (trace r) = true
    end.
Proof.
  intros a s. cbv zeta. destruct a as [e|e| | |c rearm| |].
  - apply spi_iteration_frame.
  - cbn [perform]. unfold uart_task_iteration.
    destruct (StreamBuffer.would_block _ _);
      [project; repeat split|apply uart_body_frame].
  - cbn [perform]. unfold uart_tx_complete_callback.
    rewrite release_sema_run. project. split; [now destruct s|reflexivity].
  - cbn [perform]. unfold uart_error_callback.
    rewrite release_sema_run. project. split; [now destruct s|reflexivity].
  - rewrite uart_rx_complete_run. project.
    split; [now destruct s|reflexivity].
  - cbn [perform]. unfold spi_tx_rx_complete_callback.
    rewrite release_sema_run. project. split; [now destruct s|reflexivity].
  - cbn [perform]. unfold spi_error_callback.
    rewrite release_sema_run. project. split; [now destruct s|reflexivity].
Qed.

(** X1. Each task and each callback keeps to its own resources.  A pass
    of [spi_task] leaves the UART semaphore, [uart_rx_byte] and the buffer
    of [uart_task] alone and asks nothing of the UART; a pass of
    [uart_task] leaves the UART-to-SPI stream, the SPI semaphore, the
    framing flag and the buffers of [spi_task] alone and asks nothing of
    the SPI peripheral; a transmit-complete or error callback changes
    nothing but its own semaphore and asks nothing of any peripheral; the
    receive-complete callback changes nothing but [uart_rx_byte] and the
    UART-to-SPI stream. *)
Theorem each_action_keeps_to_its_resources :
  forall (a : action) (s : state),
    let r := perform a s in
    match a with
    | SpiPass _ =>
        uart_tx_sema (final r) = uart_tx_sema s
        /\ uart_rx_byte (final r) = uart_rx_byte s
        /\ chunk_buff (final r) = chunk_buff s
        /\ forallb is_spi_event (trace r) = true
    | UartPass _ =>
        uart_rx_stream (final r) = uart_rx_stream s
        /\ spi_tx_rx_sema (final r) = spi_tx_rx_sema s
        /\ message_receiving (final r) = message_receiving s
        /\ chunk_buff_tx (final r) = chunk_buff_tx s
        /\ chunk_buff_rx (final r) = chunk_buff_rx s
        /\ uart_rx_byte (final r) = uart_rx_byte s
        /\ forallb is_uart_tx_event (trace r) = true
    | IrqUartTxComplete | IrqUartError =>
        final r = set_uart_tx_sema (uart_tx_sema (final r)) s
        /\ trace r = []
    | IrqSpiTxRxComplete | IrqSpiError =>
        final r = set_spi_tx_rx_sema (spi_tx_rx_sema (final r)) s
        /\ trace r = []
    | IrqUartRxComplete c _ =>
        final r
        = set_uart_rx_stream (uart_rx_stream (final r))
            (set_uart_rx_byte c s)
        /\ forallb is_uart_rx_event (trace r) = true
    end.
Proof. exact perform_frame. Qed.

(** ** A pass of [uart_task] *)

Lemma uart_iteration_closed :
  forall (e : uart_env) (s : state),
    let pending := StreamBuffer.stored (spi_rx_stream s) in
    match pending with
    | [] => uart_task_iteration e s = None
    | _ :: _ =>
        exists r,
          uart_task_iteration e s = Some r
          /\ hd_error (trace r)
             = Some (EvUartTransmit (firstn 128 pending)
                       (Nat.min 128 (length pending)) (uart_start_status e))
          /\ uart_offered (trace r) = firstn 128 pending
          /\ StreamBuffer.stored (spi_rx_stream (final r))
             = skipn 128 pending
          /\ StreamBuffer.capacity (spi_rx_stream (final r))
             = StreamBuffer.capacity (spi_rx_stream s)
    end.
Proof.
  intros e s. cbv zeta.
  destruct (StreamBuffer.stored (spi_rx_stream s)) as [|c l] eqn:E.
  - unfold uart_task_iteration, StreamBuffer.would_block. now rewrite E.
  - assert (Hdata : StreamBuffer.stored (spi_rx_stream s) <> [])
      by (rewrite E; discriminate).
    destruct (uart_iteration_runs e s Hdata) as [-> Hne].
    exists (uart_task_body e s). split; [reflexivity|].
    assert (C : uart_consumed s = firstn 128 (c :: l))
      by (unfold uart_consumed, StreamBuffer.xStreamBufferReceive;
          cbn [snd]; now rewrite E).
    assert (L : forall x, spi_rx_stream (uart_loaded x)
                          = fst (StreamBuffer.xStreamBufferReceive
                                   (spi_rx_stream x) CHUNK_BUFF_SIZE))
      by (intro x; now destruct x).
    destruct (HAL_is_ok (uart_start_status e)) eqn:H.
    + rewrite (uart_body_started e s Hne H). project.
      destruct (uart_waited_frame e s) as [-> F]. rewrite F.
      unfold uart_start_event. rewrite C, length_firstn.
      cbn [app hd_error].
      assert (O : forall d n st,
                uart_offered
                  (EvUartTransmit d n st
                   :: EvUartAcquire (value (uart_waited e s))
                   :: (if os_is_ok (value (uart_waited e s)) then []
                       else [EvUartAbortTransmit])) = d)
        by (intros d n st; destruct (os_is_ok (value (uart_waited e s)));
            cbn; apply app_nil_r).
      rewrite O.
      assert (S : spi_rx_stream
                    (set_uart_tx_sema
                       (uart_tx_sema (final (uart_waited e s)))
                       (uart_loaded s))
                  = spi_rx_stream (uart_loaded s))
        by now destruct (uart_loaded s).
      rewrite S, L. unfold StreamBuffer.xStreamBufferReceive.
      cbn [fst StreamBuffer.stored StreamBuffer.capacity]. rewrite E.
      repeat split.
    + rewrite (uart_body_rejected e s Hne H). project.
      unfold uart_start_event. rewrite C, length_firstn.
      cbn [app hd_error uart_offered]. rewrite app_nil_r, L.
      unfold StreamBuffer.xStreamBufferReceive.
      cbn [fst StreamBuffer.stored StreamBuffer.capacity]. rewrite E.
      repeat split.
Qed.

(** X2. A pass of [uart_task] sleeps while the SPI-to-UART stream is
    empty.  Otherwise it hands the UART exactly one transmit request,
    carrying the oldest bytes of the stream, at most 128 of them, in
    order and unmodified; those bytes leave the stream and the rest stays
    behind in order, whether or not the transmit starts or completes. *)
Theorem uart_pass_transmits_oldest_chunk :
  forall (e : uart_env) (s : state),
    let pending := StreamBuffer.stored (spi_rx_stream s) in
    match pending with
    | [] => uart_task_iteration e s = None
    | _ :: _ =>
        exists r,
          uart_task_iteration e s = Some r
          /\ hd_error (trace r)
             = Some (EvUartTransmit (firstn 128 pending)
                       (Nat.min 128 (length pending)) (uart_start_status e))
          /\ uart_offered (trace r) = firstn 128 pending
          /\ StreamBuffer.stored (spi_rx_stream (final r))
             = skipn 128 pending
          /\ StreamBuffer.capacity (spi_rx_stream (final r))
             = StreamBuffer.capacity (spi_rx_stream s)
    end.
Proof. exact uart_iteration_closed. Qed.

(** ** When a pass aborts *)

Lemma in_sends_is_send (ev : event) (out : list byte) :
  In ev (map EvSpiRxSend out) -> exists c, ev = EvSpiRxSend c.
Proof.
  intro H. apply in_map_iff in H. destruct H as (c & <- & _). now exists c.
Qed.

(** The outcome of a wait on a latch. *)
Lemma spi_waited_value (e : spi_env) (s : state) :
  binary (spi_tx_rx_sema s) ->
  value (spi_waited e s)
  = match Semaphore.count (spi_tx_rx_sema s), spi_wake e with
    | O, None => osErrorTimeout
    | _, _ => osOK
    end.
Proof.
  intros [Hm Hc]. unfold spi_waited, osSemaphoreAcquire. step.
  assert (S : spi_tx_rx_sema (spi_received e s) = spi_tx_rx_sema s)
    by now destruct s.
  rewrite S. unfold Semaphore.try_acquire.
  destruct (Semaphore.count (spi_tx_rx_sema s)) as [|n] eqn:C.
  - destruct (spi_wake e) as [n|]; [|reflexivity].
    assert (N : spi_notify n = release_sema spi_tx_rx_sema set_spi_tx_rx_sema)
      by now destruct n.
    rewrite N, bind_run, release_sema_run. project. step.
    assert (R : spi_tx_rx_sema
                  (set_spi_tx_rx_sema
                     (fst (Semaphore.osSemaphoreRelease
                             (spi_tx_rx_sema (spi_received e s))))
                     (spi_received e s))
                = Semaphore.mk 1 1).
    { destruct (spi_received e s). cbn in *. subst.
      unfold Semaphore.osSemaphoreRelease. rewrite C, Hm. reflexivity. }
    rewrite R. cbn [Semaphore.count]. step. reflexivity.
  - step. reflexivity.
Qed.

Lemma uart_waited_value (e : uart_env) (s : state) :
  binary (uart_tx_sema s) ->
  value (uart_waited e s)
  = match Semaphore.count (uart_tx_sema s), uart_wake e with
    | O, None => osErrorTimeout
    | _, _ => osOK
    end.
Proof.
  intros [Hm Hc]. unfold uart_waited, osSemaphoreAcquire. step.
  assert (S : uart_tx_sema (uart_loaded s) = uart_tx_sema s)
    by now destruct s.
  rewrite S. unfold Semaphore.try_acquire.
  destruct (Semaphore.count (uart_tx_sema s)) as [|n] eqn:C.
  - destruct (uart_wake e) as [n|]; [|reflexivity].
    assert (N : uart_notify n = release_sema uart_tx_sema set_uart_tx_sema)
      by now destruct n.
    rewrite N, bind_run, release_sema_run. project. step.
    assert (R : uart_tx_sema
                  (set_uart_tx_sema
                     (fst (Semaphore.osSemaphoreRelease
                             (uart_tx_sema (uart_loaded s))))
                     (uart_loaded s))
                = Semaphore.mk 1 1).
    { destruct (uart_loaded s). cbn in *. subst.
      unfold Semaphore.osSemaphoreRelease. rewrite C, Hm. reflexivity. }
    rewrite R. cbn [Semaphore.count]. step. reflexivity.
  - step. reflexivity.
Qed.

(** X3. With latches that hold at most one token, a pass aborts the
    operation it started exactly when the operation did start, the latch
    was empty when the pass began to wait, and no notification came in
    time.  In particular the first wait after the start-up, on a latch
    created full, returns at once and never leads to an abort, whether or
    not the peripheral has signalled anything. *)
Theorem a_pass_aborts_exactly_on_an_empty_silent_latch :
  forall (es : spi_env) (eu : uart_env) (s : state),
    wf_state s ->
    (In EvSpiAbort (trace (spi_task_iteration es s))
     <-> (HAL_is_ok (spi_start_status es) = true
          /\ Semaphore.count (spi_tx_rx_sema s) = 0
          /\ spi_wake es = None))
    /\ (In EvUartAbortTransmit (trace (perform (UartPass eu) s))
        <-> (StreamBuffer.stored (spi_rx_stream s) <> []
             /\ HAL_is_ok (uart_start_status eu) = true
             /\ Semaphore.count (uart_tx_sema s) = 0
             /\ uart_wake eu = None)).
Proof.
  intros es eu s (W1 & W2 & Bu & Bs). split.
  - destruct (HAL_is_ok (spi_start_status es)) eqn:H.
    + rewrite (spi_iteration_started es s H). project.
      destruct (spi_waited_frame es s) as [-> _].
      rewrite (spi_waited_value es s Bs). unfold spi_start_event.
      destruct (Semaphore.count (spi_tx_rx_sema s)) as [|n];
        destruct (spi_wake es) as [w|]; cbn [os_is_ok app In]; split;
        try (intros (_ & A & B); discriminate);
        try (intros [A|[A|A]]; try discriminate;
             apply in_sends_is_send in A; destruct A as [c A];
             discriminate).
      * intros _. repeat split.
      * intros _. right. right. now left.
    + rewrite (spi_iteration_rejected es s H). project.
      unfold spi_start_event. cbn [In]. split.
      * intros [A|[]]. discriminate.
      * intros (A & _). discriminate.
  - cbn [perform].
    destruct (StreamBuffer.stored (spi_rx_stream s)) as [|c l] eqn:E.
    + unfold uart_task_iteration, StreamBuffer.would_block. rewrite E.
      project. cbn [In]. split; [intros []|intros (A & _); now elim A].
    + assert (Hdata : StreamBuffer.stored (spi_rx_stream s) <> [])
        by (rewrite E; discriminate).
      destruct (uart_iteration_runs eu s Hdata) as [-> Hne].
      destruct (HAL_is_ok (uart_start_status eu)) eqn:H.
      * rewrite (uart_body_started eu s Hne H). project.
        destruct (uart_waited_frame eu s) as [-> _].
        rewrite (uart_waited_value eu s Bu). unfold uart_start_event.
        destruct (Semaphore.count (uart_tx_sema s)) as [|n];
          destruct (uart_wake eu) as [w|]; cbn [os_is_ok app In]; split;
          try (intros (_ & _ & A & B); discriminate);
          try (intros [A|[A|A]]; try discriminate; now elim A).
        intros _. right. right. now left.
      * rewrite (uart_body_rejected eu s Hne H). project.
        unfold uart_start_event. cbn [In]. split.
        -- intros [A|[]]. discriminate.
        -- intros (_ & A & _). discriminate.
Qed.

(** ** What the filter keeps and what it drops *)

Lemma output_keeps_payload (rx : list byte) : forall inside : bool,
  filter nonzero (FramingSpec.output inside rx) = filter nonzero rx.
Proof.
  unfold FramingSpec.output.
  induction rx as [|c rx IH]; intro inside; [reflexivity|].
  cbn [FramingSpec.framing_filter fst snd filter].
  unfold FramingSpec.filter_step.
  destruct (nonzero c) eqn:E; cbn [fst snd app filter].
  - rewrite E, IH. reflexivity.
  - destruct inside; cbn [fst snd app filter]; rewrite ?E; apply IH.
Qed.

Lemma output_length (rx : list byte) : forall inside : bool,
  length (FramingSpec.output inside rx) <= length rx.
Proof.
  unfold FramingSpec.output.
  induction rx as [|c rx IH]; intro inside; [apply le_n|].
  cbn [FramingSpec.framing_filter fst snd length].
  unfold FramingSpec.filter_step.
  destruct (nonzero c); [|destruct inside]; cbn [fst snd app length];
    match goal with
    | |- context [FramingSpec.framing_filter ?i rx] => specialize (IH i)
    end; lia.
Qed.

(** The bytes scanned by an accepted pass: what the peripheral stored,
    cut to the transaction length, followed by what the receive buffer
    still held from earlier transactions. *)
Lemma spi_pass_scanned_started (e : spi_env) (s : state) :
  HAL_is_ok (spi_start_status e) = true ->
  spi_length s <= length (chunk_buff_rx s) ->
  spi_pass_scanned e s
  = firstn (spi_length s)
      (firstn (spi_length s) (spi_rx_data e)
       ++ skipn (length (firstn (spi_length s) (spi_rx_data e)))
            (chunk_buff_rx s)).
Proof.
  intros H L. unfold spi_pass_scanned. rewrite H.
  unfold rx_bytes, rx_bytes_from. rewrite spi_waited_chunk_buff_rx.
  unfold write_prefix. apply map_nth_seq.
  rewrite length_app, length_skipn, length_firstn. lia.
Qed.

Lemma spi_pass_scanned_exact (e : spi_env) (s : state) :
  HAL_is_ok (spi_start_status e) = true ->
  length (spi_rx_data e) = spi_length s ->
  spi_pass_scanned e s = spi_rx_data e.
Proof.
  intros H L. unfold spi_pass_scanned. rewrite H.
  unfold rx_bytes, rx_bytes_from. rewrite spi_waited_chunk_buff_rx.
  rewrite <- L, firstn_all. unfold write_prefix. apply map_nth_seq_app.
Qed.

(** X4. In a pass whose transaction is accepted and fills the whole
    transaction length, every non-zero byte the peripheral delivered is
    sent to the SPI-to-UART stream exactly once and in order: only zero
    bytes are ever dropped, nothing is invented, and the pass sends no
    more bytes than it received. *)
Theorem spi_pass_forwards_every_payload_byte :
  forall (e : spi_env) (s : state),
    HAL_is_ok (spi_start_status e) = true ->
    length (spi_rx_data e) = spi_length s ->
    let out := forwarded (trace (spi_task_iteration e s)) in
    filter nonzero out = filter nonzero (spi_rx_data e)
    /\ length out <= length (spi_rx_data e).
Proof.
  intros e s H L. cbv zeta.
  destruct (spi_iteration_forwarded e s) as (-> & _).
  rewrite (spi_pass_scanned_exact e s H L).
  split; [apply output_keeps_payload|apply output_length].
Qed.

(** X5. When the peripheral stored fewer bytes than the transaction is
    long, as after an aborted transfer, the pass still scans the full
    transaction length: the bytes that arrived, followed by what the
    static receive buffer held at those positions from earlier
    transactions.  Those stale bytes go through the framing filter again
    and can be forwarded a second time. *)
Theorem short_transfer_rescans_stale_bytes :
  forall (e : spi_env) (s : state),
    HAL_is_ok (spi_start_status e) = true ->
    length (chunk_buff_rx s) = 128 ->
    length (spi_rx_data e) <= spi_length s ->
    let arrived := spi_rx_data e in
    let stale :=
      firstn (spi_length s - length arrived)
        (skipn (length arrived) (chunk_buff_rx s)) in
    let r := spi_task_iteration e s in
    chunk_buff_rx (final r)
    = arrived ++ skipn (length arrived) (chunk_buff_rx s)
    /\ forwarded (trace r)
       = FramingSpec.output (message_receiving s) (arrived ++ stale)
    /\ filter nonzero (forwarded (trace r))
       = filter nonzero arrived ++ filter nonzero stale.
Proof.
  intros e s H Lb La. cbv zeta.
  assert (Ll : spi_length s <= 128).
  { unfold spi_length, spi_consumed, StreamBuffer.xStreamBufferReceive.
    cbn [snd]. rewrite length_firstn.
    destruct (Nat.min CHUNK_BUFF_SIZE _ =? 0); unfold CHUNK_BUFF_SIZE; lia. }
  assert (F : firstn (spi_length s) (spi_rx_data e) = spi_rx_data e)
    by (apply firstn_all2; exact La).
  assert (Sc : spi_pass_scanned e s
               = spi_rx_data e
                 ++ firstn (spi_length s - length (spi_rx_data e))
                      (skipn (length (spi_rx_data e)) (chunk_buff_rx s))).
  { rewrite (spi_pass_scanned_started e s H) by lia.
    rewrite F, firstn_app.
    rewrite (firstn_all2 (spi_rx_data e)) by exact La. reflexivity. }
  destruct (spi_iteration_forwarded e s) as (-> & _). rewrite Sc.
  split; [|split; [reflexivity|]].
  - rewrite (spi_iteration_started e s H). project.
    unfold filtered. cbn [chunk_buff_rx set_message_receiving
      set_spi_rx_stream].
    rewrite spi_waited_chunk_buff_rx, F. reflexivity.
  - rewrite output_keeps_payload. apply filter_app.
Qed.

Lemma framing_filter_idempotent (rx : list byte) : forall inside : bool,
  FramingSpec.framing_filter inside (FramingSpec.output inside rx)
  = FramingSpec.framing_filter inside rx.
Proof.
  induction rx as [|c rx IH]; intro inside; [reflexivity|].
  unfold FramingSpec.output. cbn [FramingSpec.framing_filter].
  unfold FramingSpec.filter_step.
  destruct (nonzero c) eqn:E.
  - cbn [fst snd app FramingSpec.framing_filter].
    unfold FramingSpec.filter_step. rewrite E. cbn [fst snd app].
    fold (FramingSpec.output true rx). rewrite IH. reflexivity.
  - destruct inside; cbn [fst snd app].
    + cbn [FramingSpec.framing_filter].
      unfold FramingSpec.filter_step. rewrite E. cbn [fst snd app].
      fold (FramingSpec.output false rx). rewrite IH. reflexivity.
    + fold (FramingSpec.output false rx). rewrite IH.
      unfold FramingSpec.output.
      now destruct (FramingSpec.framing_filter false rx).
Qed.

(** X6. A second retranslator downstream sees the stream unchanged: when
    the bytes forwarded by one scan are what another scan reads, with the
    same framing flag at the start, the second scan forwards exactly the
    same bytes and ends with the same flag. *)
Theorem refiltering_changes_nothing :
  forall (s s' : state) (length : nat),
    let out := forwarded (trace (scan_rx length s)) in
    message_receiving s' = message_receiving s ->
    firstn (List.length out) (chunk_buff_rx s') = out ->
    forwarded (trace (scan_rx (List.length out) s')) = out
    /\ message_receiving (final (scan_rx (List.length out) s'))
       = message_receiving (final (scan_rx length s)).
Proof.
  intros s s' len. cbv zeta.
  unfold scan_rx. rewrite !scan_from_filtered. project.
  rewrite !forwarded_sends, !message_receiving_filtered.
  fold (rx_bytes s len).
  set (out := FramingSpec.output (message_receiving s) (rx_bytes s len)).
  intros Hm Hrx.
  assert (Hl : length out <= length (chunk_buff_rx s')).
  { apply (f_equal (@length byte)) in Hrx. rewrite length_firstn in Hrx.
    lia. }
  fold (rx_bytes s' (length out)).
  rewrite (rx_bytes_firstn s' _ Hl), Hrx, Hm.
  unfold FramingSpec.output, FramingSpec.inside_after. subst out.
  fold (FramingSpec.output (message_receiving s) (rx_bytes s len)).
  rewrite framing_filter_idempotent. split; reflexivity.
Qed.

(** ** An idle link *)

Lemma filter_all_zero (rx : list byte) :
  Forall (fun c => c = x00) rx ->
  FramingSpec.framing_filter false rx = (false, []).
Proof.
  induction 1 as [|c rx Hc _ IH]; [reflexivity|]. subst c.
  cbn [FramingSpec.framing_filter].
  change (FramingSpec.filter_step false x00) with (false, @nil byte).
  cbn [fst snd]. rewrite IH. reflexivity.
Qed.

Lemma Forall_zero_nth (l : list byte) (idx : list nat) :
  Forall (fun c => c = x00) l ->
  Forall (fun c => c = x00) (map (fun i => nth i l x00) idx).
Proof.
  intro H. apply Forall_forall. intros c Hin.
  apply in_map_iff in Hin. destruct Hin as (i & <- & _).
  destruct (Nat.lt_ge_cases i (length l)) as [L|L].
  - rewrite Forall_forall in H. apply H. now apply nth_In.
  - now apply nth_overflow.
Qed.

Lemma Forall_zero_write_prefix (data buf : list byte) :
  Forall (fun c => c = x00) data -> Forall (fun c => c = x00) buf ->
  Forall (fun c => c = x00) (write_prefix data buf).
Proof.
  intros Hd Hb. unfold write_prefix. apply Forall_app. split; [exact Hd|].
  rewrite Forall_forall in *. intros c Hin. apply Hb.
  rewrite <- (firstn_skipn (length data) buf). apply in_or_app. now right.
Qed.

Lemma perform_chunk_buff_rx (a : action) (s : state) :
  chunk_buff_rx (final (perform a s))
  = match a with
    | SpiPass e =>
        if HAL_is_ok (spi_start_status e)
        then write_prefix (firstn (spi_length s) (spi_rx_data e))
               (chunk_buff_rx s)
        else chunk_buff_rx s
    | _ => chunk_buff_rx s
    end.
Proof.
  pose proof (perform_frame a s) as F. cbv zeta in F.
  destruct a as [e|e| | |c rearm| |].
  - clear F. cbn [perform]. destruct (HAL_is_ok (spi_start_status e)) eqn:H.
    + rewrite (spi_iteration_started e s H). project.
      unfold filtered. cbn [chunk_buff_rx set_message_receiving
        set_spi_rx_stream]. apply spi_waited_chunk_buff_rx.
    + rewrite (spi_iteration_rejected e s H). project.
      unfold spi_loaded. now destruct s.
  - apply F.
  - destruct F as [-> _]. now destruct s.
  - destruct F as [-> _]. now destruct s.
  - destruct F as [-> _]. now destruct s.
  - destruct F as [-> _]. now destruct s.
  - destruct F as [-> _]. now destruct s.
Qed.

(** X7. Idle filler never reaches the UART.  From a state outside a
    message whose receive buffer holds only zero bytes, a run in which
    every SPI transaction, of whatever length and however it ends,
    receives only zero bytes sends nothing to the SPI-to-UART stream and
    stays outside a message, whatever else the UART side and the
    notifications do in between. *)
Theorem idle_link_forwards_nothing :
  forall (acts : list action) (s : state),
    message_receiving s = false ->
    Forall (fun c => c = x00) (chunk_buff_rx s) ->
    only_filler_received acts ->
    forwarded (trace (run acts s)) = []
    /\ message_receiving (final (run acts s)) = false
    /\ Forall (fun c => c = x00) (chunk_buff_rx (final (run acts s))).
Proof.
  unfold only_filler_received.
  induction acts as [|a acts IH]; intros s Hm Hz Hall.
  - cbn. repeat split; assumption.
  - inversion Hall as [|a' l' Ha Hrest]; subst.
    cbn [run]. rewrite bind_run. project.
    assert (Z' : Forall (fun c => c = x00)
                   (chunk_buff_rx (final (perform a s)))).
    { rewrite perform_chunk_buff_rx. destruct a; try assumption.
      destruct (HAL_is_ok (spi_start_status e)); [|assumption].
      apply Forall_zero_write_prefix; [|assumption].
      now apply Forall_firstn_kept. }
    assert (Sc : Forall (fun c => c = x00) (pass_scanned a s)).
    { destruct a; cbn [pass_scanned]; try constructor.
      unfold spi_pass_scanned.
      destruct (HAL_is_ok (spi_start_status e)); [|constructor].
      unfold rx_bytes, rx_bytes_from. apply Forall_zero_nth.
      rewrite spi_waited_chunk_buff_rx.
      apply Forall_zero_write_prefix; [|assumption].
      now apply Forall_firstn_kept. }
    destruct (perform_forwarded a s) as [Hf Hi].
    rewrite Hm in Hf, Hi.
    unfold FramingSpec.output, FramingSpec.inside_after in Hf, Hi.
    rewrite (filter_all_zero _ Sc) in Hf, Hi. cbn [fst snd] in Hf, Hi.
    destruct (IH (final (perform a s)) Hi Z' Hrest) as (I1 & I2 & I3).
    rewrite forwarded_app, Hf, I1. repeat split; assumption.
Qed.

(** ** Streams of several messages *)

Lemma filter_framed_stream (msgs : list (nat * list byte)) (tail : nat) :
  proper_messages msgs ->
  FramingSpec.framing_filter false (framed_stream msgs ++ repeat x00 tail)
  = (false, framed_messages msgs).
Proof.
  unfold proper_messages.
  induction 1 as [|[gap msg] msgs [Hne Hmsg] _ IH].
  - cbn [framed_stream framed_messages app]. apply filter_filler.
  - cbn [framed_stream framed_messages snd] in *.
    rewrite <- !app_assoc. rewrite framing_filter_app.
    unfold FramingSpec.inside_after, FramingSpec.output.
    rewrite filter_filler. cbn [fst snd app].
    rewrite framing_filter_app.
    unfold FramingSpec.inside_after, FramingSpec.output.
    rewrite (filter_payload msg false Hmsg). cbn [fst snd].
    destruct msg as [|c msg]; [contradiction|].
    cbn [app FramingSpec.framing_filter].
    change (FramingSpec.filter_step true x00) with (false, [x00]).
    cbn [fst snd app]. rewrite IH. reflexivity.
Qed.

(** X8. Any number of messages get through as messages.  For a receive
    stream made of non-empty messages of non-zero bytes, each followed by
    its terminator, with any number of filler bytes before, between and
    after them, cut into accepted 128-byte transactions at any offsets,
    [spi_task] sends to the SPI-to-UART stream the messages with their
    terminators, in order, with nothing in between, and ends outside a
    message. *)
Theorem messages_get_through_as_messages :
  forall (script : list spi_env) (s : state)
         (msgs : list (nat * list byte)) (tail : nat),
    full_transfers script (spi_task_entered s) ->
    proper_messages msgs ->
    received script = framed_stream msgs ++ repeat x00 tail ->
    forwarded (trace (spi_task script s)) = framed_messages msgs
    /\ message_receiving (final (spi_task script s)) = false.
Proof.
  intros script s msgs tail Hfull Hmsgs Hrx.
  destruct (spi_task_full script s Hfull) as (H1 & H2 & _).
  rewrite H1, H2, Hrx. unfold FramingSpec.output, FramingSpec.inside_after.
  rewrite (filter_framed_stream msgs tail Hmsgs). split; reflexivity.
Qed.

(** ** The static buffers *)

Lemma spi_consumed_length (s : state) : length (spi_consumed s) <= 128.
Proof.
  unfold spi_consumed, StreamBuffer.xStreamBufferReceive. cbn [snd].
  rewrite length_firstn. unfold CHUNK_BUFF_SIZE. lia.
Qed.

Lemma uart_consumed_length (s : state) : length (uart_consumed s) <= 128.
Proof.
  unfold uart_consumed, StreamBuffer.xStreamBufferReceive. cbn [snd].
  rewrite length_firstn. unfold CHUNK_BUFF_SIZE. lia.
Qed.

Lemma spi_length_bounds (s : state) : 1 <= spi_length s <= 128.
Proof.
  unfold spi_length. pose proof (spi_consumed_length s) as L.
  destruct (Nat.eqb_spec (length (spi_consumed s)) 0);
    unfold CHUNK_BUFF_SIZE; lia.
Qed.

Lemma spi_loaded_buffers (s : state) :
  buffers_sized s -> buffers_sized (spi_loaded s).
Proof.
  unfold buffers_sized, spi_loaded. pose proof (spi_consumed_length s) as L.
  destruct s as [urx srx usem ssem b cb cbt cbr mr].
  cbn [chunk_buff chunk_buff_tx chunk_buff_rx set_chunk_buff_tx
       set_uart_rx_stream] in *.
  intros (H1 & H2 & H3). repeat split; try assumption.
  destruct (length (spi_consumed _) =? 0).
  - rewrite length_memset; rewrite length_write_prefix; unfold CHUNK_BUFF_SIZE;
      lia.
  - rewrite length_write_prefix; lia.
Qed.

Lemma uart_loaded_buffers (s : state) :
  buffers_sized s -> buffers_sized (uart_loaded s).
Proof.
  unfold buffers_sized, uart_loaded. pose proof (uart_consumed_length s) as L.
  destruct s as [urx srx usem ssem b cb cbt cbr mr].
  cbn [chunk_buff chunk_buff_tx chunk_buff_rx set_chunk_buff
       set_spi_rx_stream] in *.
  intros (H1 & H2 & H3). repeat split; try assumption.
  rewrite length_write_prefix; lia.
Qed.

Lemma perform_buffers_sized (a : action) (s : state) :
  buffers_sized s -> buffers_sized (final (perform a s)).
Proof.
  intro B. pose proof (perform_frame a s) as F. cbv zeta in F.
  destruct a as [e|e| | |c rearm| |].
  - clear F. cbn [perform].
    destruct (HAL_is_ok (spi_start_status e)) eqn:H.
    + rewrite (spi_iteration_started e s H). project.
      destruct (spi_waited_frame e s) as [_ ->].
      pose proof (spi_loaded_buffers s B) as (L1 & L2 & L3).
      pose proof (spi_length_bounds s) as L.
      assert (R : chunk_buff_rx (spi_loaded s) = chunk_buff_rx s)
        by now destruct s.
      unfold spi_received, filtered, buffers_sized.
      destruct (spi_loaded s) as [urx srx usem ssem b cb cbt cbr mr].
      cbn [chunk_buff chunk_buff_tx chunk_buff_rx set_chunk_buff_rx
           set_spi_tx_rx_sema set_message_receiving set_spi_rx_stream] in *.
      repeat split; try assumption.
      rewrite length_write_prefix;
        [rewrite <- R; exact L3|rewrite length_firstn, <- R; lia].
    + rewrite (spi_iteration_rejected e s H). project.
      now apply spi_loaded_buffers.
  - clear F. cbn [perform]. unfold uart_task_iteration.
    destruct (StreamBuffer.would_block _ _); [exact B|].
    destruct (uart_consumed s) as [|c l] eqn:E.
    + rewrite (uart_body_empty e s E). project.
      now apply uart_loaded_buffers.
    + assert (Hne : uart_consumed s <> []) by (rewrite E; discriminate).
      destruct (HAL_is_ok (uart_start_status e)) eqn:H.
      * rewrite (uart_body_started e s Hne H). project.
        destruct (uart_waited_frame e s) as [_ ->].
        apply uart_loaded_buffers in B. now destruct (uart_loaded s).
      * rewrite (uart_body_rejected e s Hne H). project.
        now apply uart_loaded_buffers.
  - destruct F as [-> _]. now destruct s.
  - destruct F as [-> _]. now destruct s.
  - destruct F as [-> _]. now destruct s.
  - destruct F as [-> _]. now destruct s.
  - destruct F as [-> _]. now destruct s.
Qed.

Lemma within_chunk_sends (out : list byte) :
  Forall within_chunk (map EvSpiRxSend out).
Proof. induction out; constructor; [exact I|assumption]. Qed.

Lemma perform_within_chunk (a : action) (s : state) :
  Forall within_chunk (trace (perform a s)).
Proof.
  destruct a as [e|e| | |c rearm| |]; cbn [perform].
  - assert (Ev : within_chunk (spi_start_event e s)).
    { rewrite spi_start_event_txd. pose proof (spi_consumed_length s) as L.
      destruct (spi_consumed s) as [|c l]; cbn [within_chunk length] in *.
      - rewrite repeat_length. unfold CHUNK_BUFF_SIZE. lia.
      - lia. }
    destruct (HAL_is_ok (spi_start_status e)) eqn:H.
    + rewrite (spi_iteration_started e s H). project.
      destruct (spi_waited_frame e s) as [-> _]. cbn [app].
      constructor; [exact Ev|]. constructor; [exact I|].
      destruct (os_is_ok _); cbn [app];
        [|constructor; [exact I|]]; apply within_chunk_sends.
    + rewrite (spi_iteration_rejected e s H). project.
      constructor; [exact Ev|constructor].
  - unfold uart_task_iteration.
    destruct (StreamBuffer.would_block _ _); [constructor|].
    destruct (uart_consumed s) as [|c l] eqn:E.
    + rewrite (uart_body_empty e s E). constructor.
    + assert (Hne : uart_consumed s <> []) by (rewrite E; discriminate).
      assert (Ev : within_chunk (uart_start_event e s)).
      { unfold uart_start_event. pose proof (uart_consumed_length s) as L.
        rewrite E in *. cbn [within_chunk length] in *. lia. }
      destruct (HAL_is_ok (uart_start_status e)) eqn:H.
      * rewrite (uart_body_started e s Hne H). project.
        destruct (uart_waited_frame e s) as [-> _]. cbn [app].
        constructor; [exact Ev|]. constructor; [exact I|].
        destruct (os_is_ok _); repeat constructor.
      * rewrite (uart_body_rejected e s Hne H). project.
        constructor; [exact Ev|constructor].
  - unfold uart_tx_complete_callback. rewrite release_sema_run. constructor.
  - unfold uart_error_callback. rewrite release_sema_run. constructor.
  - change (Forall within_chunk
              (trace (perform (IrqUartRxComplete c rearm) s))).
    rewrite uart_rx_complete_run. repeat constructor.
  - unfold spi_tx_rx_complete_callback. rewrite release_sema_run.
    constructor.
  - unfold spi_error_callback. rewrite release_sema_run. constructor.
Qed.

(** X9. No transfer runs past a static buffer.  In any run, every SPI
    transaction and every UART transmit is asked for with a length
    between 1 and 128 that is exactly the number of bytes handed over,
    and the three 128-byte buffers keep their size: what the stream
    receive, the [memset] and the peripheral write into them stays inside
    them. *)
Theorem transfers_stay_inside_the_static_buffers :
  forall (acts : list action) (s : state),
    buffers_sized s ->
    Forall within_chunk (trace (run acts s))
    /\ buffers_sized (final (run acts s)).
Proof.
  induction acts as [|a acts IH]; intros s B.
  - cbn. split; [constructor|exact B].
  - cbn [run]. rewrite bind_run. project.
    destruct (IH _ (perform_buffers_sized a s B)) as [T B'].
    split; [|exact B']. apply Forall_app. split; [|exact T].
    apply perform_within_chunk.
Qed.

(** ** A burst of received bytes *)

Lemma uart_rx_burst_run (rxs : list (byte * HAL_StatusTypeDef)) :
  forall s : state,
    uart_rx_stream (final (run (uart_rx_burst rxs) s))
    = send_each (uart_rx_stream s) (map fst rxs)
    /\ trace (run (uart_rx_burst rxs) s)
       = flat_map (fun p => [EvUartRxSend (fst p); EvUartReceiveIT (snd p)])
           rxs
    /\ final (run (uart_rx_burst rxs) s)
       = set_uart_rx_stream
           (uart_rx_stream (final (run (uart_rx_burst rxs) s)))
           (set_uart_rx_byte
              (uart_rx_byte (final (run (uart_rx_burst rxs) s))) s).
Proof.
  unfold uart_rx_burst.
  induction rxs as [|[c st] rxs IH]; intro s.
  - cbn. repeat split. now destruct s.
  - cbn [map run fst snd flat_map]. rewrite bind_run.
    rewrite uart_rx_complete_run. project.
    destruct (IH (set_uart_rx_stream
                    (fst (StreamBuffer.xStreamBufferSend
                            (uart_rx_stream s) [c]))
                    (set_uart_rx_byte c s))) as (I1 & I2 & I3).
    rewrite I2. split; [|split; [reflexivity|]].
    + rewrite I1. now destruct s.
    + rewrite I3 at 1. now destruct s.
Qed.

(** X10. A burst of UART receive interrupts stores the received bytes in
    the UART-to-SPI stream in the order of arrival for as long as there
    is room, and drops every byte from the first one that does not fit;
    the reception is re-armed after each byte, stored or dropped, and
    whatever the HAL answers to the re-arming; nothing but the stream and
    [uart_rx_byte] changes. *)
Theorem uart_rx_burst_keeps_the_first_bytes_that_fit :
  forall (rxs : list (byte * HAL_StatusTypeDef)) (s : state),
    let r := run (uart_rx_burst rxs) s in
    StreamBuffer.stored (uart_rx_stream (final r))
    = StreamBuffer.stored (uart_rx_stream s)
      ++ firstn (StreamBuffer.capacity (uart_rx_stream s)
                 - length (StreamBuffer.stored (uart_rx_stream s)))
           (map fst rxs)
    /\ trace r
       = flat_map (fun p => [EvUartRxSend (fst p); EvUartReceiveIT (snd p)])
           rxs
    /\ final r
       = set_uart_rx_stream (uart_rx_stream (final r))
           (set_uart_rx_byte (uart_rx_byte (final r)) s).
Proof.
  intros rxs s. cbv zeta.
  destruct (uart_rx_burst_run rxs s) as (H1 & H2 & H3).
  split; [|split; assumption].
  rewrite H1, send_each_bulk. reflexivity.
Qed.

(** ** Nothing is lost or reordered while there is room *)

Lemma uart_offered_app (a b : list event) :
  uart_offered (a ++ b) = uart_offered a ++ uart_offered b.
Proof.
  induction a as [|e a IH]; [reflexivity|].
  destruct e; cbn [app uart_offered]; rewrite ?IH, ?app_assoc; reflexivity.
Qed.

Lemma uart_received_app (a b : list event) :
  uart_received (a ++ b) = uart_received a ++ uart_received b.
Proof.
  induction a as [|e a IH]; [reflexivity|].
  destruct e; cbn [app uart_received]; rewrite ?IH; reflexivity.
Qed.

Lemma spi_events_offer_nothing (tr : list event) :
  forallb is_spi_event tr = true ->
  uart_offered tr = [] /\ uart_received tr = [].
Proof.
  induction tr as [|e tr IH]; [split; reflexivity|].
  cbn [forallb]. intro H. apply andb_prop in H. destruct H as [He Ht].
  destruct e; try discriminate He; cbn [uart_offered uart_received];
    now apply IH.
Qed.

Lemma uart_tx_events_receive_nothing (tr : list event) :
  forallb is_uart_tx_event tr = true -> uart_received tr = [].
Proof.
  induction tr as [|e tr IH]; [reflexivity|].
  cbn [forallb]. intro H. apply andb_prop in H. destruct H as [He Ht].
  destruct e; try discriminate He; cbn [uart_received]; now apply IH.
Qed.

Lemma stream_eta (sb : StreamBuffer.t) :
  StreamBuffer.mk (StreamBuffer.capacity sb) (StreamBuffer.stored sb) = sb.
Proof. now destruct sb. Qed.

(** What one action does to the SPI-to-UART stream. *)
Lemma perform_spi_rx_stream (a : action) (s : state) :
  let r := perform a s in
  StreamBuffer.capacity (spi_rx_stream (final r))
  = StreamBuffer.capacity (spi_rx_stream s)
  /\ (length (StreamBuffer.stored (spi_rx_stream s))
      + length (forwarded (trace r))
      <= StreamBuffer.capacity (spi_rx_stream s) ->
      uart_offered (trace r) ++ StreamBuffer.stored (spi_rx_stream (final r))
      = StreamBuffer.stored (spi_rx_stream s) ++ forwarded (trace r)).
Proof.
  cbv zeta. pose proof (perform_frame a s) as F. cbv zeta in F.
  destruct a as [e|e| | |c rearm| |].
  - cbn [perform] in *. destruct F as (_ & _ & _ & Ev).
    destruct (spi_events_offer_nothing _ Ev) as [-> _].
    destruct (spi_iteration_forwarded e s) as (Hf & _ & Hs).
    rewrite <- Hf in Hs. rewrite Hs, send_each_bulk. split; [reflexivity|].
    intro Room. cbn [app]. rewrite <- send_each_bulk, send_each_fits;
      [reflexivity|unfold StreamBuffer.spaces; lia].
  - clear F. cbn [perform].
    pose proof (uart_iteration_closed e s) as C. cbv zeta in C.
    destruct (StreamBuffer.stored (spi_rx_stream s)) as [|c l] eqn:E.
    + rewrite C. project. rewrite E. split; [reflexivity|reflexivity].
    + destruct (uart_iteration_runs e s) as [Hr _];
        [rewrite E; discriminate|].
      rewrite Hr in *. destruct C as (r & Heq & _ & Ho & Hst & Hc).
      injection Heq as <-.
      assert (Fw : forwarded (trace (uart_task_body e s)) = [])
        by apply uart_body_no_forward.
      split; [exact Hc|]. intros _.
      rewrite Ho, Hst, Fw, app_nil_r. apply firstn_skipn.
  - destruct F as [F ->]. rewrite F. split; [now destruct s|].
    intros _. cbn [app forwarded uart_offered]. rewrite app_nil_r.
    now destruct s.
  - destruct F as [F ->]. rewrite F. split; [now destruct s|].
    intros _. cbn [app forwarded uart_offered]. rewrite app_nil_r.
    now destruct s.
  - clear F. rewrite uart_rx_complete_run. project.
    split; [now destruct s|]. intros _.
    cbn [app forwarded uart_offered]. rewrite app_nil_r. now destruct s.
  - destruct F as [F ->]. rewrite F. split; [now destruct s|].
    intros _. cbn [app forwarded uart_offered]. rewrite app_nil_r.
    now destruct s.
  - destruct F as [F ->]. rewrite F. split; [now destruct s|].
    intros _. cbn [app forwarded uart_offered]. rewrite app_nil_r.
    now destruct s.
Qed.

(** X11. From SPI to UART nothing is lost, repeated or reordered while
    the stream has room.  In any run in which the bytes forwarded by the
    filter all fit in the SPI-to-UART stream on top of what it held, the
    bytes handed to the UART transmit, followed by what is still queued,
    are exactly what was queued at the start followed by the forwarded
    bytes. *)
Theorem forwarded_bytes_reach_the_uart_in_order :
  forall (acts : list action) (s : state),
    length (StreamBuffer.stored (spi_rx_stream s))
    + length (forwarded (trace (run acts s)))
    <= StreamBuffer.capacity (spi_rx_stream s) ->
    uart_offered (trace (run acts s))
    ++ StreamBuffer.stored (spi_rx_stream (final (run acts s)))
    = StreamBuffer.stored (spi_rx_stream s)
      ++ forwarded (trace (run acts s)).
Proof.
  induction acts as [|a acts IH]; intros s Room.
  - cbn. now rewrite app_nil_r.
  - cbn [run] in *. rewrite bind_run in *. rewrite trace_triple in Room.
    project. rewrite forwarded_app, length_app in Room.
    destruct (perform_spi_rx_stream a s) as [Hc Hstep].
    assert (Step := Hstep ltac:(lia)).
    assert (Len := f_equal (@length byte) Step).
    rewrite !length_app in Len.
    rewrite uart_offered_app, forwarded_app, <- app_assoc.
    rewrite IH by (rewrite Hc; lia).
    rewrite !app_assoc. f_equal. exact Step.
Qed.

(** What one action does to the UART-to-SPI stream. *)
Lemma perform_uart_rx_stream (a : action) (s : state) :
  let r := perform a s in
  let taken := match a with SpiPass _ => spi_consumed s | _ => [] end in
  StreamBuffer.capacity (uart_rx_stream (final r))
  = StreamBuffer.capacity (uart_rx_stream s)
  /\ (length (StreamBuffer.stored (uart_rx_stream s))
      + length (uart_received (trace r))
      <= StreamBuffer.capacity (uart_rx_stream s) ->
      taken ++ StreamBuffer.stored (uart_rx_stream (final r))
      = StreamBuffer.stored (uart_rx_stream s) ++ uart_received (trace r)).
Proof.
  cbv zeta. pose proof (perform_frame a s) as F. cbv zeta in F.
  destruct a as [e|e| | |c rearm| |].
  - cbn [perform] in *. destruct F as (_ & _ & _ & Ev).
    destruct (spi_events_offer_nothing _ Ev) as [_ ->].
    rewrite spi_iteration_uart_rx_stream.
    unfold spi_consumed, StreamBuffer.xStreamBufferReceive.
    cbn [fst snd StreamBuffer.capacity StreamBuffer.stored].
    split; [reflexivity|]. intros _. rewrite app_nil_r. apply firstn_skipn.
  - destruct F as (-> & _ & _ & _ & _ & _ & Ev).
    rewrite (uart_tx_events_receive_nothing _ Ev).
    split; [reflexivity|]. intros _. now rewrite app_nil_r.
  - destruct F as [F ->]. rewrite F. split; [now destruct s|].
    intros _. cbn [app uart_received]. rewrite app_nil_r. now destruct s.
  - destruct F as [F ->]. rewrite F. split; [now destruct s|].
    intros _. cbn [app uart_received]. rewrite app_nil_r. now destruct s.
  - clear F. rewrite uart_rx_complete_run. project.
    cbn [app uart_received]. split; [now destruct s|]. intro Room.
    cbn [length] in Room.
    assert (U : forall v x, uart_rx_stream (set_uart_rx_stream v x) = v)
      by (intros v x; now destruct x).
    rewrite U. unfold StreamBuffer.xStreamBufferSend.
    cbn [fst StreamBuffer.stored]. destruct s. cbn [uart_rx_stream
      set_uart_rx_byte] in *.
    unfold StreamBuffer.spaces.
    destruct (StreamBuffer.capacity uart_rx_stream0
              - length (StreamBuffer.stored uart_rx_stream0)) eqn:D;
      [lia|cbn [firstn app]; now rewrite firstn_nil].
  - destruct F as [F ->]. rewrite F. split; [now destruct s|].
    intros _. cbn [app uart_received]. rewrite app_nil_r. now destruct s.
  - destruct F as [F ->]. rewrite F. split; [now destruct s|].
    intros _. cbn [app uart_received]. rewrite app_nil_r. now destruct s.
Qed.

(** X12. From UART to SPI nothing is lost, repeated or reordered while
    the stream has room.  In any run in which the bytes received on the
    UART all fit in the UART-to-SPI stream on top of what it held, the
    bytes taken by the passes of [spi_task] as transaction payload,
    followed by what is still queued, are exactly what was queued at the
    start followed by the received bytes. *)
Theorem received_bytes_reach_the_spi_in_order :
  forall (acts : list action) (s : state),
    length (StreamBuffer.stored (uart_rx_stream s))
    + length (uart_received (trace (run acts s)))
    <= StreamBuffer.capacity (uart_rx_stream s) ->
    spi_taken acts s
    ++ StreamBuffer.stored (uart_rx_stream (final (run acts s)))
    = StreamBuffer.stored (uart_rx_stream s)
      ++ uart_received (trace (run acts s)).
Proof.
  induction acts as [|a acts IH]; intros s Room.
  - cbn. now rewrite app_nil_r.
  - cbn [run spi_taken] in *. rewrite bind_run in *.
    rewrite trace_triple in Room. project.
    rewrite uart_received_app, length_app in Room.
    destruct (perform_uart_rx_stream a s) as [Hc Hstep]. cbv zeta in Hstep.
    assert (Step := Hstep ltac:(lia)).
    assert (Len := f_equal (@length byte) Step).
    rewrite !length_app in Len.
    rewrite uart_received_app, <- app_assoc.
    rewrite IH by (rewrite Hc; lia).
    rewrite !app_assoc. f_equal. exact Step.
Qed.

(** ** The start-up in full *)

Lemma uart_spi_start_closed (ndebug : bool) (e : Start.env)
    (p : Start.uart_spi_params_t) :
  Start.uart_spi_start ndebug e (Some p) Start.unset
  = if ndebug
       || (Start.is_set (Start.p_huart p) && Start.is_set (Start.p_hspi p)
           && Start.succeeds e)
    then Start.Returned 0%Z
           (vars_after e (Start.p_huart p) (Start.p_hspi p))
    else Start.AssertionFailed.
Proof.
  destruct e as [r1 r2 r3 b1 b2 r4 r5 b3 b4 b5 b6].
  destruct ndebug.
  - destruct p as [hu hs].
    destruct r1, r2, r3, r4, r5; reflexivity.
  - destruct p as [[hu|] [hs|]]; try reflexivity.
    destruct r1; try reflexivity.
    destruct r2; try reflexivity.
    destruct r3; try reflexivity.
    destruct b1; try reflexivity.
    destruct b2; try reflexivity.
    destruct r4; try reflexivity.
    destruct r5; try reflexivity.
    destruct b3; try reflexivity.
    destruct b4; try reflexivity.
    destruct b5; try reflexivity.
    destruct b6; reflexivity.
Qed.

(** X13. [uart_spi_start] in closed form.  Called with a NULL pointer it
    fails its first assertion, or dereferences NULL when assertions are
    compiled out.  Otherwise it runs to its last statement and returns 0
    exactly when assertions are compiled out or both handles are set and
    every registration, allocation and task creation succeeds; the
    file-scope variables then hold every object the kernel granted and
    NULL for the others.  In every other case a failed assertion stops
    the program. *)
Theorem uart_spi_start_outcome :
  forall (ndebug : bool) (e : Start.env) (p : Start.uart_spi_params_t),
    Start.uart_spi_start ndebug e None Start.unset
    = (if ndebug then Start.Fault else Start.AssertionFailed)
    /\ Start.uart_spi_start ndebug e (Some p) Start.unset
       = if ndebug
            || (Start.is_set (Start.p_huart p)
                && Start.is_set (Start.p_hspi p) && Start.succeeds e)
         then Start.Returned 0%Z
                (vars_after e (Start.p_huart p) (Start.p_hspi p))
         else Start.AssertionFailed.
Proof.
  intros ndebug e p. split; [now destruct ndebug|].
  apply uart_spi_start_closed.
Qed.

Lemma succeeds_objects (e : Start.env) :
  Start.succeeds e = true ->
  Start.uart_rx_stream_created e = true
  /\ Start.uart_tx_sema_created e = true
  /\ Start.spi_rx_stream_created e = true
  /\ Start.spi_tx_rx_sema_created e = true
  /\ accepted_callbacks e
     = [Start.HAL_UART_TX_COMPLETE_CB_ID; Start.HAL_UART_RX_COMPLETE_CB_ID;
        Start.HAL_UART_ERROR_CB_ID; Start.HAL_SPI_TX_RX_COMPLETE_CB_ID;
        Start.HAL_SPI_ERROR_CB_ID].
Proof.
  unfold Start.succeeds, accepted_callbacks. intro H.
  repeat (apply andb_prop in H; destruct H as [H ?]).
  destruct e. cbn in *. subst.
  repeat match goal with
         | H : HAL_is_ok ?x = true |- _ => rewrite H; clear H
         end.
  repeat split.
Qed.

(** X14. A start that returns with assertions enabled has set up
    everything, and one that returns with assertions compiled out may
    not have.  Whenever [uart_spi_start] returns, it returns 0.  With
    assertions enabled a return means that all five callbacks are
    installed and the two streams and two semaphores exist, so that the
    tasks begin in the initial state.  With NDEBUG the function returns 0
    also after a failure, and the tasks have their four kernel objects
    exactly when the four allocations succeeded. *)
Theorem a_returning_start_and_what_it_leaves :
  forall (ndebug : bool) (e : Start.env) (p : Start.uart_spi_params_t)
         (z : Z) (v : Start.vars),
    Start.uart_spi_start ndebug e (Some p) Start.unset = Start.Returned z v ->
    z = 0%Z
    /\ (ndebug = false ->
        boot v = Some initial_state
        /\ Start.v_registered v
           = [Start.HAL_UART_TX_COMPLETE_CB_ID;
              Start.HAL_UART_RX_COMPLETE_CB_ID; Start.HAL_UART_ERROR_CB_ID;
              Start.HAL_SPI_TX_RX_COMPLETE_CB_ID; Start.HAL_SPI_ERROR_CB_ID]
        /\ Start.is_set (Start.v_huart v) = true
        /\ Start.is_set (Start.v_hspi v) = true)
    /\ (boot v = Some initial_state
        <-> (Start.uart_rx_stream_created e = true
             /\ Start.uart_tx_sema_created e = true
             /\ Start.spi_rx_stream_created e = true
             /\ Start.spi_tx_rx_sema_created e = true)).
Proof.
  intros ndebug e p z v H. rewrite uart_spi_start_closed in H.
  destruct (ndebug
            || (Start.is_set (Start.p_huart p)
                && Start.is_set (Start.p_hspi p) && Start.succeeds e))
    eqn:C; [|discriminate].
  injection H as <- <-. split; [reflexivity|]. split.
  - intros ->. cbn [orb] in C.
    apply andb_prop in C. destruct C as [C S].
    apply andb_prop in C. destruct C as [C1 C2].
    destruct (succeeds_objects e S) as (O1 & O2 & O3 & O4 & O5).
    unfold vars_after, boot.
    cbn [Start.v_uart_rx_stream Start.v_spi_rx_stream Start.v_uart_tx_sema
         Start.v_spi_tx_rx_sema Start.v_registered Start.v_huart
         Start.v_hspi].
    rewrite O1, O2, O3, O4, O5. repeat split; assumption.
  - unfold vars_after, boot.
    cbn [Start.v_uart_rx_stream Start.v_spi_rx_stream Start.v_uart_tx_sema
         Start.v_spi_tx_rx_sema].
    destruct (Start.uart_rx_stream_created e),
      (Start.uart_tx_sema_created e), (Start.spi_rx_stream_created e),
      (Start.spi_tx_rx_sema_created e); cbn [Start.alloc];
      split; try discriminate; try (intros (A & B & C' & D); discriminate);
      try (intros _; reflexivity); try (intros _; repeat split).
Qed.

(** X15. The application task.  [app_init] hands back what
    [uart_spi_start] returns, which can only be 0, and never dereferences
    NULL.  [app_task] gets to its delay loop exactly when [app_init]
    returns: always when assertions are compiled out, and with assertions
    enabled only when the whole start succeeded; it then asks for a delay
    of 1000 ms on every turn, whatever the start left behind. *)
Theorem app_task_outcome :
  forall (ndebug : bool) (e : Start.env) (cycles : nat),
    app_init ndebug e Start.unset
    = (if ndebug || Start.succeeds e
       then Start.Returned 0%Z (vars_after e (Some 1) (Some 1))
       else Start.AssertionFailed)
    /\ app_task ndebug e cycles Start.unset
       = (if ndebug || Start.succeeds e
          then Start.Returned (repeat 1000 cycles)
                 (vars_after e (Some 1) (Some 1))
          else Start.AssertionFailed).
Proof.
  intros ndebug e cycles. unfold app_task, app_init, Start.sbind.
  unfold Start.app_params. rewrite uart_spi_start_closed.
  cbn [Start.p_huart Start.p_hspi Start.is_set andb].
  destruct (ndebug || Start.succeeds e); split; reflexivity.
Qed.

(** ** The latch after a pass *)

(** X16. After a pass that started an operation the latch of that
    peripheral is empty, however the wait ended: the wait took the token,
    or there was none and none came.  A pass that started nothing leaves
    the latch as it was.  So a notification that arrives before a wait is
    kept for that wait, and any number of notifications between two waits
    count as one. *)
Theorem latch_is_empty_after_a_started_pass :
  forall (es : spi_env) (eu : uart_env) (s : state),
    wf_state s ->
    Semaphore.count (spi_tx_rx_sema (final (spi_task_iteration es s)))
    = (if HAL_is_ok (spi_start_status es) then 0
       else Semaphore.count (spi_tx_rx_sema s))
    /\ Semaphore.count (uart_tx_sema (final (perform (UartPass eu) s)))
       = match StreamBuffer.stored (spi_rx_stream s) with
         | [] => Semaphore.count (uart_tx_sema s)
         | _ :: _ =>
             if HAL_is_ok (uart_start_status eu) then 0
             else Semaphore.count (uart_tx_sema s)
         end.
Proof.
  intros es eu s W. split.
  - destruct (HAL_is_ok (spi_start_status es)) eqn:H.
    + rewrite (spi_iteration_started es s H). project.
      assert (Fs : forall x rx,
                spi_tx_rx_sema (filtered x rx) = spi_tx_rx_sema x)
        by (intros x rx; now destruct x).
      rewrite Fs.
      destruct (spi_acquire_outcome (spi_wake es) (spi_received es s)
                  (spi_received_wf es s W)) as [_ [[_ C]|[T F]]];
        [exact C|].
      change (osSemaphoreAcquire spi_tx_rx_sema set_spi_tx_rx_sema
                spi_notify (spi_wake es) (spi_received es s))
        with (spi_waited es s) in *.
      rewrite F.
      assert (B : binary (spi_tx_rx_sema s)) by apply W.
      rewrite (spi_waited_value es s B) in T.
      assert (R : spi_tx_rx_sema (spi_received es s) = spi_tx_rx_sema s)
        by now destruct s.
      rewrite R.
      destruct (Semaphore.count (spi_tx_rx_sema s));
        [reflexivity|discriminate T].
    + rewrite (spi_iteration_rejected es s H). project.
      unfold spi_loaded. now destruct s.
  - cbn [perform].
    destruct (StreamBuffer.stored (spi_rx_stream s)) as [|c l] eqn:E.
    + unfold uart_task_iteration, StreamBuffer.would_block. rewrite E.
      reflexivity.
    + assert (Hdata : StreamBuffer.stored (spi_rx_stream s) <> [])
        by (rewrite E; discriminate).
      destruct (uart_iteration_runs eu s Hdata) as [-> Hne].
      destruct (HAL_is_ok (uart_start_status eu)) eqn:H.
      * rewrite (uart_body_started eu s Hne H). project.
        destruct (uart_acquire_outcome (uart_wake eu) (uart_loaded s)
                    (uart_loaded_wf s W)) as [_ [[_ C]|[T F]]];
          [exact C|].
        change (osSemaphoreAcquire uart_tx_sema set_uart_tx_sema
                  uart_notify (uart_wake eu) (uart_loaded s))
          with (uart_waited eu s) in *.
        rewrite F.
        assert (B : binary (uart_tx_sema s)) by apply W.
        rewrite (uart_waited_value eu s B) in T.
        assert (R : uart_tx_sema (uart_loaded s) = uart_tx_sema s)
          by now destruct s.
        rewrite R.
        destruct (Semaphore.count (uart_tx_sema s));
          [reflexivity|discriminate T].
      * rewrite (uart_body_rejected eu s Hne H). project.
        unfold uart_loaded. now destruct s.
Qed.

(** ** Beyond the transaction length *)

(** X17. The scan looks at the first [length] bytes of the receive buffer
    and at nothing else: two states that agree on those bytes, on the
    framing flag and on the SPI-to-UART stream forward the same bytes and
    end with the same flag and stream, whatever older data the rest of
    the buffer holds. *)
Theorem scan_ignores_bytes_beyond_the_length :
  forall (s s' : state) (length : nat),
    length <= List.length (chunk_buff_rx s) ->
    length <= List.length (chunk_buff_rx s') ->
    firstn length (chunk_buff_rx s) = firstn length (chunk_buff_rx s') ->
    message_receiving s = message_receiving s' ->
    spi_rx_stream s = spi_rx_stream s' ->
    trace (scan_rx length s) = trace (scan_rx length s')
    /\ message_receiving (final (scan_rx length s))
       = message_receiving (final (scan_rx length s'))
    /\ spi_rx_stream (final (scan_rx length s))
       = spi_rx_stream (final (scan_rx length s')).
Proof.
  intros s s' len L L' Hrx Hm Hs.
  unfold scan_rx. rewrite !scan_from_filtered. project.
  fold (rx_bytes s len). fold (rx_bytes s' len).
  rewrite (rx_bytes_firstn s len L), (rx_bytes_firstn s' len L'), Hrx, Hm.
  split; [reflexivity|].
  split; [now rewrite !message_receiving_filtered, Hm|].
  unfold filtered.
  cbn [spi_rx_stream set_message_receiving set_spi_rx_stream].
  now rewrite Hs, Hm.
Qed.

(** ** The further properties at concrete inputs *)

Lemma stalled_state_wf : wf_state stalled_state.
Proof.
  unfold wf_state, channel_ok, binary. vm_compute.
  split; [split; [reflexivity|lia]|].
  split; [split; [reflexivity|lia]|].
  split; split; [reflexivity|lia|reflexivity|lia].
Defined.

Lemma a_pass_aborts_witness :
  wf_state stalled_state
  /\ In EvSpiAbort (trace (spi_task_iteration silent_spi stalled_state))
  /\ In EvUartAbortTransmit (trace (perform (UartPass silent_uart)
                                      stalled_state)).
Proof.
  pose proof (a_pass_aborts_exactly_on_an_empty_silent_latch silent_spi
                silent_uart stalled_state stalled_state_wf) as [Hs Hu].
  assert (A : In EvSpiAbort
                (trace (spi_task_iteration silent_spi stalled_state))).
  { apply Hs. vm_compute. split; [reflexivity|split; reflexivity]. }
  assert (B : In EvUartAbortTransmit
                (trace (perform (UartPass silent_uart) stalled_state))).
  { apply Hu. vm_compute.
    split; [discriminate|split; [reflexivity|split; reflexivity]]. }
  exact (conj stalled_state_wf (conj A B)).
Defined.

Lemma spi_pass_forwards_every_payload_byte_witness :
  HAL_is_ok (spi_start_status two_messages_spi) = true
  /\ length (spi_rx_data two_messages_spi) = spi_length initial_state
  /\ filter nonzero
       (forwarded (trace (spi_task_iteration two_messages_spi
                            initial_state)))
     = [x41; x42; x43].
Proof.
  assert (H1 : HAL_is_ok (spi_start_status two_messages_spi) = true)
    by reflexivity.
  assert (H2 : length (spi_rx_data two_messages_spi)
               = spi_length initial_state)
    by (vm_compute; reflexivity).
  pose proof (spi_pass_forwards_every_payload_byte two_messages_spi
                initial_state H1 H2) as [C _].
  assert (C' : filter nonzero
                 (forwarded (trace (spi_task_iteration two_messages_spi
                                      initial_state)))
               = [x41; x42; x43])
    by (rewrite C; vm_compute; reflexivity).
  exact (conj H1 (conj H2 C')).
Defined.

Lemma short_transfer_witness :
  HAL_is_ok (spi_start_status silent_spi) = true
  /\ length (chunk_buff_rx stalled_state) = 128
  /\ length (spi_rx_data silent_spi) <= spi_length stalled_state
  /\ filter nonzero
       (forwarded (trace (spi_task_iteration silent_spi stalled_state)))
     = [x43].
Proof.
  assert (H1 : HAL_is_ok (spi_start_status silent_spi) = true)
    by reflexivity.
  assert (H2 : length (chunk_buff_rx stalled_state) = 128)
    by (vm_compute; reflexivity).
  assert (H3 : length (spi_rx_data silent_spi) <= spi_length stalled_state)
    by (vm_compute; lia).
  pose proof (short_transfer_rescans_stale_bytes silent_spi stalled_state
                H1 H2 H3) as (_ & _ & C).
  assert (C' : filter nonzero
                 (forwarded (trace (spi_task_iteration silent_spi
                                      stalled_state)))
               = [x43])
    by (rewrite C; vm_compute; reflexivity).
  exact (conj H1 (conj H2 (conj H3 C'))).
Defined.

Lemma refiltering_witness :
  message_receiving downstream = message_receiving upstream
  /\ firstn (length (forwarded (trace (scan_rx 128 upstream))))
       (chunk_buff_rx downstream)
     = forwarded (trace (scan_rx 128 upstream))
  /\ forwarded
       (trace (scan_rx (length (forwarded (trace (scan_rx 128 upstream))))
                 downstream))
     = forwarded (trace (scan_rx 128 upstream)).
Proof.
  assert (H1 : message_receiving downstream = message_receiving upstream)
    by reflexivity.
  assert (H2 : firstn (length (forwarded (trace (scan_rx 128 upstream))))
                 (chunk_buff_rx downstream)
               = forwarded (trace (scan_rx 128 upstream)))
    by (vm_compute; reflexivity).
  pose proof (refiltering_changes_nothing upstream downstream 128 H1 H2)
    as [C _].
  exact (conj H1 (conj H2 C)).
Defined.

Lemma idle_link_witness :
  message_receiving initial_state = false
  /\ Forall (fun c => c = x00) (chunk_buff_rx initial_state)
  /\ only_filler_received idle_run
  /\ forwarded (trace (run idle_run initial_state)) = [].
Proof.
  assert (H1 : message_receiving initial_state = false) by reflexivity.
  assert (H2 : Forall (fun c => c = x00) (chunk_buff_rx initial_state))
    by (repeat constructor).
  assert (H3 : only_filler_received idle_run)
    by (repeat constructor).
  pose proof (idle_link_forwards_nothing idle_run initial_state H1 H2 H3)
    as (C & _).
  exact (conj H1 (conj H2 (conj H3 C))).
Defined.

Lemma messages_get_through_witness :
  full_transfers two_messages_script (spi_task_entered initial_state)
  /\ proper_messages two_messages
  /\ received two_messages_script
     = framed_stream two_messages ++ repeat x00 118
  /\ forwarded (trace (spi_task two_messages_script initial_state))
     = [x41; x42; x00; x43; x00].
Proof.
  assert (H1 : full_transfers two_messages_script
                 (spi_task_entered initial_state))
    by (vm_compute; split; [reflexivity|split; [reflexivity|split;
          [reflexivity|exact I]]]).
  assert (H2 : proper_messages two_messages)
    by (repeat constructor; discriminate).
  assert (H3 : received two_messages_script
               = framed_stream two_messages ++ repeat x00 118)
    by reflexivity.
  pose proof (messages_get_through_as_messages two_messages_script
                initial_state two_messages 118 H1 H2 H3) as [C _].
  exact (conj H1 (conj H2 (conj H3 C))).
Defined.

Lemma transfers_stay_inside_witness :
  buffers_sized initial_state
  /\ buffers_sized (final (run mixed_run initial_state)).
Proof.
  assert (H1 : buffers_sized initial_state)
    by (split; [reflexivity|split; reflexivity]).
  pose proof (transfers_stay_inside_the_static_buffers mixed_run
                initial_state H1) as [_ C].
  exact (conj H1 C).
Defined.

Lemma forwarded_bytes_reach_the_uart_witness :
  length (StreamBuffer.stored (spi_rx_stream initial_state))
  + length (forwarded (trace (run mixed_run initial_state)))
  <= StreamBuffer.capacity (spi_rx_stream initial_state)
  /\ uart_offered (trace (run mixed_run initial_state))
     ++ StreamBuffer.stored
          (spi_rx_stream (final (run mixed_run initial_state)))
     = [x41; x00; x42; x43; x00; x44; x00].
Proof.
  assert (H1 : length (StreamBuffer.stored (spi_rx_stream initial_state))
               + length (forwarded (trace (run mixed_run initial_state)))
               <= StreamBuffer.capacity (spi_rx_stream initial_state))
    by (vm_compute; lia).
  pose proof (forwarded_bytes_reach_the_uart_in_order mixed_run
                initial_state H1) as C.
  assert (C' : uart_offered (trace (run mixed_run initial_state))
               ++ StreamBuffer.stored
                    (spi_rx_stream (final (run mixed_run initial_state)))
               = [x41; x00; x42; x43; x00; x44; x00])
    by (rewrite C; vm_compute; reflexivity).
  exact (conj H1 C').
Defined.

Lemma received_bytes_reach_the_spi_witness :
  length (StreamBuffer.stored (uart_rx_stream initial_state))
  + length (uart_received (trace (run mixed_run initial_state)))
  <= StreamBuffer.capacity (uart_rx_stream initial_state)
  /\ spi_taken mixed_run initial_state
     ++ StreamBuffer.stored
          (uart_rx_stream (final (run mixed_run initial_state)))
     = [x61].
Proof.
  assert (H1 : length (StreamBuffer.stored (uart_rx_stream initial_state))
               + length (uart_received
                           (trace (run mixed_run initial_state)))
               <= StreamBuffer.capacity (uart_rx_stream initial_state))
    by (vm_compute; lia).
  pose proof (received_bytes_reach_the_spi_in_order mixed_run
                initial_state H1) as C.
  assert (C' : spi_taken mixed_run initial_state
               ++ StreamBuffer.stored
                    (uart_rx_stream (final (run mixed_run initial_state)))
               = [x61])
    by (rewrite C; vm_compute; reflexivity).
  exact (conj H1 C').
Defined.

Lemma a_returning_start_witness :
  Start.uart_spi_start false Start.all_ok
    (Some (Start.mkParams (Some 1) (Some 1))) Start.unset
  = Start.Returned 0%Z started_vars
  /\ boot started_vars = Some initial_state.
Proof.
  assert (H1 : Start.uart_spi_start false Start.all_ok
                 (Some (Start.mkParams (Some 1) (Some 1))) Start.unset
               = Start.Returned 0%Z started_vars)
    by reflexivity.
  pose proof (a_returning_start_and_what_it_leaves false Start.all_ok
                (Start.mkParams (Some 1) (Some 1)) 0%Z started_vars H1)
    as (_ & C & _).
  exact (conj H1 (proj1 (C eq_refl))).
Defined.

Lemma latch_is_empty_witness :
  wf_state stalled_state
  /\ Semaphore.count
       (spi_tx_rx_sema (final (spi_task_iteration silent_spi stalled_state)))
     = 0.
Proof.
  pose proof (latch_is_empty_after_a_started_pass silent_spi silent_uart
                stalled_state stalled_state_wf) as [C _].
  exact (conj stalled_state_wf C).
Defined.

Lemma scan_ignores_witness :
  3 <= length (chunk_buff_rx upstream)
  /\ 3 <= length (chunk_buff_rx upstream_stale)
  /\ firstn 3 (chunk_buff_rx upstream)
     = firstn 3 (chunk_buff_rx upstream_stale)
  /\ message_receiving upstream = message_receiving upstream_stale
  /\ spi_rx_stream upstream = spi_rx_stream upstream_stale
  /\ trace (scan_rx 3 upstream) = trace (scan_rx 3 upstream_stale).
Proof.
  assert (H1 : 3 <= length (chunk_buff_rx upstream)) by (vm_compute; lia).
  assert (H2 : 3 <= length (chunk_buff_rx upstream_stale))
    by (vm_compute; lia).
  assert (H3 : firstn 3 (chunk_buff_rx upstream)
               = firstn 3 (chunk_buff_rx upstream_stale)) by reflexivity.
  assert (H4 : message_receiving upstream
               = message_receiving upstream_stale) by reflexivity.
  assert (H5 : spi_rx_stream upstream = spi_rx_stream upstream_stale)
    by reflexivity.
  pose proof (scan_ignores_bytes_beyond_the_length upstream upstream_stale 3
                H1 H2 H3 H4 H5) as [C _].
  exact (conj H1 (conj H2 (conj H3 (conj H4 (conj H5 C))))).
Defined.
